(** * The Atari DQN train/eval driver of tf_agents

    A shallow embedding of [TrainEval] from
    [tf_agents/agents/dqn/examples/train_eval_atari.py]: the episode
    driver ([_run_episode], [_collect_step], [_store_to_rb], [_observe]),
    the initial collection ([_initial_collect]) and the phase loops of
    [run].

    Python floats are modelled by the rationals [Q] (rewards, discounts and
    the quantities obtained by the true division [/ ATARI_FRAME_SKIP]),
    Python integers by [Z].  The environment, the policies, the learner and
    the [EnvironmentSteps] metric are collaborators of the driver and are
    gathered in the record [Collaborators]; the stateful code runs in a
    small state-and-exception monad over the record [World], with fuel for
    the loops.  Besides the state the code reads, [World] keeps the trace of
    the calls made to the collaborators; the driver never reads it.
    Logging, timers, summaries and checkpointing do not influence the
    control flow and are left out. *)

From Stdlib Require Import ZArith QArith Qround List Bool Lia Lqa.
Import ListNotations.

Open Scope Z_scope.

(** AtariPreprocessing runs 4 frames at a time. *)
Definition ATARI_FRAME_SKIP : Z := 4.

(* ================================================================== *)
(** ** Data model *)

(** [tf_agents.environments.time_step] *)
Module ts.

Inductive StepType : Set := FIRST | MID | LAST.

Definition StepType_eqb (a b : StepType) : bool :=
  match a, b with
  | FIRST, FIRST | MID, MID | LAST, LAST => true
  | _, _ => false
  end.

Record TimeStep (Obs : Type) : Type := mk
  { step_type : StepType;
    reward : Q;
    discount : Q;
    observation : Obs }.

Arguments mk {Obs} _ _ _ _.
Arguments step_type {Obs} _.
Arguments reward {Obs} _.
Arguments discount {Obs} _.
Arguments observation {Obs} _.

Definition is_last {Obs} (t : TimeStep Obs) : bool :=
  StepType_eqb (step_type t) LAST.

(** Modelled from the spec: [ts.restart] is not part of the sources at
    hand.  Section 3: FIRST steps always have reward=0, discount=1 by
    convention. *)
Definition restart {Obs} (obs : Obs) : TimeStep Obs :=
  mk FIRST 0%Q 1%Q obs.

(** Modelled from the spec: [ts.transition] is not part of the sources
    at hand.  It builds the synthetic MID step of section 4.3 (5); the
    call sites give no discount, a MID step is not terminal and carries
    discount 1. *)
Definition transition {Obs} (obs : Obs) (r : Q) : TimeStep Obs :=
  mk MID r 1%Q obs.

End ts.

(** [tf_agents.policies.policy_step] *)
Module policy_step.

Record PolicyStep (Act Info : Type) : Type := mk
  { action : Act;
    info : Info }.

Arguments mk {Act Info} _ _.
Arguments action {Act Info} _.
Arguments info {Act Info} _.

End policy_step.

(** [tf_agents.environments.trajectory] *)
Module trajectory.

Record Trajectory (Obs Act Info : Type) : Type := mk
  { step_type : ts.StepType;
    observation : Obs;
    action : Act;
    policy_info : Info;
    next_step_type : ts.StepType;
    reward : Q;
    discount : Q }.

Arguments mk {Obs Act Info} _ _ _ _ _ _ _.
Arguments step_type {Obs Act Info} _.
Arguments observation {Obs Act Info} _.
Arguments action {Obs Act Info} _.
Arguments policy_info {Obs Act Info} _.
Arguments next_step_type {Obs Act Info} _.
Arguments reward {Obs Act Info} _.
Arguments discount {Obs Act Info} _.

(** Modelled from the spec: [trajectory.from_transition] is not part of
    the sources at hand.  Section 3: a transition is one edge between
    two timesteps with the action taken, constructed from (prev
    timestep, action, next timestep).  The observation and [step_type]
    are those of the timestep acted upon, [next_step_type], the reward
    and the discount those of the timestep the environment answered
    with: [_collect_step] overrides the discount of a transition whose
    next timestep is LAST, and hands [next_time_step.reward] to the
    synthetic MID step the metrics are to see. *)
Definition from_transition {Obs Act Info}
    (time_step : ts.TimeStep Obs)
    (action_step : policy_step.PolicyStep Act Info)
    (next_time_step : ts.TimeStep Obs) : Trajectory Obs Act Info :=
  mk (ts.step_type time_step)
     (ts.observation time_step)
     (policy_step.action action_step)
     (policy_step.info action_step)
     (ts.step_type next_time_step)
     (ts.reward next_time_step)
     (ts.discount next_time_step).

(** [traj._replace(discount=d)] *)
Definition replace_discount {Obs Act Info}
    (t : Trajectory Obs Act Info) (d : Q) : Trajectory Obs Act Info :=
  mk (step_type t) (observation t) (action t) (policy_info t)
     (next_step_type t) (reward t) d.

(** [traj._replace(reward=r)] *)
Definition replace_reward {Obs Act Info}
    (t : Trajectory Obs Act Info) (r : Q) : Trajectory Obs Act Info :=
  mk (step_type t) (observation t) (action t) (policy_info t)
     (next_step_type t) r (discount t).

End trajectory.

(** [np.clip(x, lo, hi)], that is [minimum(hi, maximum(x, lo))]. *)
Definition np_maximum (a b : Q) : Q := if Qle_bool a b then b else a.
Definition np_minimum (a b : Q) : Q := if Qle_bool a b then a else b.
Definition np_clip (x lo hi : Q) : Q := np_minimum hi (np_maximum x lo).

(** [x % p == 0] for a float [p]: the remainder is
    [x - floor(x / p) * p].  For [p = 0] numpy answers nan, which is not
    equal to 0. *)
Definition float_mod (x p : Q) : Q :=
  (x - inject_Z (Qfloor (x / p)) * p)%Q.

Definition mod_is_zero (x : Z) (p : Q) : bool :=
  if Qeq_bool p 0 then false else Qeq_bool (float_mod (inject_Z x) p) 0.

(** [tf_agents.replay_buffers.py_hashed_replay_buffer] *)
Module replay_buffer.

(** Modelled from the spec: the replay buffer is not part of the sources
    at hand.  Section 4.1: the capacity is fixed at construction;
    [add] inserts at the next ring slot, overwriting the oldest entry
    once at capacity, and the size counter is capped at capacity.  The
    entries are kept oldest first. *)
Record ReplayBuffer (T : Type) : Type := mk
  { capacity : nat;
    items : list T }.

Arguments mk {T} _ _.
Arguments capacity {T} _.
Arguments items {T} _.

Definition size {T} (rb : ReplayBuffer T) : Z :=
  Z.of_nat (length (items rb)).

Definition add_batch {T} (rb : ReplayBuffer T) (x : T) : ReplayBuffer T :=
  let l := items rb ++ [x] in
  mk (capacity rb) (skipn (length l - capacity rb) l).

End replay_buffer.

(** The metric objects the driver hands to [_observe]. *)
Inductive Metric : Set :=
  | NumberOfEpisodes
  | EnvironmentSteps
  | AverageReturnMetric
  | AverageEpisodeLengthMetric
  | TrainPhaseAverageReturn
  | TrainPhaseAverageEpisodeLength
  | EvalPhaseAverageReturn
  | EvalPhaseAverageEpisodeLength.

Definition Metric_eqb (a b : Metric) : bool :=
  match a, b with
  | NumberOfEpisodes, NumberOfEpisodes
  | EnvironmentSteps, EnvironmentSteps
  | AverageReturnMetric, AverageReturnMetric
  | AverageEpisodeLengthMetric, AverageEpisodeLengthMetric
  | TrainPhaseAverageReturn, TrainPhaseAverageReturn
  | TrainPhaseAverageEpisodeLength, TrainPhaseAverageEpisodeLength
  | EvalPhaseAverageReturn, EvalPhaseAverageReturn
  | EvalPhaseAverageEpisodeLength, EvalPhaseAverageEpisodeLength => true
  | _, _ => false
  end.

(** The policies used by the driver. *)
Inductive Policy : Set :=
  | random_policy      (* RandomPyPolicy of [_initial_collect] *)
  | collect_policy     (* [self._collect_policy] *)
  | eval_policy.       (* [self._eval_policy] *)

(** The constructor arguments the control flow depends on, in ALE
  frames as they are passed to [__init__]. *)
Record Config : Set := mkConfig
  { num_iterations : Z;
    initial_collect_steps : Z;
    epsilon_greedy : Q;
    epsilon_decay_period : Z;
    train_steps_per_iteration : Z;
    update_period : Z;
    do_eval : bool;
    eval_steps_per_iteration : Z }.

(** The attributes [__init__] derives with true division (lines 190-196). *)
Definition _update_period (c : Config) : Q :=
  (inject_Z (update_period c) / inject_Z ATARI_FRAME_SKIP)%Q.
Definition _train_steps_per_iteration (c : Config) : Q :=
  (inject_Z (train_steps_per_iteration c) / inject_Z ATARI_FRAME_SKIP)%Q.
Definition _eval_steps_per_iteration (c : Config) : Q :=
  (inject_Z (eval_steps_per_iteration c) / inject_Z ATARI_FRAME_SKIP)%Q.
Definition _initial_collect_steps (c : Config) : Q :=
  (inject_Z (initial_collect_steps c) / inject_Z ATARI_FRAME_SKIP)%Q.




(* ================================================================== *)
(** ** The collaborators of the driver *)

(** The interfaces of section 6 the driver is written against.  The
    environment: the state of the emulator, [reset] and [step], which may
    raise, and the out-of-band [game_over] flag.  The learner: the state of
    the TensorFlow session (weights, random generator, global step), the
    action of a policy and the train operation, which reads the replay
    buffer.  The metric [py_metrics.EnvironmentSteps]: its update on a
    trajectory. *)
Record Collaborators (Obs Act Info : Type) : Type := mkCollaborators
    { Env : Type;
      Exn : Type;
      env_reset : Env -> Exn + (ts.TimeStep Obs * Env);
      env_step : Env -> Act -> Exn + (ts.TimeStep Obs * Env);
      env_game_over : Env -> bool;
      Agent : Type;
      policy_action :
        Policy -> Agent -> ts.TimeStep Obs
        -> policy_step.PolicyStep Act Info * Agent;
      train_step_call :
        Agent -> replay_buffer.ReplayBuffer (trajectory.Trajectory Obs Act Info)
        -> Agent;
      environment_steps_call : Z -> trajectory.Trajectory Obs Act Info -> Z }.

Arguments mkCollaborators {Obs Act Info} _ _ _ _ _ _ _ _ _.
Arguments Env {Obs Act Info} _.
Arguments Exn {Obs Act Info} _.
Arguments env_reset {Obs Act Info} _ _.
Arguments env_step {Obs Act Info} _ _ _.
Arguments env_game_over {Obs Act Info} _ _.
Arguments Agent {Obs Act Info} _.
Arguments policy_action {Obs Act Info} _ _ _ _.
Arguments train_step_call {Obs Act Info} _ _ _.
Arguments environment_steps_call {Obs Act Info} _ _ _.

(* ================================================================== *)
(** ** The driver *)

Section TrainEval.

Context {Obs Act Info : Type}.
Variable C : Collaborators Obs Act Info.
Variable cfg : Config.

Definition TimeStep : Type := ts.TimeStep Obs.
Definition PolicyStep : Type := policy_step.PolicyStep Act Info.
Definition Trajectory : Type := trajectory.Trajectory Obs Act Info.
Definition ReplayBuffer : Type := replay_buffer.ReplayBuffer Trajectory.

(** The calls made to the collaborators, in the order they are made. *)
Inductive Event : Type :=
| EvCollectStep                               (* [_collect_step] entered *)
| EvReset                                     (* [self._env.reset()] *)
| EvStep (a : Act)                            (* [self._env.step(a)] *)
| EvAddBatch (t : Trajectory)                 (* [replay_buffer.add_batch] *)
| EvObserve (m : Metric) (t : Trajectory)     (* [observer(traj)] *)
| EvTrainStep.                                (* [self._train_step_call()] *)

Record World : Type := mkWorld
  { w_env : Env C;
    w_agent : Agent C;
    w_replay_buffer : ReplayBuffer;
    w_env_steps_metric : Z;
    w_iteration_metric : Z;
    w_trace : list Event }.

Definition log (e : Event) (w : World) : World :=
  mkWorld (w_env w) (w_agent w) (w_replay_buffer w)
          (w_env_steps_metric w) (w_iteration_metric w) (w_trace w ++ [e]).

Definition set_env (e : Env C) (w : World) : World :=
  mkWorld e (w_agent w) (w_replay_buffer w)
          (w_env_steps_metric w) (w_iteration_metric w) (w_trace w).

Definition set_agent (a : Agent C) (w : World) : World :=
  mkWorld (w_env w) a (w_replay_buffer w)
          (w_env_steps_metric w) (w_iteration_metric w) (w_trace w).

Definition set_replay_buffer (rb : ReplayBuffer) (w : World) : World :=
  mkWorld (w_env w) (w_agent w) rb
          (w_env_steps_metric w) (w_iteration_metric w) (w_trace w).

Definition set_env_steps_metric (n : Z) (w : World) : World :=
  mkWorld (w_env w) (w_agent w) (w_replay_buffer w)
          n (w_iteration_metric w) (w_trace w).

Definition set_iteration_metric (n : Z) (w : World) : World :=
  mkWorld (w_env w) (w_agent w) (w_replay_buffer w)
          (w_env_steps_metric w) n (w_trace w).

(** *** The monad: state, exceptions, and fuel for the loops *)

Inductive Outcome (A : Type) : Type :=
| Returns (a : A)
| Raises (e : Exn C)
| OutOfFuel.

Arguments Returns {A} _.
Arguments Raises {A} _.
Arguments OutOfFuel {A}.

Definition M (A : Type) : Type := World -> Outcome A * World.

Definition ret {A} (a : A) : M A := fun w => (Returns a, w).

Definition bind {A B} (m : M A) (k : A -> M B) : M B :=
  fun w =>
    match m w with
    | (Returns a, w') => k a w'
    | (Raises e, w') => (Raises e, w')
    | (OutOfFuel, w') => (OutOfFuel, w')
    end.

Definition out_of_fuel {A} : M A := fun w => (OutOfFuel, w).

Notation "x <- m ;; k" := (bind m (fun x => k))
  (at level 61, m at next level, right associativity).
Notation "m ;;; k" := (bind m (fun _ => k))
  (at level 61, right associativity).

(** *** Calls to the collaborators *)

Definition emit (e : Event) : M unit := fun w => (Returns tt, log e w).

Definition reset : M TimeStep :=
  emit EvReset ;;;
  fun w =>
    match env_reset C (w_env w) with
    | inl e => (Raises e, w)
    | inr (t, env') => (Returns t, set_env env' w)
    end.

Definition step (a : Act) : M TimeStep :=
  emit (EvStep a) ;;;
  fun w =>
    match env_step C (w_env w) a with
    | inl e => (Raises e, w)
    | inr (t, env') => (Returns t, set_env env' w)
    end.

(** [self._env.envs[0].game_over] (lines 359-360) *)
Definition game_over : M bool :=
  fun w => (Returns (env_game_over C (w_env w)), w).

Definition action (policy : Policy) (time_step : TimeStep) : M PolicyStep :=
  fun w =>
    let (a, ag) := policy_action C policy (w_agent w) time_step in
    (Returns a, set_agent ag w).

Definition add_batch (traj : Trajectory) : M unit :=
  emit (EvAddBatch traj) ;;;
  fun w =>
    (Returns tt,
     set_replay_buffer (replay_buffer.add_batch (w_replay_buffer w) traj) w).

Definition replay_buffer_size : M Z :=
  fun w => (Returns (replay_buffer.size (w_replay_buffer w)), w).

(** [observer(traj)]: [EnvironmentSteps] is the one metric whose result
    the driver reads back. *)
Definition observer (m : Metric) (traj : Trajectory) : M unit :=
  emit (EvObserve m traj) ;;;
  fun w =>
    (Returns tt,
     if Metric_eqb m EnvironmentSteps
     then set_env_steps_metric
            (environment_steps_call C (w_env_steps_metric w) traj) w
     else w).

Definition env_steps_metric_result : M Z :=
  fun w => (Returns (w_env_steps_metric w), w).

Definition iteration_metric_result : M Z :=
  fun w => (Returns (w_iteration_metric w), w).

(** [self._iteration_metric()] *)
Definition iteration_metric_call : M unit :=
  fun w => (Returns tt, set_iteration_metric (w_iteration_metric w + 1) w).

Definition _train_step_call : M unit :=
  emit EvTrainStep ;;;
  fun w =>
    (Returns tt,
     set_agent (train_step_call C (w_agent w) (w_replay_buffer w)) w).

Definition when (b : bool) (m : M unit) : M unit :=
  if b then m else ret tt.

(** *** [TrainEval] *)

Definition _step_metrics : list Metric :=
  [NumberOfEpisodes; EnvironmentSteps].
Definition _train_metrics : list Metric :=
  _step_metrics ++ [AverageReturnMetric; AverageEpisodeLengthMetric].
Definition _train_phase_metrics : list Metric :=
  [TrainPhaseAverageReturn; TrainPhaseAverageEpisodeLength].
Definition _eval_metrics : list Metric :=
  [EvalPhaseAverageReturn; EvalPhaseAverageEpisodeLength].

(** [_observe] (lines 481-484) *)
Fixpoint _observe (metric_observers : list Metric) (traj : Trajectory)
    : M unit :=
  match metric_observers with
  | [] => ret tt
  | m :: rest => observer m traj ;;; _observe rest traj
  end.

(** [_store_to_rb] (lines 486-490) *)
Definition _store_to_rb (traj : Trajectory) : M unit :=
  let traj :=
    trajectory.replace_reward traj
      (np_clip (trajectory.reward traj) (-1) 1) in
  add_batch traj.

(** The test [next_time_step.is_last() and not self.game_over()]
    (lines 500 and 514). *)
Definition life_lost (next_time_step : TimeStep) : M bool :=
  if ts.is_last next_time_step
  then (go <- game_over ;; ret (negb go))
  else ret false.

(** [_collect_step] (lines 492-539) *)
Definition _collect_step (time_step : TimeStep) (policy : Policy)
    (metric_observers : list Metric) (train : bool) : M TimeStep :=
  emit EvCollectStep ;;;
  action_step <- action policy time_step ;;
  next_time_step <- step (policy_step.action action_step) ;;
  let traj :=
    trajectory.from_transition time_step action_step next_time_step in
  b <- life_lost next_time_step ;;
  let traj := if b then trajectory.replace_discount traj 1 else traj in
  when train (_store_to_rb traj) ;;;
  b <- life_lost next_time_step ;;
  r <- (if b then
          (* Update metrics as if this is a mid-episode step. *)
          let next_time_step :=
            ts.transition (ts.observation next_time_step)
                          (ts.reward next_time_step) in
          _observe metric_observers
            (trajectory.from_transition time_step action_step
                                        next_time_step) ;;;
          (* Produce the next step as if this is the first step of an
             episode and store to RB as such. *)
          let reward := ts.reward time_step in
          let time_step := ts.restart (ts.observation next_time_step) in
          action_step <- action policy time_step ;;
          next_time_step <- step (policy_step.action action_step) ;;
          when train
            (_store_to_rb
               (trajectory.from_transition time_step action_step
                                           next_time_step)) ;;;
          (* Update metrics as if this is a mid-episode step. *)
          let time_step :=
            ts.transition (ts.observation time_step) reward in
          ret (trajectory.from_transition time_step action_step
                                          next_time_step,
               next_time_step)
        else ret (traj, next_time_step)) ;;
  _observe metric_observers (fst r) ;;;
  ret (snd r).

(** The loop of [_run_episode] (lines 461-477); [env_steps] is the local
    counter. *)
Fixpoint _run_episode_loop (fuel : nat) (metric_observers : list Metric)
    (train : bool) (time_step : TimeStep) (env_steps : Z) : M Z :=
  match fuel with
  | O => out_of_fuel
  | S fuel' =>
    time_step <-
      _collect_step time_step collect_policy metric_observers train ;;
    let env_steps := env_steps + 1 in
    go <- game_over ;;
    if go then ret env_steps
    else
      n <- env_steps_metric_result ;;
      when (train && mod_is_zero n (_update_period cfg))
           _train_step_call ;;;
      _run_episode_loop fuel' metric_observers train time_step env_steps
  end.

(** [_run_episode] (lines 457-479) *)
Definition _run_episode (fuel : nat) (metric_observers : list Metric)
    (train : bool) : M Z :=
  time_step <- reset ;;
  _run_episode_loop fuel metric_observers train time_step 0.

(** The loop of [_initial_collect] (lines 447-454). *)
Fixpoint _initial_collect_loop (fuel : nat) (time_step : TimeStep)
    : M unit :=
  match fuel with
  | O => out_of_fuel
  | S fuel' =>
    size <- replay_buffer_size ;;
    if Qle_bool (_initial_collect_steps cfg) (inject_Z size) then ret tt
    else
      go <- game_over ;;
      time_step <- (if go then reset else ret time_step) ;;
      action_step <- action random_policy time_step ;;
      next_time_step <- step (policy_step.action action_step) ;;
      add_batch (trajectory.from_transition time_step action_step
                                            next_time_step) ;;;
      _initial_collect_loop fuel' next_time_step
  end.

(** [_initial_collect] (lines 440-455) *)
Definition _initial_collect (fuel : nat) : M unit :=
  time_step <- reset ;;
  _initial_collect_loop fuel time_step.

(** The train phase of [run] (lines 374-379):
    [while env_steps < self._train_steps_per_iteration]. *)
Fixpoint train_phase_loop (fuel : nat) (env_steps : Z) : M Z :=
  match fuel with
  | O => out_of_fuel
  | S fuel' =>
    if Qle_bool (_train_steps_per_iteration cfg) (inject_Z env_steps)
    then ret env_steps
    else
      n <- _run_episode fuel' (_train_metrics ++ _train_phase_metrics)
                        true ;;
      train_phase_loop fuel' (env_steps + n)
  end.

Definition train_phase (fuel : nat) : M Z := train_phase_loop fuel 0.

(** The eval phase of [run] (lines 389-394). *)
Fixpoint eval_phase_loop (fuel : nat) (env_steps : Z) : M Z :=
  match fuel with
  | O => out_of_fuel
  | S fuel' =>
    if Qle_bool (_eval_steps_per_iteration cfg) (inject_Z env_steps)
    then ret env_steps
    else
      n <- _run_episode fuel' _eval_metrics false ;;
      eval_phase_loop fuel' (env_steps + n)
  end.

Definition eval_phase (fuel : nat) : M Z := eval_phase_loop fuel 0.

(** The loop of [run] (lines 372-408). *)
Fixpoint run_loop (fuel : nat) : M unit :=
  match fuel with
  | O => out_of_fuel
  | S fuel' =>
    i <- iteration_metric_result ;;
    if num_iterations cfg <=? i then ret tt
    else
      train_phase fuel' ;;;
      when (do_eval cfg) (eval_phase fuel' ;;; ret tt) ;;;
      iteration_metric_call ;;;
      run_loop fuel'
  end.

(** [run] (lines 362-408) *)
Definition run (fuel : nat) : M unit :=
  _initial_collect fuel ;;;
  run_loop fuel.

(** *** Reading the trace *)

Fixpoint added (tr : list Event) : list Trajectory :=
  match tr with
  | [] => []
  | EvAddBatch t :: rest => t :: added rest
  | _ :: rest => added rest
  end.

Fixpoint observer_calls (tr : list Event) : list (Metric * Trajectory) :=
  match tr with
  | [] => []
  | EvObserve m t :: rest => (m, t) :: observer_calls rest
  | _ :: rest => observer_calls rest
  end.

Definition is_train_step (e : Event) : bool :=
  match e with EvTrainStep => true | _ => false end.
Definition is_env_step (e : Event) : bool :=
  match e with EvStep _ => true | _ => false end.
Definition is_reset (e : Event) : bool :=
  match e with EvReset => true | _ => false end.
Definition is_collect_step (e : Event) : bool :=
  match e with EvCollectStep => true | _ => false end.
Definition is_add_batch (e : Event) : bool :=
  match e with EvAddBatch _ => true | _ => false end.

Definition count (p : Event -> bool) (tr : list Event) : Z :=
  Z.of_nat (length (filter p tr)).

End TrainEval.

Arguments Returns {Obs Act Info C A} _.
Arguments Raises {Obs Act Info C A} _.
Arguments OutOfFuel {Obs Act Info C A}.
Arguments EvCollectStep {Obs Act Info}.
Arguments EvReset {Obs Act Info}.
Arguments EvStep {Obs Act Info} _.
Arguments EvAddBatch {Obs Act Info} _.
Arguments EvObserve {Obs Act Info} _ _.
Arguments EvTrainStep {Obs Act Info}.

(* ================================================================== *)
(** ** Deterministic stub collaborators *)

(** Modelled from the spec: [py_metrics.EnvironmentSteps] is not part of
    the sources at hand.  Section 3: the result of a metric is the defined
    statistic, here a count, over exactly the transitions observed since
    the last reset. *)
Definition count_transitions {Obs Act Info}
    (n : Z) (_ : trajectory.Trajectory Obs Act Info) : Z := n + 1.

Inductive StubExn : Set := EmulatorCrashed.

(** The script of a stub emulator: every episode has [episode_length]
    steps, the last of which is LAST with the game over; step
    [life_loss_at] of an episode, when there is one, is LAST with the game
    not over; every step pays [step_reward]; the [crash_at]-th step of an
    episode, when there is one, raises. *)
Record Script : Set := mkScript
  { episode_length : nat;
    life_loss_at : option nat;
    step_reward : Q;
    crash_at : option nat;
    crash_on_reset : bool }.

Definition is_some_eqb (o : option nat) (n : nat) : bool :=
  match o with
  | Some m => Nat.eqb m n
  | None => false
  end.

(** The state of the stub emulator is the number of steps taken since the
    last reset; the observation shows it. *)
Definition stub_reset (s : Script) (_ : nat)
    : StubExn + (ts.TimeStep nat * nat) :=
  if crash_on_reset s then inl EmulatorCrashed
  else inr (ts.restart O, O).

Definition stub_step (s : Script) (c : nat) (_ : unit)
    : StubExn + (ts.TimeStep nat * nat) :=
  let c' := S c in
  if is_some_eqb (crash_at s) c' then inl EmulatorCrashed
  else if Nat.eqb c' (episode_length s) || is_some_eqb (life_loss_at s) c'
       then inr (ts.mk ts.LAST (step_reward s) 0%Q c', c')
       else inr (ts.mk ts.MID (step_reward s) 1%Q c', c').

Definition stub_game_over (s : Script) (c : nat) : bool :=
  Nat.leb (episode_length s) c.

Definition stub (s : Script) : Collaborators nat unit unit :=
  mkCollaborators
    nat StubExn (stub_reset s) (stub_step s) (stub_game_over s)
    unit (fun _ ag _ => (policy_step.mk tt tt, ag))
    (fun ag _ => ag)
    count_transitions.

(** A fresh world around the stub: nothing stored, nothing counted. *)
Definition stub_world (s : Script) (capacity : nat) : World (stub s) :=
  mkWorld (stub s) O tt (replay_buffer.mk capacity []) 0 0 [].

(** The world in which [c] steps of the running episode have been taken. *)
Definition stub_world_at (s : Script) (capacity : nat) (c : nat)
    : World (stub s) :=
  mkWorld (stub s) c tt (replay_buffer.mk capacity []) 0 0 [].

(** Episodes of fixed length 10, the game over at the end of each. *)
Definition fixed10 : Script := mkScript 10 None 1 None false.

(** Episodes of length 10 that signal LAST with the game not over on
    step 5. *)
Definition life_loss5 : Script := mkScript 10 (Some 5%nat) 1 None false.

(** One long episode of 21 steps. *)
Definition fixed21 : Script := mkScript 21 None 1 None false.

(** Episodes of length 10 whose every step pays a reward of 5. *)
Definition reward5 : Script := mkScript 10 None 5 None false.

(** An emulator that crashes on the third step of an episode. *)
Definition crash3 : Script := mkScript 10 None 1 (Some 3%nat) false.

(** An emulator that crashes on the step after the life loss of step 5. *)
Definition crash6 : Script := mkScript 10 (Some 5%nat) 1 (Some 6%nat) false.

(** An emulator whose reset raises. *)
Definition crash_reset : Script := mkScript 10 None 1 None true.

(** A configuration: the step budgets and periods in ALE frames. *)
Definition config (initial_collect_steps train_steps update_period
                   eval_steps : Z) : Config :=
  mkConfig 1 initial_collect_steps (1 # 100) 1000000
           train_steps update_period true eval_steps.

(* ================================================================== *)
(** ** Arithmetic of the helpers *)

Lemma np_maximum_lower (a b : Q) : (b <= np_maximum a b)%Q.
Proof.
  unfold np_maximum. destruct (Qle_bool a b) eqn:E.
  - apply Qle_refl.
  - apply Qlt_le_weak, Qnot_le_lt. intro H.
    apply Qle_bool_iff in H. congruence.
Qed.

Lemma np_minimum_upper (a b : Q) : (np_minimum a b <= a)%Q.
Proof.
  unfold np_minimum. destruct (Qle_bool a b) eqn:E.
  - apply Qle_refl.
  - apply Qlt_le_weak, Qnot_le_lt. intro H.
    apply Qle_bool_iff in H. congruence.
Qed.

Lemma np_clip_bounds (x lo hi : Q) :
  (lo <= hi)%Q -> (lo <= np_clip x lo hi <= hi)%Q.
Proof.
  intro Hlh. unfold np_clip. split.
  - unfold np_minimum at 1.
    destruct (Qle_bool hi (np_maximum x lo)); [exact Hlh|].
    apply np_maximum_lower.
  - apply np_minimum_upper.
Qed.

Lemma Qle_bool_refl (a : Q) : Qle_bool a a = true.
Proof. apply Qle_bool_iff, Qle_refl. Qed.

Lemma np_clip_idempotent (x lo hi : Q) :
  np_clip (np_clip x lo hi) lo hi = np_clip x lo hi.
Proof.
  unfold np_clip, np_maximum, np_minimum.
  destruct (Qle_bool x lo) eqn:E1.
  - destruct (Qle_bool hi lo) eqn:E2.
    + rewrite E2, E2. reflexivity.
    + rewrite Qle_bool_refl, E2. reflexivity.
  - destruct (Qle_bool hi x) eqn:E2.
    + destruct (Qle_bool hi lo) eqn:E3.
      * rewrite E3. reflexivity.
      * rewrite Qle_bool_refl. reflexivity.
    + rewrite E1, E2. reflexivity.
Qed.

Lemma mod_is_zero_Qeq (n : Z) (p q : Q) :
  (p == q)%Q -> mod_is_zero n p = mod_is_zero n q.
Proof.
  intro H. unfold mod_is_zero.
  assert (E1 : Qeq_bool p 0 = Qeq_bool q 0) by (rewrite H; reflexivity).
  assert (F : Qfloor (inject_Z n / p) = Qfloor (inject_Z n / q))
    by (rewrite H; reflexivity).
  assert (E2 : Qeq_bool (float_mod (inject_Z n) p) 0
               = Qeq_bool (float_mod (inject_Z n) q) 0).
  { unfold float_mod. rewrite F. apply eq_true_iff_eq.
    rewrite !Qeq_bool_iff. rewrite H. reflexivity. }
  rewrite E1, E2. reflexivity.
Qed.

(** The remainder test of [_run_episode] on whole periods:
    [n % p == 0] holds exactly for the multiples of [p]. *)
Lemma mod_is_zero_whole (n p : Z) :
  0 < p -> mod_is_zero n (inject_Z p) = (n mod p =? 0).
Proof.
  intro Hp. unfold mod_is_zero.
  assert (Hp0 : Qeq_bool (inject_Z p) 0 = false).
  { destruct (Qeq_bool (inject_Z p) 0) eqn:E; [|reflexivity].
    apply Qeq_bool_iff in E. unfold Qeq in E. simpl in E. lia. }
  rewrite Hp0. unfold float_mod.
  assert (Hfl : Qfloor (inject_Z n / inject_Z p) = n / p).
  { unfold Qfloor, Qdiv, Qmult, Qinv, inject_Z. simpl.
    destruct p as [|p'|p']; try lia. simpl.
    rewrite Z.mul_1_r. reflexivity. }
  rewrite Hfl.
  destruct (n mod p =? 0) eqn:E.
  - apply Z.eqb_eq in E. apply Qeq_bool_iff.
    unfold Qeq, Qminus, Qplus, Qopp, Qmult, inject_Z. simpl.
    pose proof (Z.div_mod n p ltac:(lia)). nia.
  - apply Z.eqb_neq in E.
    apply not_true_is_false. intro E'.
    apply Qeq_bool_iff in E'.
    unfold Qeq, Qminus, Qplus, Qopp, Qmult, inject_Z in E'. simpl in E'.
    pose proof (Z.div_mod n p ltac:(lia)). nia.
Qed.

(* ================================================================== *)
(** ** Reasoning about the driver *)

Section Facts.

Context {Obs Act Info : Type}.
Variable C : Collaborators Obs Act Info.
Variable cfg : Config.

Local Abbreviation World := (World C).
Local Abbreviation M := (M C).
Local Abbreviation Event := (@Event Obs Act Info).
Local Abbreviation TimeStep := (@TimeStep Obs).
Local Abbreviation PolicyStep := (@PolicyStep Act Info).
Local Abbreviation Trajectory := (@Trajectory Obs Act Info).

(** *** The monad *)

Lemma bind_returns {A B} (m : M A) (k : A -> M B) w a w' :
  m w = (Returns a, w') -> bind C m k w = k a w'.
Proof. intro H. unfold bind. rewrite H. reflexivity. Qed.

Lemma bind_raises {A B} (m : M A) (k : A -> M B) w e w' :
  m w = (Raises e, w') -> bind C m k w = (Raises e, w').
Proof. intro H. unfold bind. rewrite H. reflexivity. Qed.

Lemma bind_out_of_fuel {A B} (m : M A) (k : A -> M B) w w' :
  m w = (OutOfFuel, w') -> bind C m k w = (OutOfFuel, w').
Proof. intro H. unfold bind. rewrite H. reflexivity. Qed.

(** What a bind that returns went through. *)
Lemma bind_returns_inv {A B} (m : M A) (k : A -> M B) w b w'' :
  bind C m k w = (Returns b, w'') ->
  exists a w', m w = (Returns a, w') /\ k a w' = (Returns b, w'').
Proof.
  unfold bind. destruct (m w) as [[a|e|] w'] eqn:E; intro H.
  - exists a, w'. split; [reflexivity | exact H].
  - discriminate.
  - discriminate.
Qed.

(** *** Quantities a computation leaves alone *)

Definition keeps {X A} (f : World -> X) (m : M A) : Prop :=
  forall w, f (snd (m w)) = f w.

Lemma keeps_ret {X A} (f : World -> X) (a : A) : keeps f (ret C a).
Proof. intro w. reflexivity. Qed.

Lemma keeps_out_of_fuel {X A} (f : World -> X) :
  keeps f (out_of_fuel C (A := A)).
Proof. intro w. reflexivity. Qed.

Lemma keeps_bind {X A B} (f : World -> X) (m : M A) (k : A -> M B) :
  keeps f m -> (forall a, keeps f (k a)) -> keeps f (bind C m k).
Proof.
  intros Hm Hk w. unfold bind. specialize (Hm w).
  destruct (m w) as [[a|e|] w']; simpl in *.
  - rewrite Hk. exact Hm.
  - exact Hm.
  - exact Hm.
Qed.

Lemma keeps_when {X} (f : World -> X) (b : bool) (m : M unit) :
  (b = true -> keeps f m) -> keeps f (when C b m).
Proof.
  intro H. destruct b; simpl.
  - apply H. reflexivity.
  - apply keeps_ret.
Qed.

(** The events of the trace that satisfy [p]. *)
Definition traced (p : Event -> bool) (w : World) : list Event :=
  filter p (w_trace C w).

Lemma traced_log p e w :
  traced p (log C e w) = traced p w ++ (if p e then [e] else []).
Proof. unfold traced, log. simpl. rewrite filter_app. reflexivity. Qed.

Lemma keeps_emit_traced p e : p e = false -> keeps (traced p) (emit C e).
Proof.
  intros H w. unfold emit. simpl. rewrite traced_log, H.
  apply app_nil_r.
Qed.

Lemma keeps_emit_replay_buffer e : keeps (w_replay_buffer C) (emit C e).
Proof. intro w. reflexivity. Qed.

(** The calls that touch neither the trace nor the buffer. *)
Lemma keeps_game_over {X} (f : World -> X) : keeps f (game_over C).
Proof. intro w. reflexivity. Qed.

Lemma keeps_env_steps_metric_result {X} (f : World -> X) :
  keeps f (env_steps_metric_result C).
Proof. intro w. reflexivity. Qed.

Lemma keeps_iteration_metric_result {X} (f : World -> X) :
  keeps f (iteration_metric_result C).
Proof. intro w. reflexivity. Qed.

Lemma keeps_replay_buffer_size {X} (f : World -> X) :
  keeps f (replay_buffer_size C).
Proof. intro w. reflexivity. Qed.

Lemma keeps_life_lost {X} (f : World -> X) t : keeps f (life_lost C t).
Proof.
  unfold life_lost. destruct (ts.is_last t).
  - apply keeps_bind; [apply keeps_game_over | intro; apply keeps_ret].
  - apply keeps_ret.
Qed.

(** A quantity that only depends on the trace, or only on the buffer. *)
Definition of_trace {X} (f : World -> X) : Prop :=
  forall w w', w_trace C w = w_trace C w' -> f w = f w'.

Definition of_replay_buffer {X} (f : World -> X) : Prop :=
  forall w w', w_replay_buffer C w = w_replay_buffer C w' -> f w = f w'.

Lemma of_trace_traced p : of_trace (traced p).
Proof. intros w w' H. unfold traced. rewrite H. reflexivity. Qed.

Lemma of_replay_buffer_id : of_replay_buffer (w_replay_buffer C).
Proof. intros w w' H. exact H. Qed.

Section KeepsPrimitives.

Context {X : Type} (f : World -> X).
Hypothesis f_local : of_trace f \/ of_replay_buffer f.

Lemma f_same w w' :
  w_trace C w = w_trace C w' ->
  w_replay_buffer C w = w_replay_buffer C w' -> f w = f w'.
Proof. intros Ht Hr. destruct f_local as [H|H]; apply H; assumption. Qed.

Lemma keeps_action policy t : keeps f (action C policy t).
Proof.
  intro w. unfold action.
  destruct (policy_action C policy (w_agent C w) t) as [a ag].
  apply f_same; reflexivity.
Qed.

Lemma keeps_iteration_metric_call : keeps f (iteration_metric_call C).
Proof. intro w. apply f_same; reflexivity. Qed.

Lemma keeps_env_call {A} (r : World -> Exn C + (A * Env C)) :
  keeps f (fun w => match r w with
                    | inl e => (Raises e, w)
                    | inr (t, env') => (Returns t, set_env C env' w)
                    end).
Proof.
  intro w. destruct (r w) as [e|[t env']]; simpl.
  - reflexivity.
  - apply f_same; reflexivity.
Qed.

Lemma keeps_reset : keeps f (emit C EvReset) -> keeps f (reset C).
Proof.
  intro H. unfold reset. apply keeps_bind; [exact H|].
  intros _. apply (keeps_env_call (fun w => env_reset C (w_env C w))).
Qed.

Lemma keeps_step a : keeps f (emit C (EvStep a)) -> keeps f (step C a).
Proof.
  intro H. unfold step. apply keeps_bind; [exact H|].
  intros _. apply (keeps_env_call (fun w => env_step C (w_env C w) a)).
Qed.

Lemma keeps_observer m t :
  keeps f (emit C (EvObserve m t)) -> keeps f (observer C m t).
Proof.
  intro H. unfold observer. apply keeps_bind; [exact H|].
  intros _ w. simpl. destruct (Metric_eqb m EnvironmentSteps).
  - apply f_same; reflexivity.
  - reflexivity.
Qed.

Lemma keeps_observe ms t :
  (forall m, keeps f (emit C (EvObserve m t))) -> keeps f (_observe C ms t).
Proof.
  intro H. induction ms as [|m ms IH]; simpl.
  - apply keeps_ret.
  - apply keeps_bind; [apply keeps_observer, H | intros _; exact IH].
Qed.

Lemma keeps_train_step_call :
  keeps f (emit C EvTrainStep) -> keeps f (_train_step_call C).
Proof.
  intro H. unfold _train_step_call. apply keeps_bind; [exact H|].
  intros _ w. apply f_same; reflexivity.
Qed.

End KeepsPrimitives.

(** *** [_observe] and [_store_to_rb] as functions of the world *)

Definition observer_w (m : Metric) (t : Trajectory) (w : World) : World :=
  snd (observer C m t w).

Lemma observer_returns m t w :
  observer C m t w = (Returns tt, observer_w m t w).
Proof. reflexivity. Qed.

Fixpoint observe_w (ms : list Metric) (t : Trajectory) (w : World)
    : World :=
  match ms with
  | [] => w
  | m :: rest => observe_w rest t (observer_w m t w)
  end.

Lemma observe_returns ms t w :
  _observe C ms t w = (Returns tt, observe_w ms t w).
Proof.
  revert w. induction ms as [|m ms IH]; intro w; simpl.
  - reflexivity.
  - rewrite (bind_returns _ _ _ _ _ (observer_returns m t w)). apply IH.
Qed.

Lemma observer_w_trace m t w :
  w_trace C (observer_w m t w) = w_trace C w ++ [EvObserve m t].
Proof.
  unfold observer_w, observer, bind, emit. simpl.
  destruct (Metric_eqb m EnvironmentSteps); reflexivity.
Qed.

Lemma observer_w_env m t w : w_env C (observer_w m t w) = w_env C w.
Proof.
  unfold observer_w, observer, bind, emit. simpl.
  destruct (Metric_eqb m EnvironmentSteps); reflexivity.
Qed.

Lemma observer_w_agent m t w : w_agent C (observer_w m t w) = w_agent C w.
Proof.
  unfold observer_w, observer, bind, emit. simpl.
  destruct (Metric_eqb m EnvironmentSteps); reflexivity.
Qed.

Lemma observer_w_replay_buffer m t w :
  w_replay_buffer C (observer_w m t w) = w_replay_buffer C w.
Proof.
  unfold observer_w, observer, bind, emit. simpl.
  destruct (Metric_eqb m EnvironmentSteps); reflexivity.
Qed.

Lemma observe_w_trace ms t w :
  w_trace C (observe_w ms t w)
  = w_trace C w ++ map (fun m => EvObserve m t) ms.
Proof.
  revert w. induction ms as [|m ms IH]; intro w; simpl.
  - symmetry. apply app_nil_r.
  - rewrite IH, observer_w_trace, <- app_assoc. reflexivity.
Qed.

Lemma observe_w_env ms t w : w_env C (observe_w ms t w) = w_env C w.
Proof.
  revert w. induction ms as [|m ms IH]; intro w; simpl.
  - reflexivity.
  - rewrite IH. apply observer_w_env.
Qed.

Lemma observe_w_agent ms t w : w_agent C (observe_w ms t w) = w_agent C w.
Proof.
  revert w. induction ms as [|m ms IH]; intro w; simpl.
  - reflexivity.
  - rewrite IH. apply observer_w_agent.
Qed.

Lemma observe_w_replay_buffer ms t w :
  w_replay_buffer C (observe_w ms t w) = w_replay_buffer C w.
Proof.
  revert w. induction ms as [|m ms IH]; intro w; simpl.
  - reflexivity.
  - rewrite IH. apply observer_w_replay_buffer.
Qed.

(** The trajectory [_store_to_rb] hands to the buffer. *)
Definition clipped (t : Trajectory) : Trajectory :=
  trajectory.replace_reward t (np_clip (trajectory.reward t) (-1) 1).

Definition store_w (t : Trajectory) (w : World) : World :=
  set_replay_buffer C
    (replay_buffer.add_batch (w_replay_buffer C w) (clipped t))
    (log C (EvAddBatch (clipped t)) w).

Lemma store_to_rb_returns t w :
  _store_to_rb C t w = (Returns tt, store_w t w).
Proof. reflexivity. Qed.

Definition store_when (train : bool) (t : Trajectory) (w : World) : World :=
  if train then store_w t w else w.

Lemma when_store_returns train t w :
  when C train (_store_to_rb C t) w = (Returns tt, store_when train t w).
Proof. destruct train; reflexivity. Qed.

(** *** The calls to the environment and to the policy *)

Lemma emit_returns e w : emit C e w = (Returns tt, log C e w).
Proof. reflexivity. Qed.

Lemma action_returns policy t w a ag :
  policy_action C policy (w_agent C w) t = (a, ag) ->
  action C policy t w = (Returns a, set_agent C ag w).
Proof. intro H. unfold action. rewrite H. reflexivity. Qed.

Lemma step_returns a w t env' :
  env_step C (w_env C w) a = inr (t, env') ->
  step C a w = (Returns t, set_env C env' (log C (EvStep a) w)).
Proof. intro H. unfold step, bind, emit. simpl. rewrite H. reflexivity. Qed.

Lemma step_raises a w e :
  env_step C (w_env C w) a = inl e ->
  step C a w = (Raises e, log C (EvStep a) w).
Proof. intro H. unfold step, bind, emit. simpl. rewrite H. reflexivity. Qed.

Lemma reset_returns w t env' :
  env_reset C (w_env C w) = inr (t, env') ->
  reset C w = (Returns t, set_env C env' (log C EvReset w)).
Proof. intro H. unfold reset, bind, emit. simpl. rewrite H. reflexivity. Qed.

Lemma reset_raises w e :
  env_reset C (w_env C w) = inl e ->
  reset C w = (Raises e, log C EvReset w).
Proof. intro H. unfold reset, bind, emit. simpl. rewrite H. reflexivity. Qed.

Lemma life_lost_returns t w :
  life_lost C t w
  = (Returns (ts.is_last t && negb (env_game_over C (w_env C w))), w).
Proof. unfold life_lost. destruct (ts.is_last t); reflexivity. Qed.

(** *** A collect step across a life loss *)

Section LifeLoss.

(** The collect step starts in [w] on [time_step]; the first step of the
    environment answers [next1], a LAST timestep with the game not over;
    the step taken from the synthetic restart answers [next2]. *)
Variables (w : World) (time_step : TimeStep) (policy : Policy).
Variable metric_observers : list Metric.
Variables (action_step1 : PolicyStep) (agent1 : Agent C).
Variables (next1 : TimeStep) (env1 : Env C).
Variables (action_step2 : PolicyStep) (agent2 : Agent C).
Variables (next2 : TimeStep) (env2 : Env C).

Hypothesis H_action1 :
  policy_action C policy (w_agent C w) time_step = (action_step1, agent1).
Hypothesis H_step1 :
  env_step C (w_env C w) (policy_step.action action_step1)
  = inr (next1, env1).
Hypothesis H_last : ts.is_last next1 = true.
Hypothesis H_not_over : env_game_over C env1 = false.
Hypothesis H_action2 :
  policy_action C policy agent1 (ts.restart (ts.observation next1))
  = (action_step2, agent2).
Hypothesis H_step2 :
  env_step C env1 (policy_step.action action_step2) = inr (next2, env2).

(** The boundary-crossing transition as the buffer sees it, before the
    clipping of [_store_to_rb]. *)
Definition boundary_traj : Trajectory :=
  trajectory.replace_discount
    (trajectory.from_transition time_step action_step1 next1) 1.

(** (a): the boundary-crossing transition as the metrics see it. *)
Definition metric_traj_a : Trajectory :=
  trajectory.from_transition time_step action_step1
    (ts.transition (ts.observation next1) (ts.reward next1)).

(** The transition from the synthetic restart as the buffer sees it,
    before the clipping of [_store_to_rb]. *)
Definition restart_traj : Trajectory :=
  trajectory.from_transition (ts.restart (ts.observation next1))
    action_step2 next2.

(** (b): the transition from the synthetic restart as the metrics see
    it. *)
Definition metric_traj_b : Trajectory :=
  trajectory.from_transition
    (ts.transition (ts.observation next1) (ts.reward time_step))
    action_step2 next2.

Definition life_loss_world (train : bool) : World :=
  observe_w metric_observers metric_traj_b
    (store_when train restart_traj
       (set_env C env2
          (log C (EvStep (policy_step.action action_step2))
             (set_agent C agent2
                (observe_w metric_observers metric_traj_a
                   (store_when train boundary_traj
                      (set_env C env1
                         (log C (EvStep (policy_step.action action_step1))
                            (set_agent C agent1
                               (log C EvCollectStep w)))))))))).

Lemma collect_step_life_loss (train : bool) :
  _collect_step C time_step policy metric_observers train w
  = (Returns next2, life_loss_world train).
Proof using H_action1 H_step1 H_last H_not_over H_action2 H_step2.
  unfold _collect_step.
  rewrite (bind_returns _ _ _ _ _ (emit_returns _ _)).
  erewrite bind_returns; [|apply action_returns; exact H_action1].
  erewrite bind_returns; [|apply step_returns; exact H_step1].
  rewrite (bind_returns _ _ _ _ _ (life_lost_returns _ _)).
  simpl w_env. rewrite H_last, H_not_over. simpl andb. cbv iota.
  rewrite (bind_returns _ _ _ _ _ (when_store_returns _ _ _)).
  rewrite (bind_returns _ _ _ _ _ (life_lost_returns _ _)).
  assert (E1 : forall b t w0,
             w_env C (store_when b t w0) = w_env C w0)
    by (intros [] ? ?; reflexivity).
  assert (A1 : forall b t w0,
             w_agent C (store_when b t w0) = w_agent C w0)
    by (intros [] ? ?; reflexivity).
  rewrite E1. simpl w_env. rewrite H_last, H_not_over. simpl andb.
  cbv iota.
  erewrite bind_returns; [|erewrite bind_returns;
    [|apply observe_returns]; erewrite bind_returns;
    [|apply action_returns; rewrite observe_w_agent, A1; exact H_action2];
    erewrite bind_returns;
    [|apply step_returns; simpl w_env;
      rewrite observe_w_env, E1; exact H_step2];
    rewrite (bind_returns _ _ _ _ _ (when_store_returns _ _ _));
    reflexivity].
  simpl fst. simpl snd.
  rewrite (bind_returns _ _ _ _ _ (observe_returns _ _ _)).
  reflexivity.
Qed.

Definition store_events (train : bool) (t : Trajectory) : list Event :=
  if train then [EvAddBatch (clipped t)] else [].

Lemma store_when_trace train t w0 :
  w_trace C (store_when train t w0) = w_trace C w0 ++ store_events train t.
Proof. destruct train; simpl; [reflexivity | symmetry; apply app_nil_r]. Qed.

Lemma store_when_env train t w0 :
  w_env C (store_when train t w0) = w_env C w0.
Proof. destruct train; reflexivity. Qed.

Lemma store_when_replay_buffer train t w0 :
  w_replay_buffer C (store_when train t w0)
  = if train
    then replay_buffer.add_batch (w_replay_buffer C w0) (clipped t)
    else w_replay_buffer C w0.
Proof. destruct train; reflexivity. Qed.

Lemma store_when_env_steps_metric train t w0 :
  w_env_steps_metric C (store_when train t w0) = w_env_steps_metric C w0.
Proof. destruct train; reflexivity. Qed.

Lemma life_loss_world_trace train :
  w_trace C (life_loss_world train)
  = w_trace C w
    ++ [EvCollectStep; EvStep (policy_step.action action_step1)]
    ++ store_events train boundary_traj
    ++ map (fun m => EvObserve m metric_traj_a) metric_observers
    ++ [EvStep (policy_step.action action_step2)]
    ++ store_events train restart_traj
    ++ map (fun m => EvObserve m metric_traj_b) metric_observers.
Proof.
  unfold life_loss_world.
  rewrite observe_w_trace, store_when_trace. simpl w_trace.
  rewrite observe_w_trace, store_when_trace. simpl w_trace.
  repeat rewrite <- app_assoc. reflexivity.
Qed.

Lemma life_loss_world_env train : w_env C (life_loss_world train) = env2.
Proof.
  unfold life_loss_world. rewrite observe_w_env, store_when_env.
  reflexivity.
Qed.

Lemma life_loss_world_replay_buffer train :
  w_replay_buffer C (life_loss_world train)
  = if train
    then replay_buffer.add_batch
           (replay_buffer.add_batch (w_replay_buffer C w)
                                    (clipped boundary_traj))
           (clipped restart_traj)
    else w_replay_buffer C w.
Proof.
  unfold life_loss_world.
  rewrite observe_w_replay_buffer, store_when_replay_buffer.
  simpl w_replay_buffer.
  rewrite observe_w_replay_buffer, store_when_replay_buffer.
  destruct train; reflexivity.
Qed.

End LifeLoss.

(** *** Frame facts for the driver *)

Lemma local_traced p :
  of_trace (traced p) \/ of_replay_buffer (traced p).
Proof. left. apply of_trace_traced. Qed.

Lemma local_replay_buffer :
  of_trace (w_replay_buffer C) \/ of_replay_buffer (w_replay_buffer C).
Proof. right. apply of_replay_buffer_id. Qed.

Lemma keeps_add_batch p t :
  p (EvAddBatch t) = false -> keeps (traced p) (add_batch C t).
Proof.
  intro H. unfold add_batch. apply keeps_bind.
  - apply keeps_emit_traced, H.
  - intros _ w. reflexivity.
Qed.

Ltac keeps_go :=
  repeat (intros; cbv beta zeta;
    first
      [ apply keeps_ret | apply keeps_out_of_fuel | apply keeps_game_over
      | apply keeps_env_steps_metric_result
      | apply keeps_iteration_metric_result
      | apply keeps_replay_buffer_size | apply keeps_life_lost
      | apply keeps_reset | apply keeps_step | apply keeps_observe
      | apply keeps_train_step_call | apply keeps_action
      | apply keeps_iteration_metric_call
      | apply keeps_add_batch
      | apply keeps_emit_traced | apply keeps_emit_replay_buffer
      | apply local_traced | apply local_replay_buffer
      | apply keeps_when | apply keeps_bind
      | match goal with
        | |- keeps _ (if ?b then _ else _) => destruct b
        end
      | discriminate
      | reflexivity
      | solve [auto] ]).

(** In EVAL mode a collect step leaves the buffer alone. *)
Lemma keeps_replay_buffer_collect_step t policy ms :
  keeps (w_replay_buffer C) (_collect_step C t policy ms false).
Proof. unfold _collect_step. keeps_go. Qed.

Lemma keeps_replay_buffer_run_episode_loop fuel ms t n :
  keeps (w_replay_buffer C) (_run_episode_loop C cfg fuel ms false t n).
Proof.
  revert t n. induction fuel as [|fuel IH]; intros t n; simpl.
  - apply keeps_out_of_fuel.
  - apply keeps_bind; [apply keeps_replay_buffer_collect_step|].
    keeps_go.
Qed.

Lemma keeps_replay_buffer_run_episode fuel ms :
  keeps (w_replay_buffer C) (_run_episode C cfg fuel ms false).
Proof.
  unfold _run_episode. apply keeps_bind; [keeps_go|].
  intro t. apply keeps_replay_buffer_run_episode_loop.
Qed.

Lemma keeps_replay_buffer_eval_phase_loop fuel n :
  keeps (w_replay_buffer C) (eval_phase_loop C cfg fuel n).
Proof.
  revert n. induction fuel as [|fuel IH]; intro n; simpl.
  - apply keeps_out_of_fuel.
  - destruct (Qle_bool _ _); [apply keeps_ret|].
    apply keeps_bind; [apply keeps_replay_buffer_run_episode|].
    intro. apply IH.
Qed.

(** Events only [_train_step_call], [reset] or [_collect_step] emit. *)
Definition quiet (p : Event -> bool) : Prop :=
  (forall a, p (EvStep a) = false)
  /\ (forall t, p (EvAddBatch t) = false)
  /\ (forall m t, p (EvObserve m t) = false).

Lemma quiet_is_train_step : quiet is_train_step.
Proof. repeat split. Qed.

Lemma quiet_is_collect_step : quiet is_collect_step.
Proof. repeat split. Qed.

Lemma quiet_is_reset : quiet is_reset.
Proof. repeat split. Qed.

Lemma traced_emit_then {A} p e (m : M A) w :
  keeps (traced p) m ->
  traced p (snd (bind C (emit C e) (fun _ => m) w))
  = traced p w ++ (if p e then [e] else []).
Proof.
  intro H. rewrite (bind_returns _ _ _ _ _ (emit_returns _ _)).
  rewrite H. apply traced_log.
Qed.

(** A collect step emits [EvCollectStep] once and nothing else that is not
    a step, a write or an observation. *)
Lemma traced_collect_step p t policy ms train w :
  quiet p ->
  traced p (snd (_collect_step C t policy ms train w))
  = traced p w ++ (if p EvCollectStep then [EvCollectStep] else []).
Proof.
  intros (Hs & Ha & Ho). unfold _collect_step.
  apply traced_emit_then. keeps_go.
Qed.

Lemma keeps_traced_collect_step p t policy ms train :
  quiet p -> p EvCollectStep = false ->
  keeps (traced p) (_collect_step C t policy ms train).
Proof.
  intros Hq Hc w. rewrite traced_collect_step, Hc by exact Hq.
  apply app_nil_r.
Qed.

(** [count] over a trace that grows. *)
Lemma count_app p (tr tr' : list Event) :
  count p (tr ++ tr') = count p tr + count p tr'.
Proof. unfold count. rewrite filter_app, length_app. lia. Qed.

Lemma count_traced p w :
  count p (w_trace C w) = Z.of_nat (length (traced p w)).
Proof. reflexivity. Qed.

Lemma keeps_traced_count {A} p (m : M A) w :
  keeps (traced p) m ->
  count p (w_trace C (snd (m w))) = count p (w_trace C w).
Proof. intro H. rewrite !count_traced, H. reflexivity. Qed.

(** The extra step of a life loss raises: so does the collect step, after
    the boundary-crossing transition has been stored and observed. *)
Lemma collect_step_life_loss_raises
    w time_step policy ms a1 ag1 n1 e1 a2 ag2 e train :
  policy_action C policy (w_agent C w) time_step = (a1, ag1) ->
  env_step C (w_env C w) (policy_step.action a1) = inr (n1, e1) ->
  ts.is_last n1 = true ->
  env_game_over C e1 = false ->
  policy_action C policy ag1 (ts.restart (ts.observation n1)) = (a2, ag2) ->
  env_step C e1 (policy_step.action a2) = inl e ->
  _collect_step C time_step policy ms train w
  = (Raises e,
     log C (EvStep (policy_step.action a2))
       (set_agent C ag2
          (observe_w ms (metric_traj_a time_step a1 n1)
             (store_when train (boundary_traj time_step a1 n1)
                (set_env C e1
                   (log C (EvStep (policy_step.action a1))
                      (set_agent C ag1 (log C EvCollectStep w)))))))).
Proof.
  intros H_action1 H_step1 H_last H_not_over H_action2 H_step2.
  unfold _collect_step.
  rewrite (bind_returns _ _ _ _ _ (emit_returns _ _)).
  erewrite bind_returns; [|apply action_returns; exact H_action1].
  erewrite bind_returns; [|apply step_returns; exact H_step1].
  rewrite (bind_returns _ _ _ _ _ (life_lost_returns _ _)).
  simpl w_env. rewrite H_last, H_not_over. simpl andb. cbv iota.
  rewrite (bind_returns _ _ _ _ _ (when_store_returns _ _ _)).
  rewrite (bind_returns _ _ _ _ _ (life_lost_returns _ _)).
  rewrite store_when_env. simpl w_env. rewrite H_last, H_not_over.
  simpl andb. cbv iota.
  erewrite bind_raises; [reflexivity|].
  erewrite bind_returns; [|apply observe_returns].
  erewrite bind_returns;
    [|apply action_returns;
      rewrite observe_w_agent;
      match goal with
      | |- context [w_agent C (store_when ?b ?t ?w0)] =>
        replace (w_agent C (store_when b t w0)) with (w_agent C w0)
          by (destruct b; reflexivity)
      end; exact H_action2].
  erewrite bind_raises; [reflexivity|].
  apply step_raises. simpl w_env.
  rewrite observe_w_env, store_when_env. exact H_step2.
Qed.

(** The first step of a collect step raises: so does the collect step. *)
Lemma collect_step_raises w time_step policy ms a1 ag1 e train :
  policy_action C policy (w_agent C w) time_step = (a1, ag1) ->
  env_step C (w_env C w) (policy_step.action a1) = inl e ->
  _collect_step C time_step policy ms train w
  = (Raises e,
     log C (EvStep (policy_step.action a1))
       (set_agent C ag1 (log C EvCollectStep w))).
Proof.
  intros H_action1 H_step1. unfold _collect_step.
  rewrite (bind_returns _ _ _ _ _ (emit_returns _ _)).
  erewrite bind_returns; [|apply action_returns; exact H_action1].
  erewrite bind_raises; [reflexivity|].
  apply step_raises. exact H_step1.
Qed.

(** *** One turn of the loop of [_run_episode] *)

(** The world after the learning update, when there is one. *)
Definition update_w (b : bool) (w : World) : World :=
  if b
  then set_agent C (train_step_call C (w_agent C w) (w_replay_buffer C w))
                 (log C EvTrainStep w)
  else w.

Lemma when_train_step_call_returns b w :
  when C b (_train_step_call C) w = (Returns tt, update_w b w).
Proof. destruct b; reflexivity. Qed.

Lemma update_w_train_steps b w :
  count is_train_step (w_trace C (update_w b w))
  = count is_train_step (w_trace C w) + (if b then 1 else 0).
Proof.
  destruct b; simpl.
  - rewrite count_app. reflexivity.
  - lia.
Qed.

(** The test of line 472. *)
Definition update_due (train : bool) (w : World) : bool :=
  train && mod_is_zero (w_env_steps_metric C w) (_update_period cfg).

Lemma run_episode_loop_step fuel ms train t n w next w' :
  _collect_step C t collect_policy ms train w = (Returns next, w') ->
  _run_episode_loop C cfg (S fuel) ms train t n w
  = if env_game_over C (w_env C w')
    then (Returns (n + 1), w')
    else _run_episode_loop C cfg fuel ms train next (n + 1)
           (update_w (update_due train w') w').
Proof.
  intro H. simpl. rewrite (bind_returns _ _ _ _ _ H).
  unfold bind at 1. unfold game_over at 1.
  destruct (env_game_over C (w_env C w')); [reflexivity|].
  unfold bind at 1. unfold env_steps_metric_result at 1.
  rewrite (bind_returns _ _ _ _ _ (when_train_step_call_returns _ _)).
  reflexivity.
Qed.

Lemma run_episode_loop_raises fuel ms train t n w e w' :
  _collect_step C t collect_policy ms train w = (Raises e, w') ->
  _run_episode_loop C cfg (S fuel) ms train t n w = (Raises e, w').
Proof. intro H. simpl. apply bind_raises, H. Qed.

(** *** Reading a trace that grows *)

Lemma added_app (tr tr' : list Event) :
  added (tr ++ tr') = added tr ++ added tr'.
Proof.
  induction tr as [|e tr IH]; simpl; [reflexivity|].
  destruct e; simpl; rewrite IH; reflexivity.
Qed.

Lemma added_observe (ms : list Metric) (t : Trajectory) :
  added (map (fun m => EvObserve m t) ms) = [].
Proof. induction ms; simpl; auto. Qed.

Lemma observer_calls_app (tr tr' : list Event) :
  observer_calls (tr ++ tr') = observer_calls tr ++ observer_calls tr'.
Proof.
  induction tr as [|e tr IH]; simpl; [reflexivity|].
  destruct e; simpl; rewrite IH; reflexivity.
Qed.

Lemma observer_calls_observe (ms : list Metric) (t : Trajectory) :
  observer_calls (map (fun m => EvObserve m t) ms)
  = map (fun m => (m, t)) ms.
Proof. induction ms as [|m ms IH]; simpl; [|rewrite IH]; reflexivity. Qed.

Lemma observer_calls_store_events train (t : Trajectory) :
  observer_calls (store_events train t) = [].
Proof. destruct train; reflexivity. Qed.

Lemma is_last_step_type (t : TimeStep) :
  ts.is_last t = true -> ts.step_type t = ts.LAST.
Proof. unfold ts.is_last. destruct (ts.step_type t); simpl; congruence. Qed.

(* ================================================================== *)
(** ** Life-loss boundaries *)

(** A collect step that starts in [w] on [time_step] meets a life-loss
    boundary: the environment answers the action [a1] with [n1], a LAST
    timestep, and the emulator reports that the game is not over. *)
Definition life_lost_at (w : World) (time_step : TimeStep) (policy : Policy)
    (a1 : PolicyStep) (ag1 : Agent C) (n1 : TimeStep) (e1 : Env C) : Prop :=
  policy_action C policy (w_agent C w) time_step = (a1, ag1)
  /\ env_step C (w_env C w) (policy_step.action a1) = inr (n1, e1)
  /\ ts.is_last n1 = true
  /\ env_game_over C e1 = false.

(** The step taken from the synthetic restart after the boundary: the
    environment answers the action [a2] with [n2]. *)
Definition restarted_at (policy : Policy) (ag1 : Agent C) (n1 : TimeStep)
    (e1 : Env C) (a2 : PolicyStep) (ag2 : Agent C) (n2 : TimeStep)
    (e2 : Env C) : Prop :=
  policy_action C policy ag1 (ts.restart (ts.observation n1)) = (a2, ag2)
  /\ env_step C e1 (policy_step.action a2) = inr (n2, e2).

(** C1 (as amended).  In TRAIN mode a collect step that meets a life-loss
    boundary at its first step of the environment and completes writes
    exactly two transitions to the replay buffer, in this order: the
    boundary-crossing transition, which ends in LAST, and the transition
    from the synthetic restart, which starts in FIRST; both with the
    reward clipped. *)
Theorem life_loss_writes_boundary_and_restart
    w time_step policy ms a1 ag1 n1 e1 a2 ag2 n2 e2 :
  life_lost_at w time_step policy a1 ag1 n1 e1 ->
  restarted_at policy ag1 n1 e1 a2 ag2 n2 e2 ->
  exists w',
    _collect_step C time_step policy ms true w = (Returns n2, w')
    /\ added (w_trace C w')
       = added (w_trace C w)
         ++ [clipped (boundary_traj time_step a1 n1);
             clipped (restart_traj n1 a2 n2)]
    /\ w_replay_buffer C w'
       = replay_buffer.add_batch
           (replay_buffer.add_batch (w_replay_buffer C w)
              (clipped (boundary_traj time_step a1 n1)))
           (clipped (restart_traj n1 a2 n2))
    /\ trajectory.next_step_type (clipped (boundary_traj time_step a1 n1))
       = ts.LAST
    /\ trajectory.step_type (clipped (restart_traj n1 a2 n2)) = ts.FIRST.
Proof.
  intros (Ha1 & Hs1 & Hl & Hg) (Ha2 & Hs2).
  eexists. split.
  - exact (collect_step_life_loss w time_step policy ms a1 ag1 n1 e1
             a2 ag2 n2 e2 Ha1 Hs1 Hl Hg Ha2 Hs2 true).
  - split; [|split; [|split]].
    + rewrite life_loss_world_trace. simpl store_events.
      repeat rewrite added_app. rewrite !added_observe. simpl.
      reflexivity.
    + rewrite life_loss_world_replay_buffer. reflexivity.
    + simpl. apply is_last_step_type, Hl.
    + reflexivity.
Qed.

(** C2 (as amended).  In either mode a collect step that meets a
    life-loss boundary at its first step of the environment and
    completes calls every metric observer exactly twice: on (a), which
    ends in MID and carries the reward of the boundary-crossing step,
    then on (b), which starts in MID and carries the reward of the extra
    step; the two rewards sum to the rewards of the two steps of the
    environment.  [_run_episode] does not return at the boundary: it
    returns after this collect step only if the game is over after the
    extra step, and goes on otherwise. *)
Theorem life_loss_observers_called_twice
    w time_step policy ms a1 ag1 n1 e1 a2 ag2 n2 e2 (train : bool) :
  life_lost_at w time_step policy a1 ag1 n1 e1 ->
  restarted_at policy ag1 n1 e1 a2 ag2 n2 e2 ->
  exists w',
    _collect_step C time_step policy ms train w = (Returns n2, w')
    /\ observer_calls (w_trace C w')
       = observer_calls (w_trace C w)
         ++ map (fun m => (m, metric_traj_a time_step a1 n1)) ms
         ++ map (fun m => (m, metric_traj_b time_step n1 a2 n2)) ms
    /\ trajectory.next_step_type (metric_traj_a time_step a1 n1) = ts.MID
    /\ trajectory.step_type (metric_traj_b time_step n1 a2 n2) = ts.MID
    /\ (trajectory.reward (metric_traj_a time_step a1 n1)
        + trajectory.reward (metric_traj_b time_step n1 a2 n2)
        = ts.reward n1 + ts.reward n2)%Q
    /\ (policy = collect_policy ->
        forall fuel n,
          _run_episode_loop C cfg (S fuel) ms train time_step n w
          = if env_game_over C e2
            then (Returns (n + 1), w')
            else _run_episode_loop C cfg fuel ms train n2 (n + 1)
                   (update_w (update_due train w') w')).
Proof.
  intros (Ha1 & Hs1 & Hl & Hg) (Ha2 & Hs2).
  pose proof (collect_step_life_loss w time_step policy ms a1 ag1 n1 e1
                a2 ag2 n2 e2 Ha1 Hs1 Hl Hg Ha2 Hs2 train) as Hc.
  eexists. split; [exact Hc|].
  split; [|split; [|split; [|split]]].
  - rewrite life_loss_world_trace.
    repeat rewrite observer_calls_app.
    rewrite !observer_calls_observe, !observer_calls_store_events.
    simpl. rewrite ?app_nil_r. reflexivity.
  - reflexivity.
  - reflexivity.
  - reflexivity.
  - intros -> fuel n.
    rewrite (run_episode_loop_step fuel ms train time_step n w _ _ Hc).
    rewrite life_loss_world_env. reflexivity.
Qed.

(** The override of lines 500-501.  When the timestep the first step of
    the environment returns is LAST and the emulator reports that the
    game is not over, the first things the collect step does after that
    step are to store (in TRAIN mode) and to have observed the
    boundary-crossing transition, and both the stored and the observed
    transition carry discount 1. *)
Theorem life_loss_discount_overridden
    w time_step policy ms a1 ag1 n1 e1 (train : bool) :
  life_lost_at w time_step policy a1 ag1 n1 e1 ->
  exists rest,
    w_trace C (snd (_collect_step C time_step policy ms train w))
    = w_trace C w
      ++ [EvCollectStep; EvStep (policy_step.action a1)]
      ++ store_events train (boundary_traj time_step a1 n1)
      ++ map (fun m => EvObserve m (metric_traj_a time_step a1 n1)) ms
      ++ rest
    /\ trajectory.discount (clipped (boundary_traj time_step a1 n1)) = 1%Q
    /\ trajectory.discount (metric_traj_a time_step a1 n1) = 1%Q.
Proof.
  intros (Ha1 & Hs1 & Hl & Hg).
  destruct (policy_action C policy ag1 (ts.restart (ts.observation n1)))
    as [a2 ag2] eqn:Ha2.
  destruct (env_step C e1 (policy_step.action a2)) as [e|[n2 e2]] eqn:Hs2.
  - exists [EvStep (policy_step.action a2)].
    rewrite (collect_step_life_loss_raises w time_step policy ms
               a1 ag1 n1 e1 a2 ag2 e train Ha1 Hs1 Hl Hg Ha2 Hs2).
    split; [|split; reflexivity].
    simpl. rewrite observe_w_trace, store_when_trace. simpl.
    repeat rewrite <- app_assoc. reflexivity.
  - eexists.
    rewrite (collect_step_life_loss w time_step policy ms a1 ag1 n1 e1
               a2 ag2 n2 e2 Ha1 Hs1 Hl Hg Ha2 Hs2 train).
    split; [|split; reflexivity].
    simpl snd. rewrite life_loss_world_trace. reflexivity.
Qed.

(* ================================================================== *)
(** ** Learning updates *)

(** An update period of [4 * p] ALE frames is one of [p] agent steps. *)
Lemma update_period_whole (p : Z) :
  update_period cfg = 4 * p -> (_update_period cfg == inject_Z p)%Q.
Proof.
  intro H. unfold _update_period, ATARI_FRAME_SKIP. rewrite H.
  unfold Qeq, Qdiv, Qmult, Qinv, inject_Z. cbn [Qnum Qden Pos.mul].
  lia.
Qed.

(** One turn of the loop of [_run_episode]: the collect step triggers no
    learning update; after it, an update is triggered exactly when the
    game is not over, the run is in TRAIN mode and the result of
    [EnvironmentSteps] is a multiple of the update period. *)
Lemma learning_update_trigger fuel ms train t n w next w' :
  _collect_step C t collect_policy ms train w = (Returns next, w') ->
  count is_train_step (w_trace C w') = count is_train_step (w_trace C w)
  /\ _run_episode_loop C cfg (S fuel) ms train t n w
     = (if env_game_over C (w_env C w')
        then (Returns (n + 1), w')
        else _run_episode_loop C cfg fuel ms train next (n + 1)
               (update_w (update_due train w') w'))
  /\ count is_train_step (w_trace C (update_w (update_due train w') w'))
     = count is_train_step (w_trace C w')
       + (if update_due train w' then 1 else 0)
  /\ (forall p, 0 < p -> update_period cfg = 4 * p ->
      update_due train w'
      = train && (w_env_steps_metric C w' mod p =? 0)).
Proof.
  intro H. split; [|split; [|split]].
  - change w' with (snd (Returns (C := C) next, w')). rewrite <- H.
    apply keeps_traced_count, keeps_traced_collect_step.
    + apply quiet_is_train_step.
    + reflexivity.
  - apply run_episode_loop_step, H.
  - apply update_w_train_steps.
  - intros p Hp Hu. unfold update_due.
    rewrite (mod_is_zero_Qeq _ _ _ (update_period_whole p Hu)).
    rewrite mod_is_zero_whole by exact Hp. reflexivity.
Qed.

(* ================================================================== *)
(** ** EVAL mode and the replay buffer *)

Lemma keeps_add_batch_collect_step t policy ms :
  keeps (traced is_add_batch) (_collect_step C t policy ms false).
Proof. unfold _collect_step. keeps_go. Qed.

Lemma keeps_add_batch_run_episode_loop fuel ms t n :
  keeps (traced is_add_batch) (_run_episode_loop C cfg fuel ms false t n).
Proof.
  revert t n. induction fuel as [|fuel IH]; intros t n; simpl.
  - apply keeps_out_of_fuel.
  - apply keeps_bind; [apply keeps_add_batch_collect_step|].
    keeps_go.
Qed.

(** C6.  An episode run in EVAL mode leaves the replay buffer as it was,
    its size and its entries, however the episode ends and whatever the
    environment does, life losses included; it makes no call to
    [add_batch]; and so does a whole eval phase. *)
Theorem eval_episode_leaves_replay_buffer fuel ms w :
  w_replay_buffer C (snd (_run_episode C cfg fuel ms false w))
  = w_replay_buffer C w
  /\ replay_buffer.size
       (w_replay_buffer C (snd (_run_episode C cfg fuel ms false w)))
     = replay_buffer.size (w_replay_buffer C w)
  /\ count is_add_batch (w_trace C (snd (_run_episode C cfg fuel ms false w)))
     = count is_add_batch (w_trace C w)
  /\ w_replay_buffer C (snd (eval_phase C cfg fuel w))
     = w_replay_buffer C w.
Proof.
  assert (H := keeps_replay_buffer_run_episode fuel ms w).
  split; [exact H|]. split; [rewrite H; reflexivity|]. split.
  - apply keeps_traced_count. unfold _run_episode.
    apply keeps_bind; [keeps_go|].
    intro t. apply keeps_add_batch_run_episode_loop.
  - apply keeps_replay_buffer_eval_phase_loop.
Qed.

(* ================================================================== *)
(** ** The step counter of an episode *)

Lemma collect_step_counts_once t policy ms train w :
  count is_collect_step (w_trace C (snd (_collect_step C t policy ms train w)))
  = count is_collect_step (w_trace C w) + 1.
Proof.
  rewrite !count_traced, traced_collect_step by apply quiet_is_collect_step.
  simpl. rewrite length_app. simpl. lia.
Qed.

Lemma update_w_collect_steps b w :
  count is_collect_step (w_trace C (update_w b w))
  = count is_collect_step (w_trace C w).
Proof.
  destruct b; simpl; [|reflexivity].
  rewrite count_app. unfold count at 2. simpl. lia.
Qed.

Lemma run_episode_loop_counts fuel ms train :
  forall t n w m w',
    _run_episode_loop C cfg fuel ms train t n w = (Returns m, w') ->
    m - n
    = count is_collect_step (w_trace C w')
      - count is_collect_step (w_trace C w).
Proof.
  induction fuel as [|fuel IH]; intros t n w m w' H.
  - discriminate H.
  - pose proof (collect_step_counts_once t collect_policy ms train w) as Hn.
    destruct (_collect_step C t collect_policy ms train w)
      as [[next|e|] w1] eqn:Hc; simpl snd in Hn.
    + rewrite (run_episode_loop_step fuel ms train t n w _ _ Hc) in H.
      destruct (env_game_over C (w_env C w1)).
      * inversion H; subst. lia.
      * apply IH in H. rewrite update_w_collect_steps in H. lia.
    + rewrite (run_episode_loop_raises fuel ms train t n w _ _ Hc) in H.
      discriminate H.
    + simpl in H. rewrite (bind_out_of_fuel _ _ _ _ Hc) in H.
      discriminate H.
Qed.

Lemma run_episode_counts fuel ms train w n w' :
  _run_episode C cfg fuel ms train w = (Returns n, w') ->
  n = count is_collect_step (w_trace C w')
      - count is_collect_step (w_trace C w).
Proof.
  unfold _run_episode. intro H.
  apply bind_returns_inv in H. destruct H as (t & w1 & Hr & Hl).
  apply run_episode_loop_counts in Hl.
  assert (Hk : count is_collect_step (w_trace C w1)
               = count is_collect_step (w_trace C w)).
  { change w1 with (snd (Returns (C := C) t, w1)). rewrite <- Hr.
    apply keeps_traced_count. keeps_go. }
  lia.
Qed.

Lemma train_phase_loop_counts fuel :
  forall n0 w n w',
    train_phase_loop C cfg fuel n0 w = (Returns n, w') ->
    n - n0
    = count is_collect_step (w_trace C w')
      - count is_collect_step (w_trace C w).
Proof.
  induction fuel as [|fuel IH]; intros n0 w n w' H; simpl in H.
  - discriminate H.
  - destruct (Qle_bool _ _).
    + inversion H; subst. lia.
    + apply bind_returns_inv in H. destruct H as (k & w1 & Hr & Hl).
      apply run_episode_counts in Hr. apply IH in Hl. lia.
Qed.

Lemma eval_phase_loop_counts fuel :
  forall n0 w n w',
    eval_phase_loop C cfg fuel n0 w = (Returns n, w') ->
    n - n0
    = count is_collect_step (w_trace C w')
      - count is_collect_step (w_trace C w).
Proof.
  induction fuel as [|fuel IH]; intros n0 w n w' H; simpl in H.
  - discriminate H.
  - destruct (Qle_bool _ _).
    + inversion H; subst. lia.
    + apply bind_returns_inv in H. destruct H as (k & w1 & Hr & Hl).
      apply run_episode_counts in Hr. apply IH in Hl. lia.
Qed.

Lemma count_observe p (ms : list Metric) (t : Trajectory) :
  (forall m, p (EvObserve m t) = false) ->
  count p (map (fun m => EvObserve m t) ms) = 0.
Proof.
  intro H. unfold count. induction ms as [|m ms IH]; simpl.
  - reflexivity.
  - rewrite H. exact IH.
Qed.

Lemma count_store_events p train (t : Trajectory) :
  p (EvAddBatch (clipped t)) = false ->
  count p (store_events train t) = 0.
Proof.
  intro H. unfold count. destruct train; simpl; [rewrite H|]; reflexivity.
Qed.

(** C9.  A collect step that meets a life-loss boundary and completes
    steps the environment twice and counts as one collect step; the
    value [_run_episode] returns, and the step count a train or an eval
    phase accumulates from it, is the number of collect steps made, not
    the number of steps of the environment. *)
Theorem steps_taken_counts_collect_steps :
  (forall w time_step policy ms a1 ag1 n1 e1 a2 ag2 n2 e2 train,
      life_lost_at w time_step policy a1 ag1 n1 e1 ->
      restarted_at policy ag1 n1 e1 a2 ag2 n2 e2 ->
      exists w',
        _collect_step C time_step policy ms train w = (Returns n2, w')
        /\ count is_env_step (w_trace C w')
           = count is_env_step (w_trace C w) + 2
        /\ count is_collect_step (w_trace C w')
           = count is_collect_step (w_trace C w) + 1)
  /\ (forall fuel ms train w n w',
         _run_episode C cfg fuel ms train w = (Returns n, w') ->
         n = count is_collect_step (w_trace C w')
             - count is_collect_step (w_trace C w))
  /\ (forall fuel w n w',
         train_phase C cfg fuel w = (Returns n, w') ->
         n = count is_collect_step (w_trace C w')
             - count is_collect_step (w_trace C w))
  /\ (forall fuel w n w',
         eval_phase C cfg fuel w = (Returns n, w') ->
         n = count is_collect_step (w_trace C w')
             - count is_collect_step (w_trace C w)).
Proof.
  split; [|split; [|split]].
  - intros w time_step policy ms a1 ag1 n1 e1 a2 ag2 n2 e2 train
           (Ha1 & Hs1 & Hl & Hg) (Ha2 & Hs2).
    pose proof (collect_step_life_loss w time_step policy ms a1 ag1 n1 e1
                  a2 ag2 n2 e2 Ha1 Hs1 Hl Hg Ha2 Hs2 train) as Hc.
    eexists. split; [exact Hc|]. split.
    + rewrite life_loss_world_trace. repeat rewrite count_app.
      rewrite !count_observe, !count_store_events by reflexivity.
      unfold count at 2 3. simpl. lia.
    + pose proof (collect_step_counts_once time_step policy ms train w) as Hn.
      rewrite Hc in Hn. exact Hn.
  - intros fuel ms train w n w' H. apply (run_episode_counts _ _ _ _ _ _ H).
  - intros fuel w n w' H. unfold train_phase in H.
    apply train_phase_loop_counts in H. lia.
  - intros fuel w n w' H. unfold eval_phase in H.
    apply eval_phase_loop_counts in H. lia.
Qed.

(* ================================================================== *)
(** ** Failures of the environment *)

(** The world right after a call to the environment that raised [e]: the
    call is the last event of the trace, and nothing else has changed. *)
Definition failed_at (w : World) (e : Exn C) : Prop :=
  exists tr,
    (w_trace C w = tr ++ [EvReset] /\ env_reset C (w_env C w) = inl e)
    \/ (exists a,
           w_trace C w = tr ++ [EvStep a]
           /\ env_step C (w_env C w) a = inl e).

(** A computation that raises only what the environment raised, and stops
    right there. *)
Definition raises_at_failure {A} (m : M A) : Prop :=
  forall w e w', m w = (Raises e, w') -> failed_at w' e.

Definition never_raises {A} (m : M A) : Prop :=
  forall w e w', m w <> (Raises e, w').

Lemma never_raises_at_failure {A} (m : M A) :
  never_raises m -> raises_at_failure m.
Proof. intros H w e w' Hm. destruct (H w e w' Hm). Qed.

Lemma raises_at_failure_bind {A B} (m : M A) (k : A -> M B) :
  raises_at_failure m -> (forall a, raises_at_failure (k a)) ->
  raises_at_failure (bind C m k).
Proof.
  intros Hm Hk w e w'. unfold bind.
  destruct (m w) as [[a|e0|] w1] eqn:E; intro H.
  - apply (Hk a w1), H.
  - inversion H; subst. apply (Hm w), E.
  - discriminate H.
Qed.

Lemma raises_at_failure_when b (m : M unit) :
  raises_at_failure m -> raises_at_failure (when C b m).
Proof.
  intro H. destruct b; simpl; [exact H|].
  intros w e w' Hr. discriminate Hr.
Qed.

Lemma raises_at_failure_step a : raises_at_failure (step C a).
Proof.
  intros w e w'. unfold step, bind, emit. simpl.
  destruct (env_step C (w_env C w) a) as [e0|[t env']] eqn:E; intro H;
    inversion H; subst.
  exists (w_trace C w). right. exists a. split; [reflexivity | exact E].
Qed.

Lemma raises_at_failure_reset : raises_at_failure (reset C).
Proof.
  intros w e w'. unfold reset, bind, emit. simpl.
  destruct (env_reset C (w_env C w)) as [e0|[t env']] eqn:E; intro H;
    inversion H; subst.
  exists (w_trace C w). left. split; [reflexivity | exact E].
Qed.

Ltac never_raises_prim :=
  apply never_raises_at_failure; intros ? ? ? H;
  cbv [ret out_of_fuel emit game_over action add_batch replay_buffer_size
       observer env_steps_metric_result iteration_metric_result
       iteration_metric_call _train_step_call life_lost bind] in H;
  repeat match type of H with
         | context [match ?x with _ => _ end] => destruct x
         | context [if ?x then _ else _] => destruct x
         end;
  discriminate H.

Lemma raises_at_failure_ret {A} (a : A) : raises_at_failure (ret C a).
Proof. never_raises_prim. Qed.

Lemma raises_at_failure_out_of_fuel {A} :
  raises_at_failure (out_of_fuel C (A := A)).
Proof. never_raises_prim. Qed.

Lemma raises_at_failure_emit e : raises_at_failure (emit C e).
Proof. never_raises_prim. Qed.

Lemma raises_at_failure_game_over : raises_at_failure (game_over C).
Proof. never_raises_prim. Qed.

Lemma raises_at_failure_action policy t :
  raises_at_failure (action C policy t).
Proof. never_raises_prim. Qed.

Lemma raises_at_failure_add_batch t : raises_at_failure (add_batch C t).
Proof. never_raises_prim. Qed.

Lemma raises_at_failure_replay_buffer_size :
  raises_at_failure (replay_buffer_size C).
Proof. never_raises_prim. Qed.

Lemma raises_at_failure_env_steps_metric_result :
  raises_at_failure (env_steps_metric_result C).
Proof. never_raises_prim. Qed.

Lemma raises_at_failure_iteration_metric_result :
  raises_at_failure (iteration_metric_result C).
Proof. never_raises_prim. Qed.

Lemma raises_at_failure_iteration_metric_call :
  raises_at_failure (iteration_metric_call C).
Proof. never_raises_prim. Qed.

Lemma raises_at_failure_train_step_call :
  raises_at_failure (_train_step_call C).
Proof. never_raises_prim. Qed.

Lemma raises_at_failure_life_lost t : raises_at_failure (life_lost C t).
Proof. never_raises_prim. Qed.

Lemma raises_at_failure_observe ms t : raises_at_failure (_observe C ms t).
Proof.
  intros w e w' H. rewrite observe_returns in H. discriminate H.
Qed.

Ltac raises_go :=
  repeat (intros; cbv beta zeta;
    first
      [ apply raises_at_failure_ret | apply raises_at_failure_out_of_fuel
      | apply raises_at_failure_step | apply raises_at_failure_reset
      | apply raises_at_failure_emit | apply raises_at_failure_game_over
      | apply raises_at_failure_action | apply raises_at_failure_add_batch
      | apply raises_at_failure_replay_buffer_size
      | apply raises_at_failure_env_steps_metric_result
      | apply raises_at_failure_iteration_metric_result
      | apply raises_at_failure_iteration_metric_call
      | apply raises_at_failure_train_step_call
      | apply raises_at_failure_life_lost
      | apply raises_at_failure_observe
      | apply raises_at_failure_when | apply raises_at_failure_bind
      | match goal with
        | |- raises_at_failure (if ?b then _ else _) => destruct b
        end
      | solve [auto] ]).

Lemma raises_at_failure_collect_step t policy ms train :
  raises_at_failure (_collect_step C t policy ms train).
Proof. unfold _collect_step. raises_go. Qed.

Lemma raises_at_failure_run_episode_loop fuel ms train :
  forall t n, raises_at_failure (_run_episode_loop C cfg fuel ms train t n).
Proof.
  induction fuel as [|fuel IH]; intros t n; simpl.
  - apply raises_at_failure_out_of_fuel.
  - apply raises_at_failure_bind;
      [apply raises_at_failure_collect_step|].
    raises_go.
Qed.

Lemma raises_at_failure_run_episode fuel ms train :
  raises_at_failure (_run_episode C cfg fuel ms train).
Proof.
  unfold _run_episode. apply raises_at_failure_bind.
  - apply raises_at_failure_reset.
  - intro t. apply raises_at_failure_run_episode_loop.
Qed.

Lemma raises_at_failure_initial_collect_loop fuel :
  forall t, raises_at_failure (_initial_collect_loop C cfg fuel t).
Proof.
  induction fuel as [|fuel IH]; intro t; simpl; raises_go.
Qed.

Lemma raises_at_failure_train_phase_loop fuel :
  forall n, raises_at_failure (train_phase_loop C cfg fuel n).
Proof.
  induction fuel as [|fuel IH]; intro n; simpl.
  - apply raises_at_failure_out_of_fuel.
  - destruct (Qle_bool _ _); [apply raises_at_failure_ret|].
    apply raises_at_failure_bind; [apply raises_at_failure_run_episode|].
    intro. apply IH.
Qed.

Lemma raises_at_failure_eval_phase_loop fuel :
  forall n, raises_at_failure (eval_phase_loop C cfg fuel n).
Proof.
  induction fuel as [|fuel IH]; intro n; simpl.
  - apply raises_at_failure_out_of_fuel.
  - destruct (Qle_bool _ _); [apply raises_at_failure_ret|].
    apply raises_at_failure_bind; [apply raises_at_failure_run_episode|].
    intro. apply IH.
Qed.

Lemma raises_at_failure_run_loop fuel :
  raises_at_failure (run_loop C cfg fuel).
Proof.
  induction fuel as [|fuel IH]; simpl.
  - apply raises_at_failure_out_of_fuel.
  - apply raises_at_failure_bind;
      [apply raises_at_failure_iteration_metric_result|].
    intro i. destruct (_ <=? _); [apply raises_at_failure_ret|].
    apply raises_at_failure_bind;
      [apply raises_at_failure_train_phase_loop|].
    intros _. apply raises_at_failure_bind.
    + apply raises_at_failure_when. apply raises_at_failure_bind;
        [apply raises_at_failure_eval_phase_loop|].
      intro. apply raises_at_failure_ret.
    + intros _. apply raises_at_failure_bind;
        [apply raises_at_failure_iteration_metric_call|].
      intros _. exact IH.
Qed.

Lemma raises_at_failure_run fuel : raises_at_failure (run C cfg fuel).
Proof.
  unfold run, _initial_collect. apply raises_at_failure_bind.
  - apply raises_at_failure_bind; [apply raises_at_failure_reset|].
    apply raises_at_failure_initial_collect_loop.
  - intros _. apply raises_at_failure_run_loop.
Qed.

(** C10.  A failure of the environment is fatal: no caller catches it.
    A [reset] that raises at the start of an episode, and a [step] that
    raises in a collect step, the extra step of a life loss included,
    make [_run_episode] raise the same exception.  Every caller hands on
    unchanged, in the world the failure left, what any of its calls
    raises, at the first turn of its loop and at every later one: the
    loop of [_run_episode] and [_run_episode] itself, the train and the
    eval phase for each of their episodes, the loop of [run] for its
    train phase, for its eval phase and for its later iterations, [run]
    for the initial collection and for its loop, and the initial
    collection for its resets and its steps.  So a failure in an episode
    of either phase, or in the initial collection, makes [run] raise.
    Whenever [_run_episode] or [run] raises, the failed call to the
    environment is the last thing that happened: nothing is retried and
    nothing runs after it. *)
Theorem environment_failure_is_fatal :
  (forall fuel ms train w e,
      env_reset C (w_env C w) = inl e ->
      _run_episode C cfg fuel ms train w = (Raises e, log C EvReset w))
  /\ (forall w time_step policy ms a1 ag1 e train,
         policy_action C policy (w_agent C w) time_step = (a1, ag1) ->
         env_step C (w_env C w) (policy_step.action a1) = inl e ->
         fst (_collect_step C time_step policy ms train w) = Raises e)
  /\ (forall w time_step policy ms a1 ag1 n1 e1 a2 ag2 e train,
         life_lost_at w time_step policy a1 ag1 n1 e1 ->
         policy_action C policy ag1 (ts.restart (ts.observation n1))
         = (a2, ag2) ->
         env_step C e1 (policy_step.action a2) = inl e ->
         fst (_collect_step C time_step policy ms train w) = Raises e)
  /\ (forall fuel ms train t n w e w',
         _collect_step C t collect_policy ms train w = (Raises e, w') ->
         _run_episode_loop C cfg (S fuel) ms train t n w = (Raises e, w'))
  /\ (forall fuel n w e w',
         Qle_bool (_train_steps_per_iteration cfg) (inject_Z n) = false ->
         _run_episode C cfg fuel (_train_metrics ++ _train_phase_metrics)
                      true w
         = (Raises e, w') ->
         train_phase_loop C cfg (S fuel) n w = (Raises e, w'))
  /\ (forall fuel n w e w',
         Qle_bool (_eval_steps_per_iteration cfg) (inject_Z n) = false ->
         _run_episode C cfg fuel _eval_metrics false w = (Raises e, w') ->
         eval_phase_loop C cfg (S fuel) n w = (Raises e, w'))
  /\ (forall fuel w e w',
         (num_iterations cfg <=? w_iteration_metric C w) = false ->
         train_phase C cfg fuel w = (Raises e, w') ->
         run_loop C cfg (S fuel) w = (Raises e, w'))
  /\ (forall fuel ms train w e w',
         _run_episode C cfg fuel ms train w = (Raises e, w') ->
         failed_at w' e)
  /\ (forall fuel w e w',
         run C cfg fuel w = (Raises e, w') -> failed_at w' e)
  /\ (forall fuel ms train t n w next w1 e w',
         _collect_step C t collect_policy ms train w = (Returns next, w1) ->
         env_game_over C (w_env C w1) = false ->
         _run_episode_loop C cfg fuel ms train next (n + 1)
                           (update_w (update_due train w1) w1)
         = (Raises e, w') ->
         _run_episode_loop C cfg (S fuel) ms train t n w = (Raises e, w'))
  /\ (forall fuel ms train w t w1 e w',
         reset C w = (Returns t, w1) ->
         _run_episode_loop C cfg fuel ms train t 0 w1 = (Raises e, w') ->
         _run_episode C cfg fuel ms train w = (Raises e, w'))
  /\ (forall fuel n w k w1 e w',
         Qle_bool (_train_steps_per_iteration cfg) (inject_Z n) = false ->
         _run_episode C cfg fuel (_train_metrics ++ _train_phase_metrics)
                      true w
         = (Returns k, w1) ->
         train_phase_loop C cfg fuel (n + k) w1 = (Raises e, w') ->
         train_phase_loop C cfg (S fuel) n w = (Raises e, w'))
  /\ (forall fuel n w k w1 e w',
         Qle_bool (_eval_steps_per_iteration cfg) (inject_Z n) = false ->
         _run_episode C cfg fuel _eval_metrics false w = (Returns k, w1) ->
         eval_phase_loop C cfg fuel (n + k) w1 = (Raises e, w') ->
         eval_phase_loop C cfg (S fuel) n w = (Raises e, w'))
  /\ (forall fuel w n w1 e w',
         (num_iterations cfg <=? w_iteration_metric C w) = false ->
         train_phase C cfg fuel w = (Returns n, w1) ->
         do_eval cfg = true ->
         eval_phase C cfg fuel w1 = (Raises e, w') ->
         run_loop C cfg (S fuel) w = (Raises e, w'))
  /\ (forall fuel w n w1 m w2 e w',
         (num_iterations cfg <=? w_iteration_metric C w) = false ->
         train_phase C cfg fuel w = (Returns n, w1) ->
         do_eval cfg = true ->
         eval_phase C cfg fuel w1 = (Returns m, w2) ->
         run_loop C cfg fuel
                  (set_iteration_metric C (w_iteration_metric C w2 + 1) w2)
         = (Raises e, w') ->
         run_loop C cfg (S fuel) w = (Raises e, w'))
  /\ (forall fuel w n w1 e w',
         (num_iterations cfg <=? w_iteration_metric C w) = false ->
         train_phase C cfg fuel w = (Returns n, w1) ->
         do_eval cfg = false ->
         run_loop C cfg fuel
                  (set_iteration_metric C (w_iteration_metric C w1 + 1) w1)
         = (Raises e, w') ->
         run_loop C cfg (S fuel) w = (Raises e, w'))
  /\ (forall fuel w e w',
         _initial_collect C cfg fuel w = (Raises e, w') ->
         run C cfg fuel w = (Raises e, w'))
  /\ (forall fuel w w1 e w',
         _initial_collect C cfg fuel w = (Returns tt, w1) ->
         run_loop C cfg fuel w1 = (Raises e, w') ->
         run C cfg fuel w = (Raises e, w'))
  /\ (forall fuel w e,
         env_reset C (w_env C w) = inl e ->
         _initial_collect C cfg fuel w = (Raises e, log C EvReset w))
  /\ (forall fuel w t w1 e w',
         reset C w = (Returns t, w1) ->
         _initial_collect_loop C cfg fuel t w1 = (Raises e, w') ->
         _initial_collect C cfg fuel w = (Raises e, w'))
  /\ (forall fuel t w e,
         Qle_bool (_initial_collect_steps cfg)
                  (inject_Z (replay_buffer.size (w_replay_buffer C w)))
         = false ->
         env_game_over C (w_env C w) = true ->
         env_reset C (w_env C w) = inl e ->
         _initial_collect_loop C cfg (S fuel) t w
         = (Raises e, log C EvReset w))
  /\ (forall fuel t w t1 w1 a ag e,
         Qle_bool (_initial_collect_steps cfg)
                  (inject_Z (replay_buffer.size (w_replay_buffer C w)))
         = false ->
         (if env_game_over C (w_env C w) then reset C else ret C t) w
         = (Returns t1, w1) ->
         policy_action C random_policy (w_agent C w1) t1 = (a, ag) ->
         env_step C (w_env C w1) (policy_step.action a) = inl e ->
         _initial_collect_loop C cfg (S fuel) t w
         = (Raises e,
            log C (EvStep (policy_step.action a)) (set_agent C ag w1)))
  /\ (forall fuel t w t1 w1 a w2 t2 w3 w4 e w',
         Qle_bool (_initial_collect_steps cfg)
                  (inject_Z (replay_buffer.size (w_replay_buffer C w)))
         = false ->
         (if env_game_over C (w_env C w) then reset C else ret C t) w
         = (Returns t1, w1) ->
         action C random_policy t1 w1 = (Returns a, w2) ->
         step C (policy_step.action a) w2 = (Returns t2, w3) ->
         add_batch C (trajectory.from_transition t1 a t2) w3
         = (Returns tt, w4) ->
         _initial_collect_loop C cfg fuel t2 w4 = (Raises e, w') ->
         _initial_collect_loop C cfg (S fuel) t w = (Raises e, w')).
Proof.
  repeat match goal with |- _ /\ _ => split end.
  - intros fuel ms train w e H. unfold _run_episode.
    apply bind_raises, reset_raises, H.
  - intros w time_step policy ms a1 ag1 e train Ha Hs.
    rewrite (collect_step_raises w time_step policy ms a1 ag1 e train Ha Hs).
    reflexivity.
  - intros w time_step policy ms a1 ag1 n1 e1 a2 ag2 e train
           (Ha1 & Hs1 & Hl & Hg) Ha2 Hs2.
    rewrite (collect_step_life_loss_raises w time_step policy ms
               a1 ag1 n1 e1 a2 ag2 e train Ha1 Hs1 Hl Hg Ha2 Hs2).
    reflexivity.
  - intros fuel ms train t n w e w' H.
    apply run_episode_loop_raises, H.
  - intros fuel n w e w' Hb H. simpl. rewrite Hb.
    apply bind_raises, H.
  - intros fuel n w e w' Hb H. simpl. rewrite Hb.
    apply bind_raises, H.
  - intros fuel w e w' Hi H. simpl.
    unfold bind at 1. unfold iteration_metric_result at 1.
    rewrite Hi. apply bind_raises, H.
  - intros fuel ms train w e w' H.
    apply (raises_at_failure_run_episode fuel ms train w e w' H).
  - intros fuel w e w' H.
    apply (raises_at_failure_run fuel w e w' H).
  - intros fuel ms train t n w next w1 e w' Hc Hg H.
    rewrite (run_episode_loop_step fuel ms train t n w next w1 Hc), Hg.
    exact H.
  - intros fuel ms train w t w1 e w' Hr H. unfold _run_episode.
    rewrite (bind_returns _ _ _ _ _ Hr). exact H.
  - intros fuel n w k w1 e w' Hb Hk H. simpl. rewrite Hb.
    rewrite (bind_returns _ _ _ _ _ Hk). exact H.
  - intros fuel n w k w1 e w' Hb Hk H. simpl. rewrite Hb.
    rewrite (bind_returns _ _ _ _ _ Hk). exact H.
  - intros fuel w n w1 e w' Hi Ht Hd H. simpl.
    unfold bind at 1. unfold iteration_metric_result at 1.
    rewrite Hi, (bind_returns _ _ _ _ _ Ht), Hd.
    apply bind_raises. simpl. apply bind_raises, H.
  - intros fuel w n w1 m w2 e w' Hi Ht Hd Hm H. simpl.
    unfold bind at 1. unfold iteration_metric_result at 1.
    rewrite Hi, (bind_returns _ _ _ _ _ Ht), Hd.
    erewrite bind_returns;
      [|simpl; rewrite (bind_returns _ _ _ _ _ Hm); reflexivity].
    erewrite bind_returns; [|reflexivity]. exact H.
  - intros fuel w n w1 e w' Hi Ht Hd H. simpl.
    unfold bind at 1. unfold iteration_metric_result at 1.
    rewrite Hi, (bind_returns _ _ _ _ _ Ht), Hd.
    erewrite bind_returns; [|reflexivity].
    erewrite bind_returns; [|reflexivity]. exact H.
  - intros fuel w e w' H. unfold run. apply bind_raises, H.
  - intros fuel w w1 e w' Hi H. unfold run.
    rewrite (bind_returns _ _ _ _ _ Hi). exact H.
  - intros fuel w e H. unfold _initial_collect.
    apply bind_raises, reset_raises, H.
  - intros fuel w t w1 e w' Hr H. unfold _initial_collect.
    rewrite (bind_returns _ _ _ _ _ Hr). exact H.
  - intros fuel t w e Hs Hg Hr. simpl.
    unfold bind at 1. unfold replay_buffer_size at 1. rewrite Hs.
    unfold bind at 1. unfold game_over at 1. rewrite Hg.
    apply bind_raises, reset_raises, Hr.
  - intros fuel t w t1 w1 a ag e Hs Ht Ha He. simpl.
    unfold bind at 1. unfold replay_buffer_size at 1. rewrite Hs.
    unfold bind at 1. unfold game_over at 1.
    rewrite (bind_returns _ _ _ _ _ Ht).
    rewrite (bind_returns _ _ _ _ _ (action_returns _ _ _ _ _ Ha)).
    apply bind_raises, step_raises, He.
  - intros fuel t w t1 w1 a w2 t2 w3 w4 e w' Hs Ht Ha Hst Hadd H. simpl.
    unfold bind at 1. unfold replay_buffer_size at 1. rewrite Hs.
    unfold bind at 1. unfold game_over at 1.
    rewrite (bind_returns _ _ _ _ _ Ht).
    rewrite (bind_returns _ _ _ _ _ Ha).
    rewrite (bind_returns _ _ _ _ _ Hst).
    rewrite (bind_returns _ _ _ _ _ Hadd). exact H.
Qed.

(* ================================================================== *)
(** ** The initial collection *)

(** The number of entries the initial collection waits for: the least
    whole number that is not below [initial_collect_steps / 4]. *)
Definition initial_collect_target : Z := Qceiling (_initial_collect_steps cfg).

Lemma initial_collect_test (size : Z) :
  Qle_bool (_initial_collect_steps cfg) (inject_Z size)
  = (initial_collect_target <=? size).
Proof.
  unfold initial_collect_target.
  set (q := _initial_collect_steps cfg).
  destruct (Z.leb_spec (Qceiling q) size) as [H|H].
  - apply Qle_bool_iff. apply Qle_trans with (inject_Z (Qceiling q)).
    + apply Qle_ceiling.
    + rewrite <- Zle_Qle. exact H.
  - apply not_true_is_false. intro Hq. apply Qle_bool_iff in Hq.
    pose proof (Qceiling_lt q) as Hc.
    assert (Hlt : (inject_Z (Qceiling q - 1) < inject_Z size)%Q)
      by (eapply Qlt_le_trans; eassumption).
    rewrite <- Zlt_Qlt in Hlt. lia.
Qed.

Lemma size_add_batch (rb : replay_buffer.ReplayBuffer Trajectory)
    (t : Trajectory) :
  replay_buffer.size rb < Z.of_nat (replay_buffer.capacity rb) ->
  replay_buffer.size (replay_buffer.add_batch rb t)
  = replay_buffer.size rb + 1.
Proof.
  unfold replay_buffer.size, replay_buffer.add_batch. simpl. intro H.
  rewrite length_skipn, length_app. simpl. lia.
Qed.

Lemma capacity_add_batch (rb : replay_buffer.ReplayBuffer Trajectory)
    (t : Trajectory) :
  replay_buffer.capacity (replay_buffer.add_batch rb t)
  = replay_buffer.capacity rb.
Proof. reflexivity. Qed.

(** The initial collection triggers no learning update. *)
Lemma keeps_train_steps_initial_collect fuel :
  keeps (traced is_train_step) (_initial_collect C cfg fuel).
Proof.
  unfold _initial_collect. apply keeps_bind; [keeps_go|].
  induction fuel as [|fuel IH]; intro t; simpl; keeps_go.
Qed.

Lemma add_batch_returns t w :
  add_batch C t w
  = (Returns tt,
     set_replay_buffer C (replay_buffer.add_batch (w_replay_buffer C w) t)
                       (log C (EvAddBatch t) w)).
Proof. reflexivity. Qed.

Section TotalEnvironment.

(** An environment whose [reset] and [step] never raise. *)
Hypothesis reset_total :
  forall env, exists t env', env_reset C env = inr (t, env').
Hypothesis step_total :
  forall env a, exists t env', env_step C env a = inr (t, env').

Lemma initial_collect_loop_reaches_target (k : nat) :
  forall fuel t w,
    initial_collect_target - replay_buffer.size (w_replay_buffer C w)
    <= Z.of_nat k ->
    (k < fuel)%nat ->
    initial_collect_target
    <= Z.of_nat (replay_buffer.capacity (w_replay_buffer C w)) ->
    exists w',
      _initial_collect_loop C cfg fuel t w = (Returns tt, w')
      /\ replay_buffer.size (w_replay_buffer C w')
         = Z.max (replay_buffer.size (w_replay_buffer C w))
                 initial_collect_target.
Proof using reset_total step_total.
  induction k as [|k IH]; intros fuel t w Hk Hf Hc;
    (destruct fuel as [|fuel]; [lia|]); simpl;
    unfold bind at 1; unfold replay_buffer_size at 1;
    rewrite initial_collect_test;
    destruct (Z.leb_spec initial_collect_target
                (replay_buffer.size (w_replay_buffer C w))) as [Hs|Hs];
    try (exists w; split; [reflexivity | lia]); try lia.
  assert (Hgo : exists t1 w1,
             (if env_game_over C (w_env C w) then reset C else ret C t) w
             = (Returns t1, w1)
             /\ w_replay_buffer C w1 = w_replay_buffer C w).
  { destruct (env_game_over C (w_env C w)).
    - destruct (reset_total (w_env C w)) as (t1 & env' & Hr).
      exists t1. eexists. split; [apply reset_returns, Hr | reflexivity].
    - exists t, w. split; reflexivity. }
  destruct Hgo as (t1 & w1 & Hgo & Hrb1).
  unfold bind at 1. unfold game_over at 1.
  rewrite (bind_returns _ _ _ _ _ Hgo).
  destruct (policy_action C random_policy (w_agent C w1) t1)
    as [a ag] eqn:Ha.
  rewrite (bind_returns _ _ _ _ _ (action_returns _ _ _ _ _ Ha)).
  destruct (step_total (w_env C w1) (policy_step.action a))
    as (t2 & env2 & Hst).
  erewrite bind_returns; [|apply step_returns; exact Hst].
  rewrite (bind_returns _ _ _ _ _ (add_batch_returns _ _)).
  match goal with
  | |- exists w', _initial_collect_loop C cfg fuel t2 ?w2 = _ /\ _ =>
    destruct (IH fuel t2 w2) as (w' & Hw' & Hsz)
  end.
  - simpl w_replay_buffer. rewrite Hrb1, size_add_batch by lia. lia.
  - lia.
  - simpl w_replay_buffer. rewrite capacity_add_batch, Hrb1. exact Hc.
  - exists w'. split; [exact Hw'|].
    rewrite Hsz. simpl w_replay_buffer.
    rewrite Hrb1, size_add_batch by lia. lia.
Qed.

(** With fuel for one turn of the loop per missing entry, and a buffer
    that can hold them, the initial collection returns with the buffer
    at the target size, having triggered no learning update. *)
Lemma initial_collect_reaches_target fuel w :
  (Z.to_nat
     (initial_collect_target - replay_buffer.size (w_replay_buffer C w))
   < fuel)%nat ->
  initial_collect_target
  <= Z.of_nat (replay_buffer.capacity (w_replay_buffer C w)) ->
  exists w',
    _initial_collect C cfg fuel w = (Returns tt, w')
    /\ replay_buffer.size (w_replay_buffer C w')
       = Z.max (replay_buffer.size (w_replay_buffer C w))
               initial_collect_target
    /\ count is_train_step (w_trace C w')
       = count is_train_step (w_trace C w).
Proof using reset_total step_total.
  intros Hf Hc. unfold _initial_collect.
  destruct (reset_total (w_env C w)) as (t & env' & Hr).
  destruct (initial_collect_loop_reaches_target
              (Z.to_nat (initial_collect_target
                         - replay_buffer.size (w_replay_buffer C w)))
              fuel t (set_env C env' (log C EvReset w)))
    as (w' & Hw' & Hsz);
    [simpl w_replay_buffer; lia | exact Hf | exact Hc |].
  assert (Hrun : _initial_collect C cfg fuel w = (Returns tt, w')).
  { unfold _initial_collect.
    erewrite bind_returns; [exact Hw' | apply reset_returns, Hr]. }
  exists w'. split; [exact Hrun|]. split; [exact Hsz|].
  change w' with (snd (Returns (C := C) tt, w')). rewrite <- Hrun.
  apply keeps_traced_count, keeps_train_steps_initial_collect.
Qed.

End TotalEnvironment.

(* ================================================================== *)
(** ** Rewards written by the driver *)

(** A write to the buffer whose reward lies outside of [-1, 1]. *)
Definition out_of_range (e : Event) : bool :=
  match e with
  | EvAddBatch t =>
    negb (Qle_bool (-1) (trajectory.reward t)
          && Qle_bool (trajectory.reward t) 1)
  | _ => false
  end.

Lemma out_of_range_clipped (t : Trajectory) :
  out_of_range (EvAddBatch (clipped t)) = false.
Proof.
  unfold out_of_range, clipped. simpl.
  destruct (np_clip_bounds (trajectory.reward t) (-1) 1) as [Hl Hh];
    [discriminate|].
  apply Qle_bool_iff in Hl. apply Qle_bool_iff in Hh.
  rewrite Hl, Hh. reflexivity.
Qed.

Lemma keeps_out_of_range_store_to_rb t :
  keeps (traced out_of_range) (_store_to_rb C t).
Proof.
  unfold _store_to_rb. apply keeps_add_batch.
  apply (out_of_range_clipped t).
Qed.

Lemma keeps_out_of_range_collect_step t policy ms train :
  keeps (traced out_of_range) (_collect_step C t policy ms train).
Proof.
  pose proof keeps_out_of_range_store_to_rb as Hs.
  unfold _collect_step.
  repeat (intros; cbv beta zeta;
    first
      [ apply Hs | apply keeps_ret | apply keeps_life_lost
      | apply keeps_step | apply keeps_observe | apply keeps_action
      | apply keeps_emit_traced | apply local_traced
      | apply keeps_when | apply keeps_bind
      | match goal with
        | |- keeps _ (if ?b then _ else _) => destruct b
        end
      | reflexivity ]).
Qed.

Lemma keeps_out_of_range_run_episode_loop fuel ms train :
  forall t n,
    keeps (traced out_of_range) (_run_episode_loop C cfg fuel ms train t n).
Proof.
  induction fuel as [|fuel IH]; intros t n; simpl.
  - apply keeps_out_of_fuel.
  - apply keeps_bind; [apply keeps_out_of_range_collect_step|].
    keeps_go.
Qed.

(** Every reward [_run_episode] writes to the buffer lies in [-1, 1]. *)
Lemma run_episode_writes_clipped_rewards fuel ms train w :
  traced out_of_range (snd (_run_episode C cfg fuel ms train w))
  = traced out_of_range w.
Proof.
  revert w. change (keeps (traced out_of_range)
                          (_run_episode C cfg fuel ms train)).
  unfold _run_episode. apply keeps_bind; [keeps_go|].
  intro t. apply keeps_out_of_range_run_episode_loop.
Qed.

End Facts.

(* ================================================================== *)
(** ** The exploration schedule *)






(* ================================================================== *)
(** ** The driver on the stub emulators *)

(** The action of the stub policy. *)
Definition stub_action : policy_step.PolicyStep unit unit :=
  policy_step.mk tt tt.

(** Step budgets of 20 agent steps, an update period of 5 agent steps and
    an initial collection of 50 agent steps, in ALE frames. *)
Definition scenario_config : Config := config 200 80 20 80.

(** The fifth collect step of an episode of [life_loss5]: four steps have
    been taken, the fifth loses a life. *)
Definition before_life_loss : World (stub life_loss5) :=
  stub_world_at life_loss5 100 4.
Definition step4 : ts.TimeStep nat := ts.mk ts.MID 1 1 4%nat.
Definition step5 : ts.TimeStep nat := ts.mk ts.LAST 1 0 5%nat.
Definition step6 : ts.TimeStep nat := ts.mk ts.MID 1 1 6%nat.

Lemma life_lost_at_step5 :
  life_lost_at (stub life_loss5) before_life_loss step4 collect_policy
               stub_action tt step5 5%nat.
Proof. repeat split. Qed.

Lemma restarted_at_step6 :
  restarted_at (stub life_loss5) collect_policy tt step5 5%nat
               stub_action tt step6 6%nat.
Proof. repeat split. Qed.

(** C1, as stated, fails: at the life-loss boundary of [life_loss5] a
    collect step in TRAIN mode writes two transitions to the buffer, the
    boundary-crossing transition and the one from the restart. *)
Lemma life_loss_writes_two_not_one :
  life_lost_at (stub life_loss5) before_life_loss step4 collect_policy
               stub_action tt step5 5%nat
  /\ added (w_trace _ (snd (_collect_step (stub life_loss5) step4
                              collect_policy [AverageReturnMetric] true
                              before_life_loss)))
     = [trajectory.mk ts.MID 4%nat tt tt ts.LAST 1 1;
        trajectory.mk ts.FIRST 5%nat tt tt ts.MID 1 1]
  /\ ~ (exists b,
           added (w_trace _ (snd (_collect_step (stub life_loss5) step4
                                    collect_policy [AverageReturnMetric]
                                    true before_life_loss)))
           = [b]).
Proof.
  split; [exact life_lost_at_step5|]. split; [reflexivity|].
  intros [b H]. discriminate H.
Qed.

Lemma life_loss_writes_boundary_and_restart_witness :
  life_lost_at (stub life_loss5) before_life_loss step4 collect_policy
               stub_action tt step5 5%nat
  /\ restarted_at (stub life_loss5) collect_policy tt step5 5%nat
                  stub_action tt step6 6%nat
  /\ exists w',
      _collect_step (stub life_loss5) step4 collect_policy
                    [AverageReturnMetric] true before_life_loss
      = (Returns step6, w')
      /\ added (w_trace _ w')
         = [clipped (boundary_traj step4 stub_action step5);
            clipped (restart_traj step5 stub_action step6)].
Proof.
  split; [exact life_lost_at_step5|]. split; [exact restarted_at_step6|].
  destruct (life_loss_writes_boundary_and_restart (stub life_loss5)
              before_life_loss step4 collect_policy [AverageReturnMetric]
              stub_action tt step5 5%nat stub_action tt step6 6%nat
              life_lost_at_step5 restarted_at_step6)
    as (w' & Hc & Ha & _).
  exists w'. split; [exact Hc | exact Ha].
Defined.

(** C2, as stated, fails: the two transitions the observer receives at
    the life-loss boundary of [life_loss5] carry the rewards of the two
    steps of the environment, 1 and 1, which do not sum to the reward 1 of
    the boundary-crossing step. *)
Lemma life_loss_observed_rewards_not_conserved :
  life_lost_at (stub life_loss5) before_life_loss step4 collect_policy
               stub_action tt step5 5%nat
  /\ map (fun c => trajectory.reward (snd c))
         (observer_calls
            (w_trace _ (snd (_collect_step (stub life_loss5) step4
                               collect_policy [AverageReturnMetric] true
                               before_life_loss))))
     = [1%Q; 1%Q]
  /\ ~ (1 + 1 == ts.reward step5)%Q.
Proof.
  split; [exact life_lost_at_step5|]. split; [reflexivity|].
  intro H. discriminate H.
Qed.

Lemma life_loss_observers_called_twice_witness :
  life_lost_at (stub life_loss5) before_life_loss step4 collect_policy
               stub_action tt step5 5%nat
  /\ restarted_at (stub life_loss5) collect_policy tt step5 5%nat
                  stub_action tt step6 6%nat
  /\ exists w',
      _collect_step (stub life_loss5) step4 collect_policy
                    [AverageReturnMetric] false before_life_loss
      = (Returns step6, w')
      /\ observer_calls (w_trace _ w')
         = [(AverageReturnMetric, metric_traj_a step4 stub_action step5);
            (AverageReturnMetric,
             metric_traj_b step4 step5 stub_action step6)].
Proof.
  split; [exact life_lost_at_step5|]. split; [exact restarted_at_step6|].
  destruct (life_loss_observers_called_twice (stub life_loss5)
              scenario_config
              before_life_loss step4 collect_policy [AverageReturnMetric]
              stub_action tt step5 5%nat stub_action tt step6 6%nat false
              life_lost_at_step5 restarted_at_step6)
    as (w' & Hc & Ho & _).
  exists w'. split; [exact Hc | exact Ho].
Defined.

Lemma life_loss_discount_overridden_witness :
  life_lost_at (stub life_loss5) before_life_loss step4 collect_policy
               stub_action tt step5 5%nat
  /\ ts.discount step5 = 0%Q
  /\ trajectory.discount (clipped (boundary_traj step4 stub_action step5))
     = 1%Q
  /\ trajectory.discount (metric_traj_a step4 stub_action step5) = 1%Q.
Proof.
  split; [exact life_lost_at_step5|]. split; [reflexivity|].
  destruct (life_loss_discount_overridden (stub life_loss5)
              before_life_loss step4 collect_policy [AverageReturnMetric]
              stub_action tt step5 5%nat true life_lost_at_step5)
    as (rest & _ & Hs & Ho).
  split; [exact Hs | exact Ho].
Defined.

(** An emulator that loses a life on step 5 and again on step 6 of an
    episode of 10 steps. *)
Definition twice_lost_step (c : nat) (_ : unit)
    : StubExn + (ts.TimeStep nat * nat) :=
  let c' := S c in
  if Nat.eqb c' 5 || Nat.eqb c' 6 || Nat.eqb c' 10
  then inr (ts.mk ts.LAST 1 0%Q c', c')
  else inr (ts.mk ts.MID 1 1%Q c', c').

Definition twice_lost : Collaborators nat unit unit :=
  mkCollaborators
    nat StubExn (stub_reset fixed10) twice_lost_step (stub_game_over fixed10)
    unit (fun _ ag _ => (policy_step.mk tt tt, ag))
    (fun ag _ => ag)
    count_transitions.

Definition before_two_losses : World twice_lost :=
  mkWorld twice_lost 4%nat tt (replay_buffer.mk 100 []) 0 0 [].

Definition lost_again : ts.TimeStep nat := ts.mk ts.LAST 1 0 6%nat.

(** C3, at the failing input.  On [twice_lost] the collect step that
    crosses the life loss of step 5 takes its extra step across the life
    loss of step 6: the timestep it gets, [lost_again], is LAST with the
    discount 0 of the environment, and the emulator does not report that
    the game is over.  The test of lines 500-501 is made for the first
    step only: the transition assembled from the extra step is written
    to the replay buffer and handed to the observer with discount 0, not
    1. *)
Theorem life_loss_on_extra_step_keeps_discount :
  exists w',
    _collect_step twice_lost step4 collect_policy [AverageReturnMetric]
                  true before_two_losses
    = (Returns lost_again, w')
    /\ ts.is_last lost_again = true
    /\ env_game_over twice_lost (w_env _ w') = false
    /\ added (w_trace _ w')
       = [trajectory.mk ts.MID 4%nat tt tt ts.LAST 1 1;
          trajectory.from_transition (ts.restart 5%nat) stub_action
                                     lost_again]
    /\ observer_calls (w_trace _ w')
       = [(AverageReturnMetric,
           trajectory.mk ts.MID 4%nat tt tt ts.MID 1 1);
          (AverageReturnMetric,
           trajectory.from_transition (ts.transition 5%nat 1) stub_action
                                      lost_again)]
    /\ replay_buffer.items (w_replay_buffer _ w')
       = [trajectory.mk ts.MID 4%nat tt tt ts.LAST 1 1;
          trajectory.mk ts.FIRST 5%nat tt tt ts.LAST 1 0]
    /\ trajectory.next_step_type
         (trajectory.from_transition (ts.restart 5%nat) stub_action
                                     lost_again)
       = ts.LAST
    /\ trajectory.discount
         (trajectory.from_transition (ts.restart 5%nat) stub_action
                                     lost_again)
       = 0%Q
    /\ trajectory.discount
         (trajectory.from_transition (ts.transition 5%nat 1) stub_action
                                     lost_again)
       = 0%Q
    /\ ~ (0 == 1)%Q.
Proof.
  eexists. split; [vm_compute; reflexivity|].
  repeat split; try (vm_compute; reflexivity).
  intro H. discriminate H.
Qed.

(** C4, as stated, fails: with episodes of 10 steps a train phase with a
    budget of 20 agent steps and an update period of 5 runs two episodes
    and triggers two learning updates, not four; the counter of
    environment steps passes 5, 10, 15 and 20, but at 10 and 20 the game
    is over and the loop is left before the test of the period. *)
Lemma train_phase_two_updates_not_four :
  fst (train_phase (stub fixed10) scenario_config 12
                   (stub_world fixed10 100))
  = Returns 20
  /\ w_env_steps_metric _
       (snd (train_phase (stub fixed10) scenario_config 12
                         (stub_world fixed10 100)))
     = 20
  /\ count is_train_step
       (w_trace _ (snd (train_phase (stub fixed10) scenario_config 12
                                    (stub_world fixed10 100))))
     = 2
  /\ count is_train_step
       (w_trace _ (snd (train_phase (stub fixed10) scenario_config 12
                                    (stub_world fixed10 100))))
     <> 4.
Proof.
  split; [vm_compute; reflexivity|]. split; [vm_compute; reflexivity|].
  split; [vm_compute; reflexivity|]. vm_compute. discriminate.
Qed.

(** C4 (as amended).  After each collect step of [_run_episode] a
    learning update is triggered exactly when the run is in TRAIN mode,
    the emulator does not report that the game is over, and the result of
    [EnvironmentSteps] is a multiple of the update period in agent steps;
    the collect step itself triggers none.  On the emulator [fixed21],
    whose single episode has 21 steps and no life loss, a train phase
    with a budget of 20 agent steps and an update period of 5 that starts
    with [EnvironmentSteps] at 0 takes the 21 steps and triggers exactly
    4 learning updates. *)
Theorem learning_update_when_due_and_game_not_over :
  (forall Obs Act Info (C : Collaborators Obs Act Info) cfg
          fuel ms train t n w next w',
      _collect_step C t collect_policy ms train w = (Returns next, w') ->
      count is_train_step (w_trace C w') = count is_train_step (w_trace C w)
      /\ _run_episode_loop C cfg (S fuel) ms train t n w
         = (if env_game_over C (w_env C w')
            then (Returns (n + 1), w')
            else _run_episode_loop C cfg fuel ms train next (n + 1)
                   (update_w C (update_due C cfg train w') w'))
      /\ count is_train_step
           (w_trace C (update_w C (update_due C cfg train w') w'))
         = count is_train_step (w_trace C w')
           + (if update_due C cfg train w' then 1 else 0)
      /\ update_due C cfg false w' = false
      /\ (forall p, 0 < p -> update_period cfg = 4 * p ->
          update_due C cfg train w'
          = train && (w_env_steps_metric C w' mod p =? 0)))
  /\ fst (train_phase (stub fixed21) scenario_config 23
                      (stub_world fixed21 100))
     = Returns 21
  /\ count is_train_step
       (w_trace _ (snd (train_phase (stub fixed21) scenario_config 23
                                    (stub_world fixed21 100))))
     = 4.
Proof.
  split; [|split; vm_compute; reflexivity].
  intros Obs Act Info C cfg fuel ms train t n w next w' H.
  destruct (learning_update_trigger C cfg fuel ms train t n w next w' H)
    as (H1 & H2 & H3 & H4).
  repeat split; try assumption.
Qed.

(** The world of [fixed21] in which four steps of the episode have been
    taken and counted. *)
Definition four_steps_counted : World (stub fixed21) :=
  mkWorld (stub fixed21) 4%nat tt (replay_buffer.mk 100 []) 4 0 [].

Lemma learning_update_when_due_and_game_not_over_witness :
  _collect_step (stub fixed21) step4 collect_policy _train_metrics true
                four_steps_counted
  = (Returns (ts.mk ts.MID 1 1 5%nat),
     snd (_collect_step (stub fixed21) step4 collect_policy _train_metrics
                        true four_steps_counted))
  /\ update_due (stub fixed21) scenario_config true
       (snd (_collect_step (stub fixed21) step4 collect_policy
                           _train_metrics true four_steps_counted))
     = true.
Proof.
  assert (H : _collect_step (stub fixed21) step4 collect_policy
                            _train_metrics true four_steps_counted
              = (Returns (ts.mk ts.MID 1 1 5%nat),
                 snd (_collect_step (stub fixed21) step4 collect_policy
                                    _train_metrics true four_steps_counted)))
    by reflexivity.
  split; [exact H|].
  destruct (proj1 learning_update_when_due_and_game_not_over
              nat unit unit (stub fixed21) scenario_config
              O _train_metrics true step4 0 four_steps_counted _ _ H)
    as (_ & _ & _ & _ & Hp).
  rewrite (Hp 5); reflexivity.
Defined.

(** C5: the failing input.  The initial collection on an emulator whose
    every step pays a reward of 5 fills the buffer with 50 transitions
    that all carry the reward 5: [_initial_collect] calls [add_batch]
    itself and does not go through [_store_to_rb], which clips. *)
Theorem initial_collect_stores_unclipped_rewards :
  fst (_initial_collect (stub reward5) scenario_config 51
                        (stub_world reward5 100))
  = Returns tt
  /\ map trajectory.reward
         (replay_buffer.items
            (w_replay_buffer _
               (snd (_initial_collect (stub reward5) scenario_config 51
                                      (stub_world reward5 100)))))
     = repeat 5%Q 50
  /\ ~ (5 <= 1)%Q.
Proof.
  split; [vm_compute; reflexivity|]. split; [vm_compute; reflexivity|].
  intro H. apply H. reflexivity.
Qed.

Lemma initial_collect_target_whole (cfg : Config) (k : Z) :
  initial_collect_steps cfg = 4 * k -> initial_collect_target cfg = k.
Proof.
  intro H. unfold initial_collect_target, _initial_collect_steps,
             ATARI_FRAME_SKIP.
  rewrite H.
  assert (E : (inject_Z (4 * k) / inject_Z 4 == inject_Z k)%Q).
  { unfold Qeq, Qdiv, Qmult, Qinv, inject_Z. cbn [Qnum Qden Pos.mul]. lia. }
  rewrite E. apply Qceiling_Z.
Qed.

(** C7.  With a capacity of 100 and an initial collection of 50 agent
    steps (200 ALE frames), the initial collection on the emulator with
    episodes of 10 steps resets the emulator 5 times, steps it 50 times,
    leaves 50 entries in the buffer and triggers no learning update.  In
    general, on an environment that does not raise and with a buffer that
    can hold them, the initial collection returns once the buffer holds
    [initial_collect_steps / 4] entries, rounded up, and no sooner; it
    never triggers a learning update. *)
Theorem initial_collect_fills_to_threshold :
  (fst (_initial_collect (stub fixed10) scenario_config 51
                         (stub_world fixed10 100))
   = Returns tt
   /\ replay_buffer.size
        (w_replay_buffer _
           (snd (_initial_collect (stub fixed10) scenario_config 51
                                  (stub_world fixed10 100))))
      = 50
   /\ count is_reset
        (w_trace _ (snd (_initial_collect (stub fixed10) scenario_config 51
                                          (stub_world fixed10 100))))
      = 5
   /\ count is_env_step
        (w_trace _ (snd (_initial_collect (stub fixed10) scenario_config 51
                                          (stub_world fixed10 100))))
      = 50
   /\ count is_train_step
        (w_trace _ (snd (_initial_collect (stub fixed10) scenario_config 51
                                          (stub_world fixed10 100))))
      = 0)
  /\ (forall Obs Act Info (C : Collaborators Obs Act Info) cfg fuel w,
         (forall env, exists t env', env_reset C env = inr (t, env')) ->
         (forall env a, exists t env', env_step C env a = inr (t, env')) ->
         (Z.to_nat
            (initial_collect_target cfg
             - replay_buffer.size (w_replay_buffer C w))
          < fuel)%nat ->
         initial_collect_target cfg
         <= Z.of_nat (replay_buffer.capacity (w_replay_buffer C w)) ->
         exists w',
           _initial_collect C cfg fuel w = (Returns tt, w')
           /\ replay_buffer.size (w_replay_buffer C w')
              = Z.max (replay_buffer.size (w_replay_buffer C w))
                      (initial_collect_target cfg)
           /\ count is_train_step (w_trace C w')
              = count is_train_step (w_trace C w))
  /\ (forall Obs Act Info (C : Collaborators Obs Act Info) cfg fuel w,
         count is_train_step
           (w_trace C (snd (_initial_collect C cfg fuel w)))
         = count is_train_step (w_trace C w))
  /\ (forall cfg k,
         initial_collect_steps cfg = 4 * k ->
         initial_collect_target cfg = k).
Proof.
  split; [repeat split; vm_compute; reflexivity|].
  split; [|split].
  - intros Obs Act Info C cfg fuel w Hr Hs Hf Hc.
    exact (initial_collect_reaches_target C cfg Hr Hs fuel w Hf Hc).
  - intros Obs Act Info C cfg fuel w.
    apply keeps_traced_count, keeps_train_steps_initial_collect.
  - exact initial_collect_target_whole.
Qed.

Lemma fixed10_reset_total :
  forall env, exists t env', env_reset (stub fixed10) env = inr (t, env').
Proof. intro env. eexists. eexists. reflexivity. Qed.

Lemma fixed10_step_total :
  forall env a, exists t env', env_step (stub fixed10) env a = inr (t, env').
Proof.
  intros env a. simpl. unfold stub_step. simpl.
  destruct (_ || _); eexists; eexists; reflexivity.
Qed.

Lemma initial_collect_fills_to_threshold_witness :
  initial_collect_target scenario_config = 50
  /\ exists w',
      _initial_collect (stub fixed10) scenario_config 51
                       (stub_world fixed10 100)
      = (Returns tt, w')
      /\ replay_buffer.size (w_replay_buffer _ w') = 50.
Proof.
  assert (Ht : initial_collect_target scenario_config = 50)
    by (apply (proj2 (proj2 (proj2 initial_collect_fills_to_threshold)));
        reflexivity).
  split; [exact Ht|].
  destruct (proj1 (proj2 initial_collect_fills_to_threshold)
              nat unit unit (stub fixed10) scenario_config 51%nat
              (stub_world fixed10 100)
              fixed10_reset_total fixed10_step_total)
    as (w' & Hw & Hs & _).
  - rewrite Ht. vm_compute. lia.
  - rewrite Ht. vm_compute. discriminate.
  - exists w'. split; [exact Hw|]. rewrite Hs, Ht. reflexivity.
Defined.

(** An episode of [life_loss5] in TRAIN mode: 9 collect steps, 10 steps
    of the environment. *)
Lemma steps_taken_counts_collect_steps_witness :
  life_lost_at (stub life_loss5) before_life_loss step4 collect_policy
               stub_action tt step5 5%nat
  /\ restarted_at (stub life_loss5) collect_policy tt step5 5%nat
                  stub_action tt step6 6%nat
  /\ fst (_run_episode (stub life_loss5) scenario_config 10 _train_metrics
                       true (stub_world life_loss5 100))
     = Returns 9
  /\ count is_collect_step
       (w_trace _ (snd (_run_episode (stub life_loss5) scenario_config 10
                                     _train_metrics true
                                     (stub_world life_loss5 100))))
     = 9
  /\ count is_env_step
       (w_trace _ (snd (_run_episode (stub life_loss5) scenario_config 10
                                     _train_metrics true
                                     (stub_world life_loss5 100))))
     = 10.
Proof.
  split; [exact life_lost_at_step5|]. split; [exact restarted_at_step6|].
  assert (H : _run_episode (stub life_loss5) scenario_config 10
                           _train_metrics true (stub_world life_loss5 100)
              = (Returns 9,
                 snd (_run_episode (stub life_loss5) scenario_config 10
                                   _train_metrics true
                                   (stub_world life_loss5 100))))
    by (vm_compute; reflexivity).
  split; [rewrite H; reflexivity|]. split.
  - pose proof (proj1 (proj2 (steps_taken_counts_collect_steps
                                (stub life_loss5) scenario_config))
                  _ _ _ _ _ _ H) as Hn.
    change (count is_collect_step
              (w_trace (stub life_loss5) (stub_world life_loss5 100)))
      with 0 in Hn.
    rewrite Z.sub_0_r in Hn. symmetry. exact Hn.
  - vm_compute. reflexivity.
Defined.

(** The worlds of the crashing emulators just before the crash. *)
Definition before_crash3 : World (stub crash3) := stub_world_at crash3 100 2.
Definition before_crash6 : World (stub crash6) := stub_world_at crash6 100 4.

(** Budgets under which the first episode of [run] belongs to the train
    phase, or to the eval phase: nothing is asked of the initial
    collection, and in the second nothing of the train phase either. *)
Definition train_first_config : Config := config 0 80 20 80.
Definition eval_first_config : Config := config 0 0 20 80.

Lemma environment_failure_is_fatal_witness :
  env_reset (stub crash_reset) (w_env _ (stub_world crash_reset 100))
  = inl EmulatorCrashed
  /\ fst (_run_episode (stub crash_reset) scenario_config 10 _train_metrics
                       true (stub_world crash_reset 100))
     = Raises (C := stub crash_reset) EmulatorCrashed
  /\ fst (_collect_step (stub crash3) (ts.mk ts.MID 1 1 2%nat)
                        collect_policy _train_metrics true before_crash3)
     = Raises (C := stub crash3) EmulatorCrashed
  /\ fst (_collect_step (stub crash6) step4 collect_policy _train_metrics
                        true before_crash6)
     = Raises (C := stub crash6) EmulatorCrashed
  /\ fst (run (stub crash3) scenario_config 60 (stub_world crash3 100))
     = Raises (C := stub crash3) EmulatorCrashed
  /\ failed_at (stub crash3)
       (snd (run (stub crash3) scenario_config 60 (stub_world crash3 100)))
       EmulatorCrashed
  /\ fst (_initial_collect (stub crash3) train_first_config 60
                           (stub_world crash3 100))
     = Returns tt
  /\ fst (train_phase (stub crash3) train_first_config 59
                      (snd (_initial_collect (stub crash3)
                              train_first_config 60
                              (stub_world crash3 100))))
     = Raises (C := stub crash3) EmulatorCrashed
  /\ fst (run (stub crash3) train_first_config 60 (stub_world crash3 100))
     = Raises (C := stub crash3) EmulatorCrashed
  /\ fst (_initial_collect (stub crash3) eval_first_config 60
                           (stub_world crash3 100))
     = Returns tt
  /\ fst (train_phase (stub crash3) eval_first_config 59
                      (snd (_initial_collect (stub crash3)
                              eval_first_config 60
                              (stub_world crash3 100))))
     = Returns 0
  /\ fst (eval_phase (stub crash3) eval_first_config 59
                     (snd (_initial_collect (stub crash3)
                             eval_first_config 60
                             (stub_world crash3 100))))
     = Raises (C := stub crash3) EmulatorCrashed
  /\ fst (run (stub crash3) eval_first_config 60 (stub_world crash3 100))
     = Raises (C := stub crash3) EmulatorCrashed.
Proof.
  destruct (environment_failure_is_fatal (stub crash_reset) scenario_config)
    as (Hreset & _).
  destruct (environment_failure_is_fatal (stub crash3) scenario_config)
    as (_ & Hstep & _ & _ & _ & _ & _ & _ & Hrun & _).
  destruct (environment_failure_is_fatal (stub crash6) scenario_config)
    as (_ & _ & Hextra & _).
  destruct (environment_failure_is_fatal (stub crash3) train_first_config)
    as (_ & _ & _ & _ & _ & _ & Htrain & _ & _ & _ & _ & _ & _ & _ & _ & _
        & _ & Hloop & _).
  destruct (environment_failure_is_fatal (stub crash3) eval_first_config)
    as (_ & _ & _ & _ & _ & _ & _ & _ & _ & _ & _ & _ & _ & Heval & _ & _
        & _ & Hloop' & _).
  assert (H0 : env_reset (stub crash_reset)
                         (w_env _ (stub_world crash_reset 100))
               = inl EmulatorCrashed) by reflexivity.
  split; [exact H0|]. split.
  { rewrite (Hreset 10%nat _train_metrics true _ _ H0). reflexivity. }
  split.
  { apply (Hstep before_crash3 (ts.mk ts.MID 1 1 2%nat) collect_policy
                 _train_metrics stub_action tt EmulatorCrashed true);
      reflexivity. }
  split.
  { apply (Hextra before_crash6 step4 collect_policy _train_metrics
                  stub_action tt step5 5%nat stub_action tt
                  EmulatorCrashed true);
      [repeat split | reflexivity | reflexivity]. }
  assert (Hr : run (stub crash3) scenario_config 60 (stub_world crash3 100)
               = (Raises (C := stub crash3) EmulatorCrashed,
                  snd (run (stub crash3) scenario_config 60
                           (stub_world crash3 100))))
    by (vm_compute; reflexivity).
  split; [rewrite Hr; reflexivity|].
  split; [exact (Hrun _ _ _ _ Hr)|].
  (* the first episode of the train phase crashes *)
  assert (Hi : _initial_collect (stub crash3) train_first_config 60
                                (stub_world crash3 100)
               = (Returns tt,
                  snd (_initial_collect (stub crash3) train_first_config 60
                                        (stub_world crash3 100))))
    by (vm_compute; reflexivity).
  assert (Ht : train_phase (stub crash3) train_first_config 59
                 (snd (_initial_collect (stub crash3) train_first_config 60
                                        (stub_world crash3 100)))
               = (Raises (C := stub crash3) EmulatorCrashed,
                  snd (train_phase (stub crash3) train_first_config 59
                         (snd (_initial_collect (stub crash3)
                                 train_first_config 60
                                 (stub_world crash3 100))))))
    by (vm_compute; reflexivity).
  split; [rewrite Hi; reflexivity|].
  split; [rewrite Ht; reflexivity|].
  split.
  { erewrite (Hloop 60%nat _ _ _ _ Hi); [reflexivity|].
    apply Htrain; [reflexivity | exact Ht]. }
  (* no train episode, and the first episode of the eval phase crashes *)
  assert (Hi' : _initial_collect (stub crash3) eval_first_config 60
                                 (stub_world crash3 100)
                = (Returns tt,
                   snd (_initial_collect (stub crash3) eval_first_config 60
                                         (stub_world crash3 100))))
    by (vm_compute; reflexivity).
  assert (Ht' : train_phase (stub crash3) eval_first_config 59
                  (snd (_initial_collect (stub crash3) eval_first_config 60
                                         (stub_world crash3 100)))
                = (Returns 0,
                   snd (_initial_collect (stub crash3) eval_first_config 60
                                         (stub_world crash3 100))))
    by (vm_compute; reflexivity).
  assert (He : eval_phase (stub crash3) eval_first_config 59
                 (snd (_initial_collect (stub crash3) eval_first_config 60
                                        (stub_world crash3 100)))
               = (Raises (C := stub crash3) EmulatorCrashed,
                  snd (eval_phase (stub crash3) eval_first_config 59
                         (snd (_initial_collect (stub crash3)
                                 eval_first_config 60
                                 (stub_world crash3 100))))))
    by (vm_compute; reflexivity).
  split; [rewrite Hi'; reflexivity|].
  split; [rewrite Ht'; reflexivity|].
  split; [rewrite He; reflexivity|].
  erewrite (Hloop' 60%nat _ _ _ _ Hi'); [reflexivity|].
  eapply Heval; [reflexivity | exact Ht' | reflexivity | exact He].
Defined.


(* ================================================================== *)
(** ** Further properties of the driver *)

Section Driver.

Context {Obs Act Info : Type}.
Variable C : Collaborators Obs Act Info.
Variable cfg : Config.

Local Abbreviation World := (World C).
Local Abbreviation M := (M C).
Local Abbreviation Event := (@Event Obs Act Info).
Local Abbreviation TimeStep := (@TimeStep Obs).
Local Abbreviation PolicyStep := (@PolicyStep Act Info).
Local Abbreviation Trajectory := (@Trajectory Obs Act Info).

(** A primitive call keeps [f]: by computation on the fields of the
    world. *)
Ltac keeps_prim :=
  intro;
  cbv [ret out_of_fuel emit game_over action add_batch replay_buffer_size
       observer env_steps_metric_result iteration_metric_result
       iteration_metric_call _train_step_call life_lost bind reset step
       _store_to_rb when];
  repeat match goal with
         | |- context [match ?x with _ => _ end] => destruct x
         end;
  reflexivity.

(** *** Rewards on the driver path *)

Definition in_range (t : Trajectory) : Prop :=
  (-1 <= trajectory.reward t <= 1)%Q.

Lemma out_of_range_spec (t : Trajectory) :
  out_of_range (EvAddBatch t) = false <-> in_range t.
Proof.
  unfold out_of_range, in_range. rewrite negb_false_iff, andb_true_iff.
  rewrite !Qle_bool_iff. reflexivity.
Qed.

Lemma no_out_of_range_spec (tr : list Event) :
  filter out_of_range tr = [] <-> Forall in_range (added tr).
Proof.
  induction tr as [|e tr IH]; simpl.
  - split; [constructor | reflexivity].
  - destruct e; try exact IH.
    change (match out_of_range (EvAddBatch t) with
            | true => EvAddBatch t :: filter out_of_range tr
            | false => filter out_of_range tr
            end = [] <-> Forall in_range (t :: added tr)).
    destruct (out_of_range (EvAddBatch t)) eqn:E.
    + split; [discriminate|]. intro H. inversion H; subst.
      apply out_of_range_spec in H2. congruence.
    + rewrite IH. split.
      * intro H. constructor; [apply out_of_range_spec, E | exact H].
      * intro H. inversion H; assumption.
Qed.

Lemma keeps_out_of_range_train_phase_loop fuel :
  forall n, keeps C (traced C out_of_range) (train_phase_loop C cfg fuel n).
Proof.
  induction fuel as [|fuel IH]; intro n; simpl.
  - apply keeps_out_of_fuel.
  - destruct (Qle_bool _ _); [apply keeps_ret|].
    apply keeps_bind.
    + intro w. apply run_episode_writes_clipped_rewards.
    + intro. apply IH.
Qed.

Lemma keeps_out_of_range_eval_phase_loop fuel :
  forall n, keeps C (traced C out_of_range) (eval_phase_loop C cfg fuel n).
Proof.
  induction fuel as [|fuel IH]; intro n; simpl.
  - apply keeps_out_of_fuel.
  - destruct (Qle_bool _ _); [apply keeps_ret|].
    apply keeps_bind.
    + intro w. apply run_episode_writes_clipped_rewards.
    + intro. apply IH.
Qed.

(** X1.  On the driver path every reward written to the replay buffer
    lies in [-1, 1]: if the writes made so far are in range, so are the
    writes after an episode, a train phase or an eval phase, however it
    ends.  What [_store_to_rb] writes for an already clipped trajectory
    is that trajectory. *)
Theorem episodes_write_rewards_in_range fuel ms train w :
  Forall in_range (added (w_trace C w)) ->
  Forall in_range
    (added (w_trace C (snd (_run_episode C cfg fuel ms train w))))
  /\ Forall in_range (added (w_trace C (snd (train_phase C cfg fuel w))))
  /\ Forall in_range (added (w_trace C (snd (eval_phase C cfg fuel w))))
  /\ (forall t : Trajectory, clipped (clipped t) = clipped t).
Proof.
  intro H. apply no_out_of_range_spec in H.
  repeat split.
  - apply no_out_of_range_spec.
    change (traced C out_of_range
              (snd (_run_episode C cfg fuel ms train w)) = []).
    rewrite run_episode_writes_clipped_rewards. exact H.
  - apply no_out_of_range_spec.
    change (traced C out_of_range (snd (train_phase C cfg fuel w)) = []).
    unfold train_phase. rewrite keeps_out_of_range_train_phase_loop.
    exact H.
  - apply no_out_of_range_spec.
    change (traced C out_of_range (snd (eval_phase C cfg fuel w)) = []).
    unfold eval_phase. rewrite keeps_out_of_range_eval_phase_loop.
    exact H.
  - intro t. unfold clipped. simpl.
    rewrite np_clip_idempotent. reflexivity.
Qed.

(** *** A collect step away from a life loss *)

Lemma collect_step_ordinary w time_step policy ms a1 ag1 n1 e1 train :
  policy_action C policy (w_agent C w) time_step = (a1, ag1) ->
  env_step C (w_env C w) (policy_step.action a1) = inr (n1, e1) ->
  ts.is_last n1 && negb (env_game_over C e1) = false ->
  _collect_step C time_step policy ms train w
  = (Returns n1,
     observe_w C ms (trajectory.from_transition time_step a1 n1)
       (store_when C train (trajectory.from_transition time_step a1 n1)
          (set_env C e1
             (log C (EvStep (policy_step.action a1))
                (set_agent C ag1 (log C EvCollectStep w)))))).
Proof.
  intros Ha Hs Hl. unfold _collect_step.
  rewrite (bind_returns _ _ _ _ _ _ (emit_returns _ _ _)).
  erewrite bind_returns; [|apply action_returns; exact Ha].
  erewrite bind_returns; [|apply step_returns; exact Hs].
  rewrite (bind_returns _ _ _ _ _ _ (life_lost_returns _ _ _)).
  simpl w_env. rewrite Hl. cbv iota.
  rewrite (bind_returns _ _ _ _ _ _ (when_store_returns _ _ _ _)).
  rewrite (bind_returns _ _ _ _ _ _ (life_lost_returns _ _ _)).
  rewrite store_when_env. simpl w_env. rewrite Hl. cbv iota.
  rewrite (bind_returns _ _ _ _ _ _ (eq_refl : ret C _ _ = (Returns _, _))).
  simpl fst. simpl snd.
  rewrite (bind_returns _ _ _ _ _ _ (observe_returns _ _ _ _)).
  reflexivity.
Qed.

(** X2.  A collect step whose next timestep is not a life loss (it is
    not LAST, or the game is over) steps the environment once and returns
    its answer.  In TRAIN mode it writes one transition, with the reward
    clipped and the discount as the environment gave it; in either mode
    every observer is called once, in the order of the list, on the
    transition with the reward as the environment gave it. *)
Theorem ordinary_collect_step w time_step policy ms a1 ag1 n1 e1 train :
  policy_action C policy (w_agent C w) time_step = (a1, ag1) ->
  env_step C (w_env C w) (policy_step.action a1) = inr (n1, e1) ->
  ts.is_last n1 && negb (env_game_over C e1) = false ->
  exists w',
    _collect_step C time_step policy ms train w = (Returns n1, w')
    /\ w_trace C w'
       = w_trace C w
         ++ [EvCollectStep; EvStep (policy_step.action a1)]
         ++ store_events train
              (trajectory.from_transition time_step a1 n1)
         ++ map (fun m =>
                   EvObserve m (trajectory.from_transition time_step a1 n1))
                ms
    /\ w_replay_buffer C w'
       = (if train
          then replay_buffer.add_batch (w_replay_buffer C w)
                 (clipped (trajectory.from_transition time_step a1 n1))
          else w_replay_buffer C w)
    /\ w_env C w' = e1
    /\ trajectory.discount
         (clipped (trajectory.from_transition time_step a1 n1))
       = ts.discount n1
    /\ trajectory.reward
         (clipped (trajectory.from_transition time_step a1 n1))
       = np_clip (ts.reward n1) (-1) 1
    /\ trajectory.reward (trajectory.from_transition time_step a1 n1)
       = ts.reward n1.
Proof.
  intros Ha Hs Hl. eexists. split.
  - exact (collect_step_ordinary w time_step policy ms a1 ag1 n1 e1 train
             Ha Hs Hl).
  - split; [|split; [|split; [|repeat split]]].
    + rewrite observe_w_trace, store_when_trace. simpl w_trace.
      repeat rewrite <- app_assoc. reflexivity.
    + rewrite observe_w_replay_buffer, store_when_replay_buffer.
      reflexivity.
    + rewrite observe_w_env, store_when_env. reflexivity.
Qed.

(** *** How many steps a collect step takes *)

Lemma count_env_step_log (e : Event) w :
  count is_env_step (w_trace C (log C e w))
  = count is_env_step (w_trace C w) + (if is_env_step e then 1 else 0).
Proof.
  simpl. rewrite count_app. unfold count at 2. simpl.
  destruct (is_env_step e); reflexivity.
Qed.

Lemma collect_step_env_steps w time_step policy ms train next w' :
  _collect_step C time_step policy ms train w = (Returns next, w') ->
  (count is_env_step (w_trace C w') = count is_env_step (w_trace C w) + 1
   /\ ts.is_last next && negb (env_game_over C (w_env C w')) = false)
  \/ count is_env_step (w_trace C w') = count is_env_step (w_trace C w) + 2.
Proof.
  intro H.
  destruct (policy_action C policy (w_agent C w) time_step)
    as [a1 ag1] eqn:Ha1.
  destruct (env_step C (w_env C w) (policy_step.action a1))
    as [e|[n1 e1]] eqn:Hs1.
  { rewrite (collect_step_raises C w time_step policy ms a1 ag1 e train
               Ha1 Hs1) in H. discriminate H. }
  destruct (ts.is_last n1 && negb (env_game_over C e1)) eqn:Hl.
  - apply andb_true_iff in Hl. destruct Hl as [Hl Hg].
    apply negb_true_iff in Hg.
    destruct (policy_action C policy ag1 (ts.restart (ts.observation n1)))
      as [a2 ag2] eqn:Ha2.
    destruct (env_step C e1 (policy_step.action a2))
      as [e|[n2 e2]] eqn:Hs2.
    { rewrite (collect_step_life_loss_raises C w time_step policy ms
                 a1 ag1 n1 e1 a2 ag2 e train Ha1 Hs1 Hl Hg Ha2 Hs2) in H.
      discriminate H. }
    right.
    rewrite (collect_step_life_loss C w time_step policy ms a1 ag1 n1 e1
               a2 ag2 n2 e2 Ha1 Hs1 Hl Hg Ha2 Hs2 train) in H.
    inversion H; subst.
    rewrite life_loss_world_trace. repeat rewrite count_app.
    rewrite !count_observe, !count_store_events by reflexivity.
    unfold count at 2 3. simpl. lia.
  - left.
    rewrite (collect_step_ordinary w time_step policy ms a1 ag1 n1 e1 train
               Ha1 Hs1 Hl) in H.
    inversion H; subst. split.
    + rewrite observe_w_trace, store_when_trace. simpl w_trace.
      repeat rewrite count_app.
      rewrite count_observe, count_store_events by reflexivity.
      unfold count at 2 3. simpl. lia.
    + rewrite observe_w_env, store_when_env. exact Hl.
Qed.

(** *** What an episode that returns has done *)

Lemma update_w_env b w : w_env C (update_w C b w) = w_env C w.
Proof. destruct b; reflexivity. Qed.

Lemma update_w_env_steps b w :
  count is_env_step (w_trace C (update_w C b w))
  = count is_env_step (w_trace C w).
Proof.
  destruct b; simpl; [|reflexivity].
  rewrite count_app. unfold count at 2. simpl. lia.
Qed.

Lemma run_episode_loop_returns fuel ms train :
  forall t n w m w',
    _run_episode_loop C cfg fuel ms train t n w = (Returns m, w') ->
    env_game_over C (w_env C w') = true
    /\ n + 1 <= m
    /\ m - n
       <= count is_env_step (w_trace C w')
          - count is_env_step (w_trace C w)
       <= 2 * (m - n).
Proof.
  induction fuel as [|fuel IH]; intros t n w m w' H.
  - discriminate H.
  - destruct (_collect_step C t collect_policy ms train w)
      as [[next|e|] w1] eqn:Hc.
    + pose proof (collect_step_env_steps _ _ _ _ _ _ _ Hc) as Hn.
      rewrite (run_episode_loop_step C cfg fuel ms train t n w _ _ Hc) in H.
      destruct (env_game_over C (w_env C w1)) eqn:Hg.
      * inversion H; subst. split; [exact Hg|]. lia.
      * apply IH in H. destruct H as (Hg' & Hm & Hs).
        rewrite update_w_env_steps in Hs.
        split; [exact Hg'|]. lia.
    + rewrite (run_episode_loop_raises C cfg fuel ms train t n w _ _ Hc)
        in H.
      discriminate H.
    + simpl in H. rewrite (bind_out_of_fuel C _ _ _ _ Hc) in H.
      discriminate H.
Qed.

Ltac frame_go :=
  repeat (intros; cbv beta zeta;
    first
      [ apply keeps_ret | apply keeps_out_of_fuel | apply keeps_game_over
      | apply keeps_env_steps_metric_result
      | apply keeps_iteration_metric_result
      | apply keeps_replay_buffer_size | apply keeps_life_lost
      | apply keeps_reset | apply keeps_step | apply keeps_observe
      | apply keeps_train_step_call | apply keeps_action
      | apply keeps_iteration_metric_call
      | apply keeps_add_batch
      | apply keeps_emit_traced | apply keeps_emit_replay_buffer
      | apply local_traced | apply local_replay_buffer
      | apply keeps_when | apply keeps_bind
      | match goal with
        | |- keeps _ _ (if ?b then _ else _) => destruct b
        end
      | discriminate
      | reflexivity
      | solve [auto] ]).

Lemma keeps_reset_run_episode_loop fuel ms train :
  forall t n,
    keeps C (traced C is_reset) (_run_episode_loop C cfg fuel ms train t n).
Proof.
  induction fuel as [|fuel IH]; intros t n; simpl.
  - apply keeps_out_of_fuel.
  - apply keeps_bind.
    + apply keeps_traced_collect_step;
        [apply quiet_is_reset | reflexivity].
    + frame_go.
Qed.

(** X3.  [_run_episode] returns only in a world where the emulator
    reports that the game is over, and after at least one collect step,
    also when the game was already over at the reset.  An episode that
    returns [n] has reset the environment once and stepped it between
    [n] and [2 * n] times. *)
Theorem episode_returns_at_game_over fuel ms train w n w' :
  _run_episode C cfg fuel ms train w = (Returns n, w') ->
  env_game_over C (w_env C w') = true
  /\ 1 <= n
  /\ n <= count is_env_step (w_trace C w')
          - count is_env_step (w_trace C w)
       <= 2 * n
  /\ count is_reset (w_trace C w') = count is_reset (w_trace C w) + 1.
Proof.
  unfold _run_episode. intro H.
  apply bind_returns_inv in H. destruct H as (t & w1 & Hr & Hl).
  assert (Hw1 : w_trace C w1 = w_trace C w ++ [EvReset]).
  { unfold reset, bind, emit in Hr. simpl in Hr.
    destruct (env_reset C (w_env C w)) as [e|[t0 env']];
      inversion Hr; subst; reflexivity. }
  assert (Hk : count is_reset (w_trace C w')
               = count is_reset (w_trace C w1)).
  { change w' with (snd (Returns (C := C) n, w')). rewrite <- Hl.
    apply keeps_traced_count, keeps_reset_run_episode_loop. }
  apply run_episode_loop_returns in Hl. destruct Hl as (Hg & Hm & Hs).
  rewrite Hw1, count_app in Hs. rewrite Hw1, count_app in Hk.
  change (count is_env_step [EvReset]) with 0 in Hs.
  change (count is_reset [EvReset]) with 1 in Hk.
  repeat split; try assumption; lia.
Qed.

(** *** Episodes in EVAL mode *)

Lemma keeps_train_steps_run_episode_loop fuel ms :
  forall t n,
    keeps C (traced C is_train_step)
          (_run_episode_loop C cfg fuel ms false t n).
Proof.
  induction fuel as [|fuel IH]; intros t n; simpl.
  - apply keeps_out_of_fuel.
  - apply keeps_bind.
    + apply keeps_traced_collect_step;
        [apply quiet_is_train_step | reflexivity].
    + frame_go.
Qed.

Lemma keeps_train_steps_run_episode fuel ms :
  keeps C (traced C is_train_step) (_run_episode C cfg fuel ms false).
Proof.
  unfold _run_episode. apply keeps_bind; [frame_go|].
  intro t. apply keeps_train_steps_run_episode_loop.
Qed.

Lemma keeps_train_steps_eval_phase_loop fuel :
  forall n,
    keeps C (traced C is_train_step) (eval_phase_loop C cfg fuel n).
Proof.
  induction fuel as [|fuel IH]; intro n; simpl.
  - apply keeps_out_of_fuel.
  - destruct (Qle_bool _ _); [apply keeps_ret|].
    apply keeps_bind; [apply keeps_train_steps_run_episode|].
    intro. apply IH.
Qed.

(** X4.  An episode in EVAL mode and an eval phase trigger no learning
    update, however they end and whatever the value of
    [EnvironmentSteps]. *)
Theorem eval_triggers_no_learning_update fuel ms w :
  count is_train_step
    (w_trace C (snd (_run_episode C cfg fuel ms false w)))
  = count is_train_step (w_trace C w)
  /\ count is_train_step (w_trace C (snd (eval_phase C cfg fuel w)))
     = count is_train_step (w_trace C w).
Proof.
  split.
  - apply keeps_traced_count, keeps_train_steps_run_episode.
  - apply keeps_traced_count. unfold eval_phase.
    apply keeps_train_steps_eval_phase_loop.
Qed.

(** *** The counter of environment steps *)

(** [EnvironmentSteps] is among the observers. *)
Definition counts_steps (ms : list Metric) : bool :=
  existsb (fun m => Metric_eqb m EnvironmentSteps) ms.

Ltac steps_go :=
  repeat (intros; cbv beta zeta;
    first
      [ solve [keeps_prim]
      | apply keeps_when | apply keeps_bind
      | match goal with
        | |- keeps _ _ (if ?b then _ else _) => destruct b
        end
      | solve [auto] ]).

Lemma keeps_env_steps_metric_observe ms t :
  counts_steps ms = false ->
  keeps C (w_env_steps_metric C) (_observe C ms t).
Proof.
  unfold counts_steps. induction ms as [|m ms IH]; simpl; intro H.
  - apply keeps_ret.
  - apply orb_false_iff in H. destruct H as [Hm Hms].
    apply keeps_bind.
    + intro w. unfold observer, bind, emit. simpl. rewrite Hm.
      reflexivity.
    + intros _. apply IH, Hms.
Qed.

Lemma keeps_env_steps_metric_collect_step t policy ms train :
  counts_steps ms = false ->
  keeps C (w_env_steps_metric C) (_collect_step C t policy ms train).
Proof.
  intro H. pose proof (keeps_env_steps_metric_observe ms) as Ho.
  unfold _collect_step. steps_go.
Qed.

Lemma keeps_env_steps_metric_run_episode_loop fuel ms train :
  counts_steps ms = false ->
  forall t n,
    keeps C (w_env_steps_metric C)
          (_run_episode_loop C cfg fuel ms train t n).
Proof.
  intro H. induction fuel as [|fuel IH]; intros t n; simpl.
  - apply keeps_out_of_fuel.
  - apply keeps_bind;
      [apply keeps_env_steps_metric_collect_step, H|].
    steps_go.
Qed.

Lemma keeps_env_steps_metric_run_episode fuel ms train :
  counts_steps ms = false ->
  keeps C (w_env_steps_metric C) (_run_episode C cfg fuel ms train).
Proof.
  intro H. unfold _run_episode. apply keeps_bind; [steps_go|].
  intro t. apply keeps_env_steps_metric_run_episode_loop, H.
Qed.

Lemma keeps_env_steps_metric_eval_phase_loop fuel :
  forall n,
    keeps C (w_env_steps_metric C) (eval_phase_loop C cfg fuel n).
Proof.
  induction fuel as [|fuel IH]; intro n; simpl.
  - apply keeps_out_of_fuel.
  - destruct (Qle_bool _ _); [apply keeps_ret|].
    apply keeps_bind.
    + apply keeps_env_steps_metric_run_episode. reflexivity.
    + intro. apply IH.
Qed.

(** X5.  An episode whose observers do not include [EnvironmentSteps]
    leaves the result of that metric as it was, in either mode; the
    metrics of an eval phase do not include it, so an eval phase does not
    move the counter the update period of training is tested against. *)
Theorem eval_leaves_environment_steps fuel ms train w :
  counts_steps ms = false ->
  w_env_steps_metric C (snd (_run_episode C cfg fuel ms train w))
  = w_env_steps_metric C w
  /\ w_env_steps_metric C (snd (eval_phase C cfg fuel w))
     = w_env_steps_metric C w
  /\ counts_steps _eval_metrics = false
  /\ counts_steps (_train_metrics ++ _train_phase_metrics) = true.
Proof.
  intro H. repeat split.
  - apply keeps_env_steps_metric_run_episode, H.
  - unfold eval_phase. apply keeps_env_steps_metric_eval_phase_loop.
Qed.

(** *** The initial collection *)

Definition is_observe (e : Event) : bool :=
  match e with EvObserve _ _ => true | _ => false end.

Lemma keeps_iteration_initial_collect fuel :
  keeps C (w_iteration_metric C) (_initial_collect C cfg fuel).
Proof.
  unfold _initial_collect. apply keeps_bind; [steps_go|].
  induction fuel as [|fuel IH]; intro t; simpl; steps_go.
Qed.

(** X6.  The initial collection goes around the metrics and the learner:
    however it ends, it has called no observer, it has left the result of
    [EnvironmentSteps] and the iteration counter as they were, and it has
    entered no collect step. *)
Theorem initial_collect_bypasses_metrics fuel w :
  count is_observe (w_trace C (snd (_initial_collect C cfg fuel w)))
  = count is_observe (w_trace C w)
  /\ w_env_steps_metric C (snd (_initial_collect C cfg fuel w))
     = w_env_steps_metric C w
  /\ w_iteration_metric C (snd (_initial_collect C cfg fuel w))
     = w_iteration_metric C w
  /\ count is_collect_step (w_trace C (snd (_initial_collect C cfg fuel w)))
     = count is_collect_step (w_trace C w).
Proof.
  split; [|split; [|split]].
  - apply keeps_traced_count. unfold _initial_collect.
    apply keeps_bind; [frame_go|].
    induction fuel as [|fuel IH]; intro t; simpl; frame_go.
  - revert w. change (keeps C (w_env_steps_metric C)
                            (_initial_collect C cfg fuel)).
    unfold _initial_collect. apply keeps_bind; [steps_go|].
    induction fuel as [|fuel IH]; intro t; simpl; steps_go.
  - apply keeps_iteration_initial_collect.
  - apply keeps_traced_count. unfold _initial_collect.
    apply keeps_bind; [frame_go|].
    induction fuel as [|fuel IH]; intro t; simpl; frame_go.
Qed.

Lemma size_add_batch_min (rb : replay_buffer.ReplayBuffer Trajectory)
    (t : Trajectory) :
  replay_buffer.size (replay_buffer.add_batch rb t)
  = Z.min (replay_buffer.size rb + 1)
          (Z.of_nat (replay_buffer.capacity rb)).
Proof.
  unfold replay_buffer.size, replay_buffer.add_batch. simpl.
  rewrite length_skipn, length_app. simpl. lia.
Qed.

(** One turn of the loop of [_initial_collect] that goes on: the world
    in which the loop is entered again. *)
Lemma initial_collect_loop_turn fuel t w w' :
  initial_collect_target cfg > replay_buffer.size (w_replay_buffer C w) ->
  _initial_collect_loop C cfg (S fuel) t w = (Returns tt, w') ->
  exists t1 w1,
    _initial_collect_loop C cfg fuel t1 w1 = (Returns tt, w')
    /\ count is_env_step (w_trace C w1)
       = count is_env_step (w_trace C w) + 1
    /\ count is_add_batch (w_trace C w1)
       = count is_add_batch (w_trace C w) + 1
    /\ replay_buffer.size (w_replay_buffer C w1)
       = Z.min (replay_buffer.size (w_replay_buffer C w) + 1)
               (Z.of_nat (replay_buffer.capacity (w_replay_buffer C w)))
    /\ replay_buffer.capacity (w_replay_buffer C w1)
       = replay_buffer.capacity (w_replay_buffer C w).
Proof.
  intros Hs H. simpl in H.
  unfold bind at 1 in H. unfold replay_buffer_size at 1 in H.
  rewrite initial_collect_test in H.
  destruct (Z.leb_spec (initial_collect_target cfg)
              (replay_buffer.size (w_replay_buffer C w))) as [Hle|Hlt];
    [lia|].
  unfold bind at 1 in H. unfold game_over at 1 in H.
  apply bind_returns_inv in H. destruct H as (t0 & w0 & H0 & H).
  assert (Hw0 : count is_env_step (w_trace C w0)
                = count is_env_step (w_trace C w)
                /\ count is_add_batch (w_trace C w0)
                   = count is_add_batch (w_trace C w)
                /\ w_replay_buffer C w0 = w_replay_buffer C w).
  { destruct (env_game_over C (w_env C w)).
    - unfold reset, bind, emit in H0. simpl in H0.
      destruct (env_reset C (w_env C w)) as [e|[t' env']];
        inversion H0; subst. simpl w_trace. simpl w_replay_buffer.
      rewrite !count_app.
      change (count is_env_step [EvReset]) with 0.
      change (count is_add_batch [EvReset]) with 0.
      repeat split; lia.
    - inversion H0; subst. repeat split. }
  destruct Hw0 as (Hs0 & Ha0 & Hr0).
  apply bind_returns_inv in H. destruct H as (a & w2 & H2 & H).
  unfold action in H2.
  destruct (policy_action C random_policy (w_agent C w0) t0) as [a' ag].
  inversion H2; subst a' w2. clear H2.
  apply bind_returns_inv in H. destruct H as (t3 & w3 & H3 & H).
  unfold step, bind, emit in H3. simpl in H3.
  destruct (env_step C (w_env C w0) (policy_step.action a))
    as [e|[t' env']]; inversion H3; subst t' w3. clear H3.
  rewrite (bind_returns C _ _ _ _ _ (add_batch_returns C _ _)) in H.
  eexists. eexists. split; [exact H|].
  simpl w_trace. simpl w_replay_buffer.
  rewrite !count_app.
  change (count is_env_step [EvStep (policy_step.action a)]) with 1.
  change (count is_add_batch [EvStep (policy_step.action a)]) with 0.
  match goal with
  | |- context [count is_env_step [EvAddBatch ?x]] =>
    change (count is_env_step [EvAddBatch x]) with 0;
    change (count is_add_batch [EvAddBatch x]) with 1
  end.
  rewrite size_add_batch_min, capacity_add_batch, Hr0.
  repeat split; lia.
Qed.

Lemma initial_collect_loop_done fuel t w w' :
  initial_collect_target cfg <= replay_buffer.size (w_replay_buffer C w) ->
  _initial_collect_loop C cfg (S fuel) t w = (Returns tt, w') -> w' = w.
Proof.
  intros Hs H. simpl in H.
  unfold bind at 1 in H. unfold replay_buffer_size at 1 in H.
  rewrite initial_collect_test in H.
  destruct (Z.leb_spec (initial_collect_target cfg)
              (replay_buffer.size (w_replay_buffer C w))) as [Hle|Hlt];
    [|lia].
  inversion H. reflexivity.
Qed.

Lemma initial_collect_loop_returns fuel :
  forall t w w',
    _initial_collect_loop C cfg fuel t w = (Returns tt, w') ->
    initial_collect_target cfg
    <= Z.of_nat (replay_buffer.capacity (w_replay_buffer C w)) ->
    replay_buffer.size (w_replay_buffer C w')
    = Z.max (replay_buffer.size (w_replay_buffer C w))
            (initial_collect_target cfg)
    /\ count is_add_batch (w_trace C w') - count is_add_batch (w_trace C w)
       = replay_buffer.size (w_replay_buffer C w')
         - replay_buffer.size (w_replay_buffer C w)
    /\ count is_env_step (w_trace C w') - count is_env_step (w_trace C w)
       = count is_add_batch (w_trace C w')
         - count is_add_batch (w_trace C w).
Proof.
  induction fuel as [|fuel IH]; intros t w w' H Hc.
  - discriminate H.
  - destruct (Z.le_gt_cases (initial_collect_target cfg)
                (replay_buffer.size (w_replay_buffer C w))) as [Hs|Hs].
    + apply initial_collect_loop_done in H; [|exact Hs]. subst w'. lia.
    + apply initial_collect_loop_turn in H; [|lia].
      destruct H as (t1 & w1 & H & Hst & Had & Hsz & Hcap).
      apply IH in H; [|rewrite Hcap; exact Hc].
      destruct H as (Hsz' & Had' & Hst'). lia.
Qed.

Lemma initial_collect_loop_never_returns fuel :
  forall t w w',
    Z.of_nat (replay_buffer.capacity (w_replay_buffer C w))
    < initial_collect_target cfg ->
    replay_buffer.size (w_replay_buffer C w) < initial_collect_target cfg ->
    _initial_collect_loop C cfg fuel t w <> (Returns tt, w').
Proof.
  induction fuel as [|fuel IH]; intros t w w' Hc Hs H.
  - discriminate H.
  - apply initial_collect_loop_turn in H; [|lia].
    destruct H as (t1 & w1 & H & _ & _ & Hsz & Hcap).
    apply IH in H; [exact H | rewrite Hcap; exact Hc | lia].
Qed.

Lemma initial_collect_reset fuel w w' :
  _initial_collect C cfg fuel w = (Returns tt, w') ->
  exists t w1,
    _initial_collect_loop C cfg fuel t w1 = (Returns tt, w')
    /\ w_trace C w1 = w_trace C w ++ [EvReset]
    /\ w_replay_buffer C w1 = w_replay_buffer C w.
Proof.
  unfold _initial_collect. intro H.
  apply bind_returns_inv in H. destruct H as (t & w1 & Hr & H).
  exists t, w1. split; [exact H|].
  unfold reset, bind, emit in Hr. simpl in Hr.
  destruct (env_reset C (w_env C w)) as [e|[t' env']];
    inversion Hr; subst. split; reflexivity.
Qed.

(** X7.  When the initial collection returns, with a buffer that has
    room for the target, the buffer holds the larger of its former size
    and the target, [initial_collect_steps / 4] rounded up; every step
    taken of the environment has been written to the buffer, and nothing
    else: the steps taken, the writes made and the growth of the buffer
    are the same number, which is 0 when the buffer was already at the
    target. *)
Theorem initial_collect_stores_every_step fuel w w' :
  _initial_collect C cfg fuel w = (Returns tt, w') ->
  initial_collect_target cfg
  <= Z.of_nat (replay_buffer.capacity (w_replay_buffer C w)) ->
  replay_buffer.size (w_replay_buffer C w')
  = Z.max (replay_buffer.size (w_replay_buffer C w))
          (initial_collect_target cfg)
  /\ count is_add_batch (w_trace C w') - count is_add_batch (w_trace C w)
     = replay_buffer.size (w_replay_buffer C w')
       - replay_buffer.size (w_replay_buffer C w)
  /\ count is_env_step (w_trace C w') - count is_env_step (w_trace C w)
     = replay_buffer.size (w_replay_buffer C w')
       - replay_buffer.size (w_replay_buffer C w).
Proof.
  intros H Hc. apply initial_collect_reset in H.
  destruct H as (t & w1 & H & Ht & Hr).
  apply initial_collect_loop_returns in H; [|rewrite Hr; exact Hc].
  rewrite Hr, Ht, !count_app in H.
  change (count is_add_batch [EvReset]) with 0 in H.
  change (count is_env_step [EvReset]) with 0 in H.
  lia.
Qed.

(** X8.  With a target above the capacity of the buffer the initial
    collection never returns: the size of the buffer is capped at the
    capacity and the loop waits for the target.  Whatever the fuel, it
    raises or is still running. *)
Theorem initial_collect_never_returns_above_capacity fuel w w' :
  Z.of_nat (replay_buffer.capacity (w_replay_buffer C w))
  < initial_collect_target cfg ->
  replay_buffer.size (w_replay_buffer C w) < initial_collect_target cfg ->
  _initial_collect C cfg fuel w <> (Returns tt, w').
Proof.
  intros Hc Hs H. apply initial_collect_reset in H.
  destruct H as (t & w1 & H & _ & Hr).
  apply initial_collect_loop_never_returns in H;
    [exact H | rewrite Hr; exact Hc | rewrite Hr; exact Hs].
Qed.

(** *** Learning updates within an episode *)

Lemma run_episode_loop_updates fuel ms train :
  forall t n w m w',
    _run_episode_loop C cfg fuel ms train t n w = (Returns m, w') ->
    count is_train_step (w_trace C w') - count is_train_step (w_trace C w)
    <= m - n - 1.
Proof.
  induction fuel as [|fuel IH]; intros t n w m w' H.
  - discriminate H.
  - destruct (_collect_step C t collect_policy ms train w)
      as [[next|e|] w1] eqn:Hc.
    + destruct (learning_update_trigger C cfg fuel ms train t n w next w1 Hc)
        as (Hk & Hstep & Hup & _).
      rewrite Hstep in H.
      destruct (env_game_over C (w_env C w1)).
      * inversion H; subst. lia.
      * apply IH in H.
        destruct (update_due C cfg train w1); lia.
    + rewrite (run_episode_loop_raises C cfg fuel ms train t n w _ _ Hc)
        in H.
      discriminate H.
    + simpl in H. rewrite (bind_out_of_fuel C _ _ _ _ Hc) in H.
      discriminate H.
Qed.

(** X9.  An episode that returns [n] has triggered at most [n - 1]
    learning updates: there is at most one update after a collect step,
    and none after the collect step that ends the game. *)
Theorem episode_updates_below_steps fuel ms train w n w' :
  _run_episode C cfg fuel ms train w = (Returns n, w') ->
  count is_train_step (w_trace C w') - count is_train_step (w_trace C w)
  <= n - 1.
Proof.
  unfold _run_episode. intro H.
  apply bind_returns_inv in H. destruct H as (t & w1 & Hr & Hl).
  assert (Hk : count is_train_step (w_trace C w1)
               = count is_train_step (w_trace C w)).
  { change w1 with (snd (Returns (C := C) t, w1)). rewrite <- Hr.
    apply keeps_traced_count. frame_go. }
  apply run_episode_loop_updates in Hl. lia.
Qed.

(** *** The phases *)

Lemma run_episode_returns fuel ms train w n w' :
  _run_episode C cfg fuel ms train w = (Returns n, w') ->
  env_game_over C (w_env C w') = true /\ 1 <= n.
Proof.
  unfold _run_episode. intro H.
  apply bind_returns_inv in H. destruct H as (t & w1 & Hr & Hl).
  apply run_episode_loop_returns in Hl. destruct Hl as (Hg & Hm & _).
  split; [exact Hg | lia].
Qed.

Lemma train_phase_loop_returns fuel :
  forall n0 w n w',
    train_phase_loop C cfg fuel n0 w = (Returns n, w') ->
    (_train_steps_per_iteration cfg <= inject_Z n)%Q
    /\ n0 <= n
    /\ (n0 < n -> env_game_over C (w_env C w') = true)
    /\ (n = n0 -> w' = w).
Proof.
  induction fuel as [|fuel IH]; intros n0 w n w' H; simpl in H.
  - discriminate H.
  - destruct (Qle_bool _ _) eqn:E.
    + inversion H; subst. apply Qle_bool_iff in E.
      repeat split; [exact E | lia | lia].
    + apply bind_returns_inv in H. destruct H as (k & w1 & Hr & Hl).
      apply run_episode_returns in Hr. destruct Hr as (Hg & Hk).
      apply IH in Hl. destruct Hl as (Hb & Hn & Hover & Hsame).
      repeat split; [exact Hb | lia | | lia].
      intros _. destruct (Z.eq_dec n (n0 + k)) as [Heq|Hne].
      * rewrite (Hsame Heq). exact Hg.
      * apply Hover. lia.
Qed.

Lemma eval_phase_loop_returns fuel :
  forall n0 w n w',
    eval_phase_loop C cfg fuel n0 w = (Returns n, w') ->
    (_eval_steps_per_iteration cfg <= inject_Z n)%Q
    /\ n0 <= n
    /\ (n0 < n -> env_game_over C (w_env C w') = true)
    /\ (n = n0 -> w' = w).
Proof.
  induction fuel as [|fuel IH]; intros n0 w n w' H; simpl in H.
  - discriminate H.
  - destruct (Qle_bool _ _) eqn:E.
    + inversion H; subst. apply Qle_bool_iff in E.
      repeat split; [exact E | lia | lia].
    + apply bind_returns_inv in H. destruct H as (k & w1 & Hr & Hl).
      apply run_episode_returns in Hr. destruct Hr as (Hg & Hk).
      apply IH in Hl. destruct Hl as (Hb & Hn & Hover & Hsame).
      repeat split; [exact Hb | lia | | lia].
      intros _. destruct (Z.eq_dec n (n0 + k)) as [Heq|Hne].
      * rewrite (Hsame Heq). exact Hg.
      * apply Hover. lia.
Qed.

(** X10.  A train phase and an eval phase that return have counted at
    least their budget of agent steps, the budget in ALE frames divided
    by 4.  They only stop between episodes: if any step was counted, the
    game is over in the world they return in; if none was, the world is
    untouched. *)
Theorem phases_reach_budget_between_episodes fuel w n w' :
  (train_phase C cfg fuel w = (Returns n, w') ->
   (_train_steps_per_iteration cfg <= inject_Z n)%Q
   /\ 0 <= n
   /\ (0 < n -> env_game_over C (w_env C w') = true)
   /\ (n = 0 -> w' = w))
  /\ (eval_phase C cfg fuel w = (Returns n, w') ->
      (_eval_steps_per_iteration cfg <= inject_Z n)%Q
      /\ 0 <= n
      /\ (0 < n -> env_game_over C (w_env C w') = true)
      /\ (n = 0 -> w' = w)).
Proof.
  split; intro H.
  - apply (train_phase_loop_returns fuel 0 w n w' H).
  - apply (eval_phase_loop_returns fuel 0 w n w' H).
Qed.

(** *** The iteration counter *)

Lemma keeps_iteration_observe ms t :
  keeps C (w_iteration_metric C) (_observe C ms t).
Proof.
  induction ms as [|m ms IH]; simpl.
  - apply keeps_ret.
  - apply keeps_bind; [keeps_prim | intros _; exact IH].
Qed.

Lemma keeps_iteration_run_episode_loop fuel ms train :
  forall t n,
    keeps C (w_iteration_metric C)
          (_run_episode_loop C cfg fuel ms train t n).
Proof.
  pose proof keeps_iteration_observe as Ho.
  induction fuel as [|fuel IH]; intros t n; simpl.
  - apply keeps_out_of_fuel.
  - apply keeps_bind; [unfold _collect_step; steps_go|].
    steps_go.
Qed.

Lemma keeps_iteration_run_episode fuel ms train :
  keeps C (w_iteration_metric C) (_run_episode C cfg fuel ms train).
Proof.
  unfold _run_episode. apply keeps_bind; [steps_go|].
  intro t. apply keeps_iteration_run_episode_loop.
Qed.

Lemma keeps_iteration_train_phase_loop fuel :
  forall n, keeps C (w_iteration_metric C) (train_phase_loop C cfg fuel n).
Proof.
  induction fuel as [|fuel IH]; intro n; simpl.
  - apply keeps_out_of_fuel.
  - destruct (Qle_bool _ _); [apply keeps_ret|].
    apply keeps_bind; [apply keeps_iteration_run_episode|].
    intro. apply IH.
Qed.

Lemma keeps_iteration_eval_phase_loop fuel :
  forall n, keeps C (w_iteration_metric C) (eval_phase_loop C cfg fuel n).
Proof.
  induction fuel as [|fuel IH]; intro n; simpl.
  - apply keeps_out_of_fuel.
  - destruct (Qle_bool _ _); [apply keeps_ret|].
    apply keeps_bind; [apply keeps_iteration_run_episode|].
    intro. apply IH.
Qed.

Lemma kept_on_return {X A} (f : World -> X) (m : M A) w a w' :
  keeps C f m -> m w = (Returns a, w') -> f w' = f w.
Proof.
  intros Hk H. change w' with (snd (Returns (C := C) a, w')).
  rewrite <- H. apply Hk.
Qed.

Lemma run_loop_returns fuel :
  forall w w',
    run_loop C cfg fuel w = (Returns tt, w') ->
    w_iteration_metric C w'
    = Z.max (w_iteration_metric C w) (num_iterations cfg)
    /\ (num_iterations cfg <= w_iteration_metric C w -> w' = w).
Proof.
  induction fuel as [|fuel IH]; intros w w' H; simpl in H.
  - discriminate H.
  - unfold bind at 1 in H. unfold iteration_metric_result at 1 in H.
    destruct (Z.leb_spec (num_iterations cfg) (w_iteration_metric C w))
      as [Hle|Hlt].
    + inversion H; subst. split; [lia | reflexivity].
    + apply bind_returns_inv in H. destruct H as (n1 & w1 & H1 & H).
      apply (kept_on_return (w_iteration_metric C)) in H1;
        [|apply keeps_iteration_train_phase_loop].
      apply bind_returns_inv in H. destruct H as (u2 & w2 & H2 & H).
      assert (Hi2 : w_iteration_metric C w2 = w_iteration_metric C w1).
      { revert H2. apply kept_on_return. apply keeps_when. intros _.
        apply keeps_bind; [apply keeps_iteration_eval_phase_loop|].
        intro. apply keeps_ret. }
      unfold bind at 1 in H. unfold iteration_metric_call at 1 in H.
      apply IH in H. destruct H as (Hmax & _). simpl in Hmax.
      split; [lia | lia].
Qed.

(** X11.  When [run] returns, the iteration counter is the larger of its
    former value and [num_iterations]: every turn of the loop counts one
    iteration, and nothing else moves the counter.  A loop entered with
    the counter already at [num_iterations] returns at once and touches
    nothing. *)
Theorem run_counts_iterations fuel w w' :
  (run C cfg fuel w = (Returns tt, w') ->
   w_iteration_metric C w'
   = Z.max (w_iteration_metric C w) (num_iterations cfg))
  /\ (run_loop C cfg fuel w = (Returns tt, w') ->
      num_iterations cfg <= w_iteration_metric C w -> w' = w).
Proof.
  split.
  - unfold run. intro H.
    apply bind_returns_inv in H. destruct H as (u & w1 & H1 & H).
    apply (kept_on_return (w_iteration_metric C)) in H1;
      [|apply keeps_iteration_initial_collect].
    apply run_loop_returns in H. destruct H as (Hmax & _). lia.
  - intros H Hle. apply (proj2 (run_loop_returns fuel w w' H)), Hle.
Qed.

(** *** The update period in ALE frames *)

Lemma Qfloor_inject_div (a u : Z) :
  0 < u -> Qfloor (inject_Z a / inject_Z u) = a / u.
Proof.
  intro Hu. destruct u as [|p|p]; try lia.
  unfold Qfloor, Qdiv, Qmult, Qinv, inject_Z. simpl.
  rewrite Z.mul_1_r. reflexivity.
Qed.

Lemma mod_is_zero_quarter (n u : Z) :
  0 < u ->
  mod_is_zero n (inject_Z u / inject_Z ATARI_FRAME_SKIP)
  = ((ATARI_FRAME_SKIP * n) mod u =? 0).
Proof.
  intro Hu. unfold ATARI_FRAME_SKIP, mod_is_zero.
  assert (Hq : (0 < inject_Z u)%Q) by (rewrite <- (Zlt_Qlt 0); exact Hu).
  assert (Hp : ~ (inject_Z u / inject_Z 4 == 0)%Q).
  { intro E. assert (H : (0 < inject_Z u / inject_Z 4)%Q)
      by (apply Qlt_shift_div_l; [reflexivity | lra]).
    rewrite E in H. discriminate H. }
  assert (Hp0 : Qeq_bool (inject_Z u / inject_Z 4) 0 = false).
  { apply not_true_is_false. intro E. apply Qeq_bool_iff in E. tauto. }
  rewrite Hp0. unfold float_mod.
  assert (Hd : (inject_Z n / (inject_Z u / inject_Z 4)
                == inject_Z (4 * n) / inject_Z u)%Q).
  { rewrite inject_Z_mult. field. lra. }
  rewrite Hd, Qfloor_inject_div by exact Hu.
  set (q := (4 * n) / u).
  assert (Hx : (inject_Z n - inject_Z q * (inject_Z u / inject_Z 4)
                == inject_Z (4 * n - q * u) / inject_Z 4)%Q).
  { unfold Zminus. rewrite inject_Z_plus, inject_Z_opp, !inject_Z_mult.
    field. }
  pose proof (Z.div_mod (4 * n) u ltac:(lia)) as Hdm. fold q in Hdm.
  clearbody q.
  destruct ((4 * n) mod u =? 0) eqn:E.
  - apply Z.eqb_eq in E. apply Qeq_bool_iff. rewrite Hx.
    assert (Hz : 4 * n - q * u = 0)
      by (rewrite E, Z.add_0_r in Hdm; rewrite Hdm; ring).
    rewrite Hz. reflexivity.
  - apply Z.eqb_neq in E. apply not_true_is_false. intro E'.
    apply Qeq_bool_iff in E'. rewrite Hx in E'.
    assert (Hz : (inject_Z (4 * n - q * u) == 0)%Q).
    { assert (H4 : (inject_Z (4 * n - q * u)
                    == inject_Z (4 * n - q * u) / inject_Z 4 * inject_Z 4)%Q)
        by (field; discriminate).
      rewrite H4, E'. reflexivity. }
    unfold Qeq, inject_Z in Hz. cbn [Qnum Qden] in Hz.
    rewrite Z.mul_1_r, Z.mul_0_l in Hz.
    apply E. rewrite Hdm in Hz at 1.
    replace (u * q + (4 * n) mod u - q * u) with ((4 * n) mod u) in Hz
      by ring.
    exact Hz.
Qed.

(** X12.  The test of the update period in ALE frames: for a positive
    [update_period], an update is due in TRAIN mode exactly when 4 times
    the result of [EnvironmentSteps] is a multiple of [update_period],
    whether or not [update_period] is a multiple of 4.  With an update
    period of 1, 2 or 4 frames an update is due after every collect
    step. *)
Theorem update_due_in_frames train w :
  0 < update_period cfg ->
  update_due C cfg train w
  = train
    && ((ATARI_FRAME_SKIP * w_env_steps_metric C w) mod update_period cfg
        =? 0)
  /\ (ATARI_FRAME_SKIP mod update_period cfg = 0 ->
      update_due C cfg train w = train).
Proof.
  intro Hu.
  assert (H : update_due C cfg train w
              = train
                && ((ATARI_FRAME_SKIP * w_env_steps_metric C w)
                      mod update_period cfg =? 0)).
  { unfold update_due, _update_period.
    rewrite mod_is_zero_quarter by exact Hu. reflexivity. }
  split; [exact H|].
  intro Hd. rewrite H.
  assert (E : (ATARI_FRAME_SKIP * w_env_steps_metric C w)
                mod update_period cfg = 0).
  { rewrite Z.mul_mod, Hd by lia. simpl. apply Z.mod_0_l. lia. }
  rewrite E. simpl. apply andb_true_r.
Qed.

(** *** The step after a life loss *)

(** X13.  The splice of a life loss is not repeated within a collect
    step.  When the extra step taken from the synthetic restart is again
    LAST with the game not over, the collect step still takes two steps of
    the environment and returns that LAST timestep; the transition from
    the restart is stored and observed ending in LAST, with the discount
    the environment gave and not 1; and [_run_episode] goes on from the
    LAST timestep. *)
Theorem life_loss_splice_not_repeated
    w time_step policy ms a1 ag1 n1 e1 a2 ag2 n2 e2 (train : bool) :
  life_lost_at C w time_step policy a1 ag1 n1 e1 ->
  restarted_at C policy ag1 n1 e1 a2 ag2 n2 e2 ->
  ts.is_last n2 = true ->
  env_game_over C e2 = false ->
  exists w',
    _collect_step C time_step policy ms train w = (Returns n2, w')
    /\ count is_env_step (w_trace C w')
       = count is_env_step (w_trace C w) + 2
    /\ added (w_trace C w')
       = added (w_trace C w)
         ++ added (store_events train (boundary_traj time_step a1 n1))
         ++ added (store_events train (restart_traj n1 a2 n2))
    /\ trajectory.next_step_type (clipped (restart_traj n1 a2 n2)) = ts.LAST
    /\ trajectory.discount (clipped (restart_traj n1 a2 n2))
       = ts.discount n2
    /\ trajectory.next_step_type (metric_traj_b time_step n1 a2 n2)
       = ts.LAST
    /\ trajectory.discount (metric_traj_b time_step n1 a2 n2)
       = ts.discount n2
    /\ (policy = collect_policy ->
        forall fuel n,
          _run_episode_loop C cfg (S fuel) ms train time_step n w
          = _run_episode_loop C cfg fuel ms train n2 (n + 1)
              (update_w C (update_due C cfg train w') w')).
Proof.
  intros (Ha1 & Hs1 & Hl & Hg) (Ha2 & Hs2) Hl2 Hg2.
  pose proof (collect_step_life_loss C w time_step policy ms a1 ag1 n1 e1
                a2 ag2 n2 e2 Ha1 Hs1 Hl Hg Ha2 Hs2 train) as Hc.
  pose proof (is_last_step_type n2 Hl2) as Ht2.
  eexists. split; [exact Hc|].
  split; [|split; [|split; [|split; [|split; [|split]]]]].
  - rewrite life_loss_world_trace. repeat rewrite count_app.
    rewrite !count_observe, !count_store_events by reflexivity.
    unfold count at 2 3. simpl. lia.
  - rewrite life_loss_world_trace. repeat rewrite added_app.
    rewrite !added_observe. simpl. rewrite !app_nil_r. reflexivity.
  - exact Ht2.
  - reflexivity.
  - exact Ht2.
  - reflexivity.
  - intros -> fuel n.
    rewrite (run_episode_loop_step C cfg fuel ms train time_step n w _ _ Hc).
    rewrite life_loss_world_env, Hg2. reflexivity.
Qed.

(** *** What a failed collect step leaves behind *)

(** X14.  A collect step that raises keeps what it did before the
    failure.  When the first step of the environment raises, nothing has
    been written to the buffer, no observer has been called and
    [EnvironmentSteps] is as it was.  When the extra step after a life
    loss raises, the boundary-crossing transition has already been
    written (in TRAIN mode) and every observer has already been called
    on (a), and only on it. *)
Theorem collect_step_failure_effects :
  (forall w time_step policy ms a1 ag1 e train,
      policy_action C policy (w_agent C w) time_step = (a1, ag1) ->
      env_step C (w_env C w) (policy_step.action a1) = inl e ->
      exists w',
        _collect_step C time_step policy ms train w = (Raises e, w')
        /\ w_replay_buffer C w' = w_replay_buffer C w
        /\ added (w_trace C w') = added (w_trace C w)
        /\ observer_calls (w_trace C w') = observer_calls (w_trace C w)
        /\ w_env_steps_metric C w' = w_env_steps_metric C w)
  /\ (forall w time_step policy ms a1 ag1 n1 e1 a2 ag2 e train,
         life_lost_at C w time_step policy a1 ag1 n1 e1 ->
         policy_action C policy ag1 (ts.restart (ts.observation n1))
         = (a2, ag2) ->
         env_step C e1 (policy_step.action a2) = inl e ->
         exists w',
           _collect_step C time_step policy ms train w = (Raises e, w')
           /\ w_replay_buffer C w'
              = (if train
                 then replay_buffer.add_batch (w_replay_buffer C w)
                        (clipped (boundary_traj time_step a1 n1))
                 else w_replay_buffer C w)
           /\ added (w_trace C w')
              = added (w_trace C w)
                ++ added (store_events train
                            (boundary_traj time_step a1 n1))
           /\ observer_calls (w_trace C w')
              = observer_calls (w_trace C w)
                ++ map (fun m => (m, metric_traj_a time_step a1 n1)) ms).
Proof.
  split.
  - intros w time_step policy ms a1 ag1 e train Ha Hs.
    eexists. split.
    + exact (collect_step_raises C w time_step policy ms a1 ag1 e train
               Ha Hs).
    + simpl. rewrite added_app, observer_calls_app. simpl.
      rewrite added_app, observer_calls_app. simpl.
      rewrite !app_nil_r. repeat split.
  - intros w time_step policy ms a1 ag1 n1 e1 a2 ag2 e train
           (Ha1 & Hs1 & Hl & Hg) Ha2 Hs2.
    eexists. split.
    + exact (collect_step_life_loss_raises C w time_step policy ms
               a1 ag1 n1 e1 a2 ag2 e train Ha1 Hs1 Hl Hg Ha2 Hs2).
    + simpl w_replay_buffer. simpl w_trace.
      rewrite observe_w_replay_buffer, store_when_replay_buffer.
      rewrite observe_w_trace, store_when_trace.
      simpl w_trace. simpl w_replay_buffer.
      repeat rewrite added_app. repeat rewrite observer_calls_app.
      rewrite added_observe, observer_calls_observe,
        observer_calls_store_events.
      simpl. rewrite !app_nil_r. repeat split.
Qed.

End Driver.

(* ================================================================== *)
(** ** The further properties on the stub emulators *)

Lemma episodes_write_rewards_in_range_witness :
  Forall in_range (added (w_trace _ (stub_world reward5 100)))
  /\ Forall in_range
       (added (w_trace _ (snd (_run_episode (stub reward5) scenario_config
                                            11 _train_metrics true
                                            (stub_world reward5 100)))))
  /\ length
       (added (w_trace _ (snd (_run_episode (stub reward5) scenario_config
                                            11 _train_metrics true
                                            (stub_world reward5 100)))))
     = 10%nat.
Proof.
  assert (H0 : Forall in_range (added (w_trace _ (stub_world reward5 100))))
    by constructor.
  split; [exact H0|]. split.
  - exact (proj1 (episodes_write_rewards_in_range (stub reward5)
                    scenario_config 11 _train_metrics true
                    (stub_world reward5 100) H0)).
  - vm_compute. reflexivity.
Defined.

(** The third collect step of an episode of [fixed10]. *)
Definition two_steps_taken : World (stub fixed10) :=
  stub_world_at fixed10 100 2.
Definition step2 : ts.TimeStep nat := ts.mk ts.MID 1 1 2%nat.
Definition step3 : ts.TimeStep nat := ts.mk ts.MID 1 1 3%nat.

Lemma ordinary_collect_step_witness :
  policy_action (stub fixed10) collect_policy (w_agent _ two_steps_taken)
                step2
  = (stub_action, tt)
  /\ env_step (stub fixed10) (w_env _ two_steps_taken)
              (policy_step.action stub_action)
     = inr (step3, 3%nat)
  /\ exists w',
      _collect_step (stub fixed10) step2 collect_policy
                    [AverageReturnMetric] true two_steps_taken
      = (Returns step3, w')
      /\ w_trace _ w'
         = [EvCollectStep; EvStep tt;
            EvAddBatch
              (clipped (trajectory.from_transition step2 stub_action step3));
            EvObserve AverageReturnMetric
              (trajectory.from_transition step2 stub_action step3)].
Proof.
  assert (Ha : policy_action (stub fixed10) collect_policy
                             (w_agent _ two_steps_taken) step2
               = (stub_action, tt)) by reflexivity.
  assert (Hs : env_step (stub fixed10) (w_env _ two_steps_taken)
                        (policy_step.action stub_action)
               = inr (step3, 3%nat)) by reflexivity.
  split; [exact Ha|]. split; [exact Hs|].
  destruct (ordinary_collect_step (stub fixed10) two_steps_taken step2
              collect_policy [AverageReturnMetric] stub_action tt step3
              3%nat true Ha Hs eq_refl)
    as (w' & Hc & Ht & _).
  exists w'. split; [exact Hc | exact Ht].
Defined.

Lemma episode_returns_at_game_over_witness :
  _run_episode (stub life_loss5) scenario_config 10 _train_metrics true
               (stub_world life_loss5 100)
  = (Returns 9,
     snd (_run_episode (stub life_loss5) scenario_config 10 _train_metrics
                       true (stub_world life_loss5 100)))
  /\ env_game_over (stub life_loss5)
       (w_env _ (snd (_run_episode (stub life_loss5) scenario_config 10
                                   _train_metrics true
                                   (stub_world life_loss5 100))))
     = true.
Proof.
  assert (H : _run_episode (stub life_loss5) scenario_config 10
                           _train_metrics true (stub_world life_loss5 100)
              = (Returns 9,
                 snd (_run_episode (stub life_loss5) scenario_config 10
                                   _train_metrics true
                                   (stub_world life_loss5 100))))
    by (vm_compute; reflexivity).
  split; [exact H|].
  exact (proj1 (episode_returns_at_game_over (stub life_loss5)
                  scenario_config 10 _train_metrics true _ _ _ H)).
Defined.

Lemma eval_leaves_environment_steps_witness :
  counts_steps _eval_metrics = false
  /\ w_env_steps_metric _
       (snd (_run_episode (stub fixed10) scenario_config 11 _eval_metrics
                          false (stub_world fixed10 100)))
     = 0.
Proof.
  split; [reflexivity|].
  exact (proj1 (eval_leaves_environment_steps (stub fixed10)
                  scenario_config 11 _eval_metrics false
                  (stub_world fixed10 100) eq_refl)).
Defined.

Lemma initial_collect_stores_every_step_witness :
  _initial_collect (stub fixed10) scenario_config 51 (stub_world fixed10 100)
  = (Returns tt,
     snd (_initial_collect (stub fixed10) scenario_config 51
                           (stub_world fixed10 100)))
  /\ count is_env_step
       (w_trace _ (snd (_initial_collect (stub fixed10) scenario_config 51
                                         (stub_world fixed10 100))))
     = 50.
Proof.
  assert (H : _initial_collect (stub fixed10) scenario_config 51
                               (stub_world fixed10 100)
              = (Returns tt,
                 snd (_initial_collect (stub fixed10) scenario_config 51
                                       (stub_world fixed10 100))))
    by (vm_compute; reflexivity).
  split; [exact H|].
  assert (Hc : initial_collect_target scenario_config
               <= Z.of_nat (replay_buffer.capacity
                              (w_replay_buffer _ (stub_world fixed10 100))))
    by (vm_compute; discriminate).
  destruct (initial_collect_stores_every_step (stub fixed10) scenario_config
              51 _ _ H Hc) as (Hsz & _ & Hst).
  rewrite Hsz in Hst.
  change (count is_env_step (w_trace (stub fixed10) (stub_world fixed10 100)))
    with 0 in Hst.
  change (replay_buffer.size
            (w_replay_buffer (stub fixed10) (stub_world fixed10 100)))
    with 0 in Hst.
  change (initial_collect_target scenario_config) with 50 in Hst.
  rewrite Z.sub_0_r in Hst. exact Hst.
Defined.

(** A buffer of capacity 10 for an initial collection of 50 agent
    steps. *)
Lemma initial_collect_never_returns_above_capacity_witness :
  Z.of_nat (replay_buffer.capacity
              (w_replay_buffer _ (stub_world fixed10 10)))
  < initial_collect_target scenario_config
  /\ fst (_initial_collect (stub fixed10) scenario_config 200
                           (stub_world fixed10 10))
     <> Returns tt.
Proof.
  assert (Hc : Z.of_nat (replay_buffer.capacity
                           (w_replay_buffer _ (stub_world fixed10 10)))
               < initial_collect_target scenario_config)
    by (vm_compute; reflexivity).
  assert (Hs : replay_buffer.size (w_replay_buffer _ (stub_world fixed10 10))
               < initial_collect_target scenario_config)
    by (vm_compute; reflexivity).
  split; [exact Hc|].
  intro H.
  apply (initial_collect_never_returns_above_capacity (stub fixed10)
           scenario_config 200 (stub_world fixed10 10)
           (snd (_initial_collect (stub fixed10) scenario_config 200
                                  (stub_world fixed10 10)))
           Hc Hs).
  rewrite <- H. apply surjective_pairing.
Defined.

Lemma episode_updates_below_steps_witness :
  _run_episode (stub fixed21) scenario_config 22 _train_metrics true
               (stub_world fixed21 100)
  = (Returns 21,
     snd (_run_episode (stub fixed21) scenario_config 22 _train_metrics
                       true (stub_world fixed21 100)))
  /\ count is_train_step
       (w_trace _ (snd (_run_episode (stub fixed21) scenario_config 22
                                     _train_metrics true
                                     (stub_world fixed21 100))))
     <= 20.
Proof.
  assert (H : _run_episode (stub fixed21) scenario_config 22 _train_metrics
                           true (stub_world fixed21 100)
              = (Returns 21,
                 snd (_run_episode (stub fixed21) scenario_config 22
                                   _train_metrics true
                                   (stub_world fixed21 100))))
    by (vm_compute; reflexivity).
  split; [exact H|].
  pose proof (episode_updates_below_steps (stub fixed21) scenario_config
                22 _train_metrics true _ _ _ H) as Hu.
  change (count is_train_step
            (w_trace (stub fixed21) (stub_world fixed21 100)))
    with 0 in Hu.
  rewrite Z.sub_0_r in Hu. exact Hu.
Defined.

Lemma phases_reach_budget_between_episodes_witness :
  train_phase (stub fixed10) scenario_config 12 (stub_world fixed10 100)
  = (Returns 20,
     snd (train_phase (stub fixed10) scenario_config 12
                      (stub_world fixed10 100)))
  /\ (_train_steps_per_iteration scenario_config <= inject_Z 20)%Q
  /\ env_game_over (stub fixed10)
       (w_env _ (snd (train_phase (stub fixed10) scenario_config 12
                                  (stub_world fixed10 100))))
     = true.
Proof.
  assert (H : train_phase (stub fixed10) scenario_config 12
                          (stub_world fixed10 100)
              = (Returns 20,
                 snd (train_phase (stub fixed10) scenario_config 12
                                  (stub_world fixed10 100))))
    by (vm_compute; reflexivity).
  split; [exact H|].
  destruct (proj1 (phases_reach_budget_between_episodes (stub fixed10)
                     scenario_config 12 _ _ _) H)
    as (Hb & _ & Hg & _).
  split; [exact Hb|]. apply Hg. reflexivity.
Defined.

Lemma run_counts_iterations_witness :
  run (stub fixed10) scenario_config 60 (stub_world fixed10 100)
  = (Returns tt,
     snd (run (stub fixed10) scenario_config 60 (stub_world fixed10 100)))
  /\ w_iteration_metric _
       (snd (run (stub fixed10) scenario_config 60
                 (stub_world fixed10 100)))
     = 1.
Proof.
  assert (H : run (stub fixed10) scenario_config 60 (stub_world fixed10 100)
              = (Returns tt,
                 snd (run (stub fixed10) scenario_config 60
                          (stub_world fixed10 100))))
    by (vm_compute; reflexivity).
  split; [exact H|].
  exact (proj1 (run_counts_iterations (stub fixed10) scenario_config 60
                  _ _) H).
Defined.

(** An update period of 6 ALE frames, one and a half agent steps. *)
Definition six_frames_config : Config := config 200 80 6 80.

(** A world of [fixed10] in which [EnvironmentSteps] has counted [n]
    steps. *)
Definition steps_counted (n : Z) : World (stub fixed10) :=
  mkWorld (stub fixed10) O tt (replay_buffer.mk 100 []) n 0 [].

Lemma update_due_in_frames_witness :
  0 < update_period six_frames_config
  /\ update_due (stub fixed10) six_frames_config true (steps_counted 3)
     = true
  /\ update_due (stub fixed10) six_frames_config true (steps_counted 4)
     = false.
Proof.
  assert (Hu : 0 < update_period six_frames_config) by reflexivity.
  split; [exact Hu|]. split.
  - rewrite (proj1 (update_due_in_frames (stub fixed10) six_frames_config
                      true (steps_counted 3) Hu)).
    reflexivity.
  - rewrite (proj1 (update_due_in_frames (stub fixed10) six_frames_config
                      true (steps_counted 4) Hu)).
    reflexivity.
Defined.

Lemma life_loss_splice_not_repeated_witness :
  life_lost_at twice_lost before_two_losses step4 collect_policy
               stub_action tt step5 5%nat
  /\ restarted_at twice_lost collect_policy tt step5 5%nat
                  stub_action tt lost_again 6%nat
  /\ exists w',
      _collect_step twice_lost step4 collect_policy [AverageReturnMetric]
                    true before_two_losses
      = (Returns lost_again, w')
      /\ added (w_trace _ w')
         = [trajectory.mk ts.MID 4%nat tt tt ts.LAST 1 1;
            trajectory.mk ts.FIRST 5%nat tt tt ts.LAST 1 0].
Proof.
  assert (H1 : life_lost_at twice_lost before_two_losses step4
                            collect_policy stub_action tt step5 5%nat)
    by (repeat split).
  assert (H2 : restarted_at twice_lost collect_policy tt step5 5%nat
                            stub_action tt lost_again 6%nat)
    by (repeat split).
  split; [exact H1|]. split; [exact H2|].
  destruct (life_loss_splice_not_repeated twice_lost scenario_config
              before_two_losses step4 collect_policy [AverageReturnMetric]
              stub_action tt step5 5%nat stub_action tt lost_again 6%nat
              true H1 H2 eq_refl eq_refl)
    as (w' & Hc & _ & Ha & _).
  exists w'. split; [exact Hc | exact Ha].
Defined.

Lemma collect_step_failure_effects_witness :
  (exists w',
      _collect_step (stub crash3) (ts.mk ts.MID 1 1 2%nat) collect_policy
                    [AverageReturnMetric] true before_crash3
      = (Raises (C := stub crash3) EmulatorCrashed, w')
      /\ w_replay_buffer _ w' = w_replay_buffer _ before_crash3)
  /\ (exists w',
         _collect_step (stub crash6) step4 collect_policy
                       [AverageReturnMetric] true before_crash6
         = (Raises (C := stub crash6) EmulatorCrashed, w')
         /\ replay_buffer.items (w_replay_buffer _ w')
            = [trajectory.mk ts.MID 4%nat tt tt ts.LAST 1 1]
         /\ observer_calls (w_trace _ w')
            = [(AverageReturnMetric,
                trajectory.mk ts.MID 4%nat tt tt ts.MID 1 1)]).
Proof.
  split.
  - destruct (proj1 (collect_step_failure_effects (stub crash3))
                before_crash3 (ts.mk ts.MID 1 1 2%nat) collect_policy
                [AverageReturnMetric] stub_action tt EmulatorCrashed true
                eq_refl eq_refl)
      as (w' & Hc & Hr & _).
    exists w'. split; [exact Hc | exact Hr].
  - destruct (proj2 (collect_step_failure_effects (stub crash6))
                before_crash6 step4 collect_policy [AverageReturnMetric]
                stub_action tt step5 5%nat stub_action tt EmulatorCrashed
                true)
      as (w' & Hc & Hr & _ & Ho);
      [repeat split | reflexivity | reflexivity |].
    exists w'. split; [exact Hc|]. split.
    + rewrite Hr. reflexivity.
    + rewrite Ho. reflexivity.
Defined.

(* ================================================================== *)
(** ** The policies the driver acts with *)

Section PolicyUse.

Context {Obs Act Info : Type}.
Variable C : Collaborators Obs Act Info.
Variable cfg : Config.

(** The same collaborators with other policies. *)
Variable other_action :
  Policy -> Agent C -> ts.TimeStep Obs
  -> policy_step.PolicyStep Act Info * Agent C.

Definition with_policies : Collaborators Obs Act Info :=
  mkCollaborators (Env C) (Exn C) (env_reset C) (env_step C)
                  (env_game_over C) (Agent C) other_action
                  (train_step_call C) (environment_steps_call C).

Local Abbreviation C' := with_policies.

(** The same world, seen with the other policies. *)
Definition recast (w : World C) : World C' :=
  mkWorld C' (w_env C w) (w_agent C w) (w_replay_buffer C w)
          (w_env_steps_metric C w) (w_iteration_metric C w) (w_trace C w).

Definition recast_outcome {A} (o : Outcome C A) : Outcome C' A :=
  match o with
  | Returns a => Returns a
  | Raises e => Raises (C := C') e
  | OutOfFuel => OutOfFuel
  end.

(** The two computations run alike from the same world. *)
Definition alike {A} (m : M C A) (m' : M C' A) : Prop :=
  forall w,
    m' (recast w) = (recast_outcome (fst (m w)), recast (snd (m w))).

Lemma alike_bind {A B} (m : M C A) (m' : M C' A)
    (k : A -> M C B) (k' : A -> M C' B) :
  alike m m' -> (forall a, alike (k a) (k' a)) ->
  alike (bind C m k) (bind C' m' k').
Proof.
  intros Hm Hk w. unfold bind. rewrite Hm.
  destruct (m w) as [[a|e|] w1]; simpl.
  - apply Hk.
  - reflexivity.
  - reflexivity.
Qed.

Lemma alike_when b (m : M C unit) (m' : M C' unit) :
  alike m m' -> alike (when C b m) (when C' b m').
Proof. intro H. destruct b; simpl; [exact H | intro w; reflexivity]. Qed.

Ltac alike_prim :=
  let w := fresh "w" in
  intro w; destruct w;
  cbv [ret out_of_fuel emit game_over add_batch replay_buffer_size
       observer env_steps_metric_result iteration_metric_result
       iteration_metric_call _train_step_call life_lost bind reset step
       recast recast_outcome with_policies];
  simpl;
  repeat match goal with
         | |- context [match ?x with _ => _ end] => destruct x
         end;
  reflexivity.

Lemma alike_ret {A} (a : A) : alike (ret C a) (ret C' a).
Proof. alike_prim. Qed.

Lemma alike_out_of_fuel {A} :
  alike (out_of_fuel C (A := A)) (out_of_fuel C' (A := A)).
Proof. alike_prim. Qed.

Lemma alike_emit e : alike (emit C e) (emit C' e).
Proof. alike_prim. Qed.

Lemma alike_reset : alike (reset C) (reset C').
Proof.
  intro w. destruct w. unfold reset, bind, emit, recast. simpl.
  destruct (env_reset C w_env0) as [e|[t env']]; reflexivity.
Qed.

Lemma alike_step a : alike (step C a) (step C' a).
Proof.
  intro w. destruct w. unfold step, bind, emit, recast. simpl.
  destruct (env_step C w_env0 a) as [e|[t env']]; reflexivity.
Qed.

Lemma alike_game_over : alike (game_over C) (game_over C').
Proof. alike_prim. Qed.

Lemma alike_add_batch t : alike (add_batch C t) (add_batch C' t).
Proof. alike_prim. Qed.

Lemma alike_replay_buffer_size :
  alike (replay_buffer_size C) (replay_buffer_size C').
Proof. alike_prim. Qed.

Lemma alike_observer m t : alike (observer C m t) (observer C' m t).
Proof. alike_prim. Qed.

Lemma alike_env_steps_metric_result :
  alike (env_steps_metric_result C) (env_steps_metric_result C').
Proof. alike_prim. Qed.

Lemma alike_iteration_metric_result :
  alike (iteration_metric_result C) (iteration_metric_result C').
Proof. alike_prim. Qed.

Lemma alike_iteration_metric_call :
  alike (iteration_metric_call C) (iteration_metric_call C').
Proof. alike_prim. Qed.

Lemma alike_train_step_call :
  alike (_train_step_call C) (_train_step_call C').
Proof. alike_prim. Qed.

Lemma alike_life_lost t : alike (life_lost C t) (life_lost C' t).
Proof.
  intro w. destruct w. unfold life_lost.
  destruct (ts.is_last t); reflexivity.
Qed.

Lemma alike_observe ms t : alike (_observe C ms t) (_observe C' ms t).
Proof.
  induction ms as [|m ms IH]; simpl.
  - apply alike_ret.
  - apply alike_bind; [apply alike_observer | intros _; exact IH].
Qed.

Lemma alike_action policy t :
  (forall ag, other_action policy ag t = policy_action C policy ag t) ->
  alike (action C policy t) (action C' policy t).
Proof.
  intros H w. destruct w. unfold action, recast. simpl. rewrite H.
  destruct (policy_action C policy w_agent0 t). reflexivity.
Qed.

Ltac alike_go :=
  repeat (intros; cbv beta zeta;
    first
      [ apply alike_ret | apply alike_out_of_fuel | apply alike_emit
      | apply alike_reset | apply alike_step | apply alike_game_over
      | apply alike_add_batch | apply alike_replay_buffer_size
      | apply alike_observe | apply alike_env_steps_metric_result
      | apply alike_iteration_metric_result
      | apply alike_iteration_metric_call | apply alike_train_step_call
      | apply alike_life_lost
      | apply alike_action; solve [auto]
      | apply alike_when | apply alike_bind
      | match goal with
        | |- alike (if ?b then _ else _) _ => destruct b
        end
      | solve [auto] ]).

Lemma alike_collect_step t policy ms train :
  (forall ag t0, other_action policy ag t0 = policy_action C policy ag t0) ->
  alike (_collect_step C t policy ms train)
        (_collect_step C' t policy ms train).
Proof. intro H. unfold _collect_step. alike_go. Qed.

Section SameCollectPolicy.

Hypothesis same_collect :
  forall ag t,
    other_action collect_policy ag t = policy_action C collect_policy ag t.

Lemma alike_run_episode_loop fuel ms train :
  forall t n,
    alike (_run_episode_loop C cfg fuel ms train t n)
          (_run_episode_loop C' cfg fuel ms train t n).
Proof using same_collect.
  induction fuel as [|fuel IH]; intros t n; simpl.
  - apply alike_out_of_fuel.
  - apply alike_bind; [apply alike_collect_step, same_collect|].
    alike_go.
Qed.

Lemma alike_run_episode fuel ms train :
  alike (_run_episode C cfg fuel ms train)
        (_run_episode C' cfg fuel ms train).
Proof using same_collect.
  unfold _run_episode. apply alike_bind; [apply alike_reset|].
  intro t. apply alike_run_episode_loop.
Qed.

Lemma alike_train_phase_loop fuel :
  forall n,
    alike (train_phase_loop C cfg fuel n) (train_phase_loop C' cfg fuel n).
Proof using same_collect.
  induction fuel as [|fuel IH]; intro n; simpl.
  - apply alike_out_of_fuel.
  - destruct (Qle_bool _ _); [apply alike_ret|].
    apply alike_bind; [apply alike_run_episode|]. intro. apply IH.
Qed.

Lemma alike_eval_phase_loop fuel :
  forall n,
    alike (eval_phase_loop C cfg fuel n) (eval_phase_loop C' cfg fuel n).
Proof using same_collect.
  induction fuel as [|fuel IH]; intro n; simpl.
  - apply alike_out_of_fuel.
  - destruct (Qle_bool _ _); [apply alike_ret|].
    apply alike_bind; [apply alike_run_episode|]. intro. apply IH.
Qed.

Lemma alike_run_loop fuel :
  alike (run_loop C cfg fuel) (run_loop C' cfg fuel).
Proof using same_collect.
  induction fuel as [|fuel IH]; simpl.
  - apply alike_out_of_fuel.
  - apply alike_bind; [apply alike_iteration_metric_result|].
    intro i. destruct (_ <=? _); [apply alike_ret|].
    apply alike_bind; [apply alike_train_phase_loop|].
    intros _. apply alike_bind.
    + apply alike_when. apply alike_bind; [apply alike_eval_phase_loop|].
      intro. apply alike_ret.
    + intros _. apply alike_bind; [apply alike_iteration_metric_call|].
      intros _. exact IH.
Qed.

Lemma alike_initial_collect fuel :
  (forall ag t,
      other_action random_policy ag t
      = policy_action C random_policy ag t) ->
  alike (_initial_collect C cfg fuel) (_initial_collect C' cfg fuel).
Proof.
  intro H. unfold _initial_collect.
  apply alike_bind; [apply alike_reset|].
  induction fuel as [|fuel IH]; intro t; simpl; alike_go.
Qed.

End SameCollectPolicy.

(** X15.  The eval policy has no part in the driver.  With collaborators
    that differ in their policies only, an episode runs alike in either
    mode, to the same outcome and the same world, as soon as the collect
    policies act alike: an episode in EVAL mode acts with the collect
    policy.  The whole of [run] runs alike as soon as the collect and the
    random policies act alike. *)
Theorem eval_policy_never_acts :
  ((forall ag t,
       other_action collect_policy ag t
       = policy_action C collect_policy ag t) ->
   forall fuel ms train w,
     _run_episode C' cfg fuel ms train (recast w)
     = (recast_outcome (fst (_run_episode C cfg fuel ms train w)),
        recast (snd (_run_episode C cfg fuel ms train w))))
  /\ ((forall ag t,
          other_action collect_policy ag t
          = policy_action C collect_policy ag t) ->
      (forall ag t,
          other_action random_policy ag t
          = policy_action C random_policy ag t) ->
      forall fuel w,
        run C' cfg fuel (recast w)
        = (recast_outcome (fst (run C cfg fuel w)),
           recast (snd (run C cfg fuel w)))).
Proof.
  split.
  - intros Hc fuel ms train w.
    apply (alike_run_episode Hc fuel ms train w).
  - intros Hc Hr fuel w. unfold run.
    apply (alike_bind (_initial_collect C cfg fuel)
                      (_initial_collect C' cfg fuel)).
    + apply alike_initial_collect; assumption.
    + intros _. apply alike_run_loop, Hc.
Qed.

End PolicyUse.

(** An emulator that can be told to quit: the action [true] ends the game
    at once, the action [false] plays on, the game is over after three
    steps.  The eval policy quits, the collect and the random policy play
    on. *)
Definition quitter_step (c : nat) (quit : bool)
    : StubExn + (ts.TimeStep nat * nat) :=
  let c' := if quit then 3%nat else S c in
  if Nat.leb 3 c'
  then inr (ts.mk ts.LAST 1 0%Q c', c')
  else inr (ts.mk ts.MID 1 1%Q c', c').

Definition quitter_action (p : Policy) (ag : unit) (_ : ts.TimeStep nat)
    : policy_step.PolicyStep bool unit * unit :=
  match p with
  | eval_policy => (policy_step.mk true tt, ag)
  | _ => (policy_step.mk false tt, ag)
  end.

Definition quitter : Collaborators nat bool unit :=
  mkCollaborators
    nat StubExn (fun _ => inr (ts.restart O, O)) quitter_step
    (fun c => Nat.leb 3 c)
    unit quitter_action (fun ag _ => ag) count_transitions.

(** Policies that all play on. *)
Definition play_on (_ : Policy) (ag : unit) (_ : ts.TimeStep nat)
    : policy_step.PolicyStep bool unit * unit :=
  (policy_step.mk false tt, ag).

Definition quitter_world : World quitter :=
  mkWorld quitter O tt (replay_buffer.mk 100 []) 0 0 [].

Lemma eval_policy_never_acts_witness :
  (forall ag t,
      play_on collect_policy ag t = policy_action quitter collect_policy ag t)
  /\ fst (_run_episode quitter scenario_config 4 _eval_metrics false
                       quitter_world)
     = Returns 3
  /\ fst (_run_episode (with_policies quitter play_on) scenario_config 4
                       _eval_metrics false (recast quitter play_on
                                                   quitter_world))
     = Returns 3.
Proof.
  assert (Hc : forall ag t,
             play_on collect_policy ag t
             = policy_action quitter collect_policy ag t)
    by (intros ag t; reflexivity).
  split; [exact Hc|]. split; [vm_compute; reflexivity|].
  rewrite (proj1 (eval_policy_never_acts quitter scenario_config play_on)
             Hc 4%nat _eval_metrics false quitter_world).
  vm_compute. reflexivity.
Defined.

(* ================================================================== *)
(** ** Every step is stored and observed once *)

Section Accounting.

Context {Obs Act Info : Type}.
Variable C : Collaborators Obs Act Info.
Variable cfg : Config.

Local Abbreviation Event := (@Event Obs Act Info).
Local Abbreviation Trajectory := (@Trajectory Obs Act Info).

(** The steps, writes and observer calls of a trace. *)
Definition steps_of (w : World C) : Z := count is_env_step (w_trace C w).
Definition writes_of (w : World C) : Z := count is_add_batch (w_trace C w).
Definition calls_of (w : World C) : Z := count is_observe (w_trace C w).

Lemma count_observe_calls (ms : list Metric) (t : Trajectory) :
  count is_observe (map (fun m => EvObserve m t) ms)
  = Z.of_nat (length ms).
Proof.
  unfold count. induction ms as [|m ms IH]; simpl; [reflexivity|].
  simpl in IH. lia.
Qed.

Lemma count_store_writes train (t : Trajectory) :
  count is_add_batch (store_events train t) = if train then 1 else 0.
Proof. destruct train; reflexivity. Qed.

(** The calls to the observer [m], and how often [m] stands in a list of
    observers. *)
Definition is_observe_of (m : Metric) (e : Event) : bool :=
  match e with EvObserve m' _ => Metric_eqb m m' | _ => false end.
Definition calls_to (m : Metric) (w : World C) : Z :=
  count (is_observe_of m) (w_trace C w).
Definition occurrences (m : Metric) (ms : list Metric) : Z :=
  Z.of_nat (length (filter (Metric_eqb m) ms)).

Lemma Metric_eqb_eq (a b : Metric) : Metric_eqb a b = true <-> a = b.
Proof. destruct a, b; simpl; split; congruence. Qed.

Lemma occurrences_absent m ms : ~ In m ms -> occurrences m ms = 0.
Proof.
  unfold occurrences. induction ms as [|m' ms IH]; simpl; intro H.
  - reflexivity.
  - destruct (Metric_eqb m m') eqn:E.
    + apply Metric_eqb_eq in E. subst m'. exfalso. apply H. left.
      reflexivity.
    + apply IH. intro Hin. apply H. right. exact Hin.
Qed.

Lemma occurrences_once m ms : NoDup ms -> In m ms -> occurrences m ms = 1.
Proof.
  intro Hn. induction Hn as [|m' ms Hm' Hn IH]; intro Hin.
  - destruct Hin.
  - unfold occurrences. simpl. destruct (Metric_eqb m m') eqn:E.
    + apply Metric_eqb_eq in E. subst m'.
      pose proof (occurrences_absent m ms Hm') as H0.
      unfold occurrences in H0. simpl. lia.
    + destruct Hin as [Hin|Hin].
      * subst m'. assert (Ht : Metric_eqb m m = true)
          by (apply Metric_eqb_eq; reflexivity).
        rewrite Ht in E. discriminate E.
      * apply IH, Hin.
Qed.

Lemma count_observe_calls_to m (ms : list Metric) (t : Trajectory) :
  count (is_observe_of m) (map (fun m' => EvObserve m' t) ms)
  = occurrences m ms.
Proof.
  unfold count, occurrences. induction ms as [|m' ms IH]; simpl.
  - reflexivity.
  - destruct (Metric_eqb m m'); simpl; lia.
Qed.

Lemma collect_step_accounting w time_step policy ms train next w' :
  _collect_step C time_step policy ms train w = (Returns next, w') ->
  writes_of w' - writes_of w
  = (if train then steps_of w' - steps_of w else 0)
  /\ calls_of w' - calls_of w
     = Z.of_nat (length ms) * (steps_of w' - steps_of w).
Proof.
  unfold writes_of, calls_of, steps_of. intro H.
  destruct (policy_action C policy (w_agent C w) time_step)
    as [a1 ag1] eqn:Ha1.
  destruct (env_step C (w_env C w) (policy_step.action a1))
    as [e|[n1 e1]] eqn:Hs1.
  { rewrite (collect_step_raises C w time_step policy ms a1 ag1 e train
               Ha1 Hs1) in H. discriminate H. }
  destruct (ts.is_last n1 && negb (env_game_over C e1)) eqn:Hl.
  - apply andb_true_iff in Hl. destruct Hl as [Hl Hg].
    apply negb_true_iff in Hg.
    destruct (policy_action C policy ag1 (ts.restart (ts.observation n1)))
      as [a2 ag2] eqn:Ha2.
    destruct (env_step C e1 (policy_step.action a2))
      as [e|[n2 e2]] eqn:Hs2.
    { rewrite (collect_step_life_loss_raises C w time_step policy ms
                 a1 ag1 n1 e1 a2 ag2 e train Ha1 Hs1 Hl Hg Ha2 Hs2) in H.
      discriminate H. }
    rewrite (collect_step_life_loss C w time_step policy ms a1 ag1 n1 e1
               a2 ag2 n2 e2 Ha1 Hs1 Hl Hg Ha2 Hs2 train) in H.
    inversion H; subst.
    rewrite life_loss_world_trace. repeat rewrite count_app.
    rewrite !count_observe_calls, !count_store_writes.
    rewrite !(count_observe is_env_step), !(count_observe is_add_batch)
      by reflexivity.
    rewrite !(count_store_events is_env_step),
      !(count_store_events is_observe) by reflexivity.
    change (count is_add_batch
              [EvCollectStep; EvStep (policy_step.action a1)]) with 0.
    change (count is_observe
              [EvCollectStep; EvStep (policy_step.action a1)]) with 0.
    change (count is_env_step
              [EvCollectStep; EvStep (policy_step.action a1)]) with 1.
    change (count is_add_batch [EvStep (policy_step.action a2)]) with 0.
    change (count is_observe [EvStep (policy_step.action a2)]) with 0.
    change (count is_env_step [EvStep (policy_step.action a2)]) with 1.
    destruct train; split; lia.
  - rewrite (collect_step_ordinary C w time_step policy ms a1 ag1 n1 e1
               train Ha1 Hs1 Hl) in H.
    inversion H; subst.
    rewrite observe_w_trace, store_when_trace. simpl w_trace.
    repeat rewrite count_app.
    rewrite !count_observe_calls, !count_store_writes.
    rewrite !(count_observe is_env_step), !(count_observe is_add_batch)
      by reflexivity.
    rewrite !(count_store_events is_env_step),
      !(count_store_events is_observe) by reflexivity.
    change (count is_add_batch [EvCollectStep]) with 0.
    change (count is_observe [EvCollectStep]) with 0.
    change (count is_env_step [EvCollectStep]) with 0.
    change (count is_add_batch [EvStep (policy_step.action a1)]) with 0.
    change (count is_observe [EvStep (policy_step.action a1)]) with 0.
    change (count is_env_step [EvStep (policy_step.action a1)]) with 1.
    destruct train; split; lia.
Qed.

Lemma collect_step_calls_to m w time_step policy ms train next w' :
  _collect_step C time_step policy ms train w = (Returns next, w') ->
  calls_to m w' - calls_to m w
  = occurrences m ms * (steps_of w' - steps_of w).
Proof.
  unfold calls_to, steps_of. intro H.
  destruct (policy_action C policy (w_agent C w) time_step)
    as [a1 ag1] eqn:Ha1.
  destruct (env_step C (w_env C w) (policy_step.action a1))
    as [e|[n1 e1]] eqn:Hs1.
  { rewrite (collect_step_raises C w time_step policy ms a1 ag1 e train
               Ha1 Hs1) in H. discriminate H. }
  destruct (ts.is_last n1 && negb (env_game_over C e1)) eqn:Hl.
  - apply andb_true_iff in Hl. destruct Hl as [Hl Hg].
    apply negb_true_iff in Hg.
    destruct (policy_action C policy ag1 (ts.restart (ts.observation n1)))
      as [a2 ag2] eqn:Ha2.
    destruct (env_step C e1 (policy_step.action a2))
      as [e|[n2 e2]] eqn:Hs2.
    { rewrite (collect_step_life_loss_raises C w time_step policy ms
                 a1 ag1 n1 e1 a2 ag2 e train Ha1 Hs1 Hl Hg Ha2 Hs2) in H.
      discriminate H. }
    rewrite (collect_step_life_loss C w time_step policy ms a1 ag1 n1 e1
               a2 ag2 n2 e2 Ha1 Hs1 Hl Hg Ha2 Hs2 train) in H.
    inversion H; subst.
    rewrite life_loss_world_trace. repeat rewrite count_app.
    rewrite !count_observe_calls_to.
    rewrite !(count_observe is_env_step) by reflexivity.
    rewrite !(count_store_events is_env_step),
      !(count_store_events (is_observe_of m)) by reflexivity.
    change (count (is_observe_of m)
              [EvCollectStep; EvStep (policy_step.action a1)]) with 0.
    change (count is_env_step
              [EvCollectStep; EvStep (policy_step.action a1)]) with 1.
    change (count (is_observe_of m) [EvStep (policy_step.action a2)])
      with 0.
    change (count is_env_step [EvStep (policy_step.action a2)]) with 1.
    lia.
  - rewrite (collect_step_ordinary C w time_step policy ms a1 ag1 n1 e1
               train Ha1 Hs1 Hl) in H.
    inversion H; subst.
    rewrite observe_w_trace, store_when_trace. simpl w_trace.
    repeat rewrite count_app.
    rewrite !count_observe_calls_to.
    rewrite !(count_observe is_env_step) by reflexivity.
    rewrite !(count_store_events is_env_step),
      !(count_store_events (is_observe_of m)) by reflexivity.
    change (count (is_observe_of m) [EvCollectStep]) with 0.
    change (count is_env_step [EvCollectStep]) with 0.
    change (count (is_observe_of m) [EvStep (policy_step.action a1)])
      with 0.
    change (count is_env_step [EvStep (policy_step.action a1)]) with 1.
    lia.
Qed.

Lemma update_w_calls_to m b (w : World C) :
  calls_to m (update_w C b w) = calls_to m w.
Proof.
  unfold calls_to. destruct b; simpl; [|reflexivity].
  rewrite !count_app.
  change (count (is_observe_of m) [EvTrainStep]) with 0. lia.
Qed.

Lemma update_w_accounting b (w : World C) :
  steps_of (update_w C b w) = steps_of w
  /\ writes_of (update_w C b w) = writes_of w
  /\ calls_of (update_w C b w) = calls_of w.
Proof.
  unfold steps_of, writes_of, calls_of.
  destruct b; simpl; [|repeat split].
  rewrite !count_app.
  change (count is_env_step [EvTrainStep]) with 0.
  change (count is_add_batch [EvTrainStep]) with 0.
  change (count is_observe [EvTrainStep]) with 0.
  repeat split; lia.
Qed.

Lemma run_episode_loop_accounting fuel ms train :
  forall t n w m w',
    _run_episode_loop C cfg fuel ms train t n w = (Returns m, w') ->
    writes_of w' - writes_of w
    = (if train then steps_of w' - steps_of w else 0)
    /\ calls_of w' - calls_of w
       = Z.of_nat (length ms) * (steps_of w' - steps_of w).
Proof.
  induction fuel as [|fuel IH]; intros t n w m w' H.
  - discriminate H.
  - destruct (_collect_step C t collect_policy ms train w)
      as [[next|e|] w1] eqn:Hc.
    + pose proof (collect_step_accounting _ _ _ _ _ _ _ Hc) as (Hw & Ho).
      rewrite (run_episode_loop_step C cfg fuel ms train t n w _ _ Hc) in H.
      destruct (env_game_over C (w_env C w1)).
      * inversion H; subst. split; assumption.
      * apply IH in H. destruct H as (Hw' & Ho').
        destruct (update_w_accounting (update_due C cfg train w1) w1)
          as (Es & Ew & Eo).
        rewrite Es, Ew in Hw'. rewrite Es, Eo in Ho'.
        destruct train; split; lia.
    + rewrite (run_episode_loop_raises C cfg fuel ms train t n w _ _ Hc)
        in H.
      discriminate H.
    + simpl in H. rewrite (bind_out_of_fuel C _ _ _ _ Hc) in H.
      discriminate H.
Qed.

Lemma run_episode_loop_calls_to m fuel ms train :
  forall t n w k w',
    _run_episode_loop C cfg fuel ms train t n w = (Returns k, w') ->
    calls_to m w' - calls_to m w
    = occurrences m ms * (steps_of w' - steps_of w).
Proof.
  induction fuel as [|fuel IH]; intros t n w k w' H.
  - discriminate H.
  - destruct (_collect_step C t collect_policy ms train w)
      as [[next|e|] w1] eqn:Hc.
    + pose proof (collect_step_calls_to m _ _ _ _ _ _ _ Hc) as Ho.
      rewrite (run_episode_loop_step C cfg fuel ms train t n w _ _ Hc) in H.
      destruct (env_game_over C (w_env C w1)).
      * inversion H; subst. exact Ho.
      * apply IH in H.
        destruct (update_w_accounting (update_due C cfg train w1) w1)
          as (Es & _ & _).
        rewrite Es, update_w_calls_to in H. lia.
    + rewrite (run_episode_loop_raises C cfg fuel ms train t n w _ _ Hc)
        in H.
      discriminate H.
    + simpl in H. rewrite (bind_out_of_fuel C _ _ _ _ Hc) in H.
      discriminate H.
Qed.

(** X16.  In an episode that returns, every step of the environment is
    accounted for once: in TRAIN mode the writes to the replay buffer are
    as many as the steps of the environment, in EVAL mode there is none;
    in either mode each observer is called, per step of the environment,
    as often as it stands in the list of observers, life losses
    included: once when the list has no repetition and names it, never
    when the list does not name it.  The lists [run] passes have no
    repetition. *)
Theorem episode_accounts_for_every_step fuel ms train w n w' :
  _run_episode C cfg fuel ms train w = (Returns n, w') ->
  count is_add_batch (w_trace C w') - count is_add_batch (w_trace C w)
  = (if train
     then count is_env_step (w_trace C w')
          - count is_env_step (w_trace C w)
     else 0)
  /\ count is_observe (w_trace C w') - count is_observe (w_trace C w)
     = Z.of_nat (length ms)
       * (count is_env_step (w_trace C w')
          - count is_env_step (w_trace C w))
  /\ (forall m,
         calls_to m w' - calls_to m w
         = occurrences m ms
           * (count is_env_step (w_trace C w')
              - count is_env_step (w_trace C w)))
  /\ (forall m,
         NoDup ms -> In m ms ->
         calls_to m w' - calls_to m w
         = count is_env_step (w_trace C w')
           - count is_env_step (w_trace C w))
  /\ (forall m, ~ In m ms -> calls_to m w' = calls_to m w)
  /\ NoDup (_train_metrics ++ _train_phase_metrics)
  /\ NoDup _eval_metrics.
Proof.
  unfold _run_episode. intro H.
  apply bind_returns_inv in H. destruct H as (t & w1 & Hr & Hl).
  assert (Hw1 : w_trace C w1 = w_trace C w ++ [EvReset]).
  { unfold reset, bind, emit in Hr. simpl in Hr.
    destruct (env_reset C (w_env C w)) as [e|[t0 env']];
      inversion Hr; subst; reflexivity. }
  assert (Hm : forall m,
             calls_to m w' - calls_to m w
             = occurrences m ms
               * (count is_env_step (w_trace C w')
                  - count is_env_step (w_trace C w))).
  { intro m. pose proof (run_episode_loop_calls_to m _ _ _ _ _ _ _ _ Hl)
      as Ho.
    unfold calls_to, steps_of in *. rewrite Hw1, !count_app in Ho.
    change (count (is_observe_of m) [EvReset]) with 0 in Ho.
    change (count is_env_step [EvReset]) with 0 in Ho.
    rewrite !Z.add_0_r in Ho. exact Ho. }
  apply run_episode_loop_accounting in Hl.
  unfold writes_of, calls_of, steps_of in Hl.
  rewrite Hw1, !count_app in Hl.
  change (count is_add_batch [EvReset]) with 0 in Hl.
  change (count is_observe [EvReset]) with 0 in Hl.
  change (count is_env_step [EvReset]) with 0 in Hl.
  destruct Hl as (Hw & Ho).
  split; [destruct train; lia|]. split; [lia|]. split; [exact Hm|].
  split; [|split; [|split]].
  - intros m Hn Hin. rewrite (Hm m), (occurrences_once m ms Hn Hin). lia.
  - intros m Hin. pose proof (Hm m) as E.
    rewrite (occurrences_absent m ms Hin) in E. lia.
  - repeat constructor; simpl; intuition discriminate.
  - repeat constructor; simpl; intuition discriminate.
Qed.

End Accounting.

Lemma episode_accounts_for_every_step_witness :
  _run_episode (stub life_loss5) scenario_config 10 _train_metrics true
               (stub_world life_loss5 100)
  = (Returns 9,
     snd (_run_episode (stub life_loss5) scenario_config 10 _train_metrics
                       true (stub_world life_loss5 100)))
  /\ count is_add_batch
       (w_trace _ (snd (_run_episode (stub life_loss5) scenario_config 10
                                     _train_metrics true
                                     (stub_world life_loss5 100))))
     = count is_env_step
         (w_trace _ (snd (_run_episode (stub life_loss5) scenario_config 10
                                       _train_metrics true
                                       (stub_world life_loss5 100))))
  /\ NoDup _train_metrics
  /\ In AverageReturnMetric _train_metrics
  /\ calls_to (stub life_loss5) AverageReturnMetric
       (snd (_run_episode (stub life_loss5) scenario_config 10
                          _train_metrics true (stub_world life_loss5 100)))
     = 10.
Proof.
  assert (H : _run_episode (stub life_loss5) scenario_config 10
                           _train_metrics true (stub_world life_loss5 100)
              = (Returns 9,
                 snd (_run_episode (stub life_loss5) scenario_config 10
                                   _train_metrics true
                                   (stub_world life_loss5 100))))
    by (vm_compute; reflexivity).
  assert (Hn : NoDup _train_metrics)
    by (repeat constructor; simpl; intuition discriminate).
  assert (Hin : In AverageReturnMetric _train_metrics)
    by (simpl; auto).
  split; [exact H|].
  destruct (episode_accounts_for_every_step (stub life_loss5)
              scenario_config 10 _train_metrics true _ _ _ H)
    as (Hw & _ & _ & Hone & _).
  split.
  { change (count is_add_batch
              (w_trace (stub life_loss5) (stub_world life_loss5 100)))
      with 0 in Hw.
    change (count is_env_step
              (w_trace (stub life_loss5) (stub_world life_loss5 100)))
      with 0 in Hw.
    rewrite !Z.sub_0_r in Hw. exact Hw. }
  split; [exact Hn|]. split; [exact Hin|].
  pose proof (Hone AverageReturnMetric Hn Hin) as Hc.
  change (calls_to (stub life_loss5) AverageReturnMetric
            (stub_world life_loss5 100)) with 0 in Hc.
  rewrite Z.sub_0_r in Hc. rewrite Hc. vm_compute. reflexivity.
Defined.
